(** * registry-agent: context store, client registry and exec session bridge

    A shallow embedding of
      - the multi-context [DockerService] (readConfig, saveConfig, getClient,
        ListContexts, CreateContext, DeleteContext, GetContextConfig,
        UpdateContextConfig, the exec calls, the container and image
        listings, CreateContainer),
      - [ContainerHandler.ExecContainer], from the websocket upgrade to the
        deferred closes, with its two relay goroutines, and
      - the older single-client [DockerService],
    followed by the properties established about them. *)

From stdpp Require Import gmap strings list fin_maps sorting pretty.
From Stdlib Require Import ZArith Lia.
From Stdlib Require OrderedTypeEx.

Set Warnings "-register-all".

(** ** Untyped JSON documents, as [encoding/json] decodes them into
       [map[string]interface{}] *)

Inductive Json : Type :=
  | JNull
  | JBool (b : bool)
  | JNum (n : Z)
  | JStr (s : string)
  | JArr (l : list Json)
  | JObj (m : gmap string Json).

Abbreviation Config := (gmap string Json).

(** [v.(map[string]interface{})] applied to the result of a map index: a
    missing key yields the nil interface, on which the assertion fails. *)
Definition as_obj (j : option Json) : option (gmap string Json) :=
  match j with
  | Some (JObj m) => Some m
  | _ => None
  end.

(** [v.(string)] applied to the result of a map index. *)
Definition as_str (j : option Json) : option string :=
  match j with
  | Some (JStr s) => Some s
  | _ => None
  end.

(** [x, _ := v.(string)]: the zero value when the assertion fails. *)
Definition str_or_empty (j : option Json) : string :=
  default "" (as_str j).

(** ** Data model *)

Record ContextConfig := {
  Name : string;
  Type_ : string;
  Host : string;
  Current : bool
}.

(** A [*client.Client]: [cid] stands for the pointer identity, [chost] for
    the address the client was built for. *)
Record Client := { cid : nat; chost : string }.

Global Instance Client_eq_dec : EqDecision Client.
Proof. solve_decision. Defined.

(** The errors the service returns; one constructor per message. The last
    one is not an error value: it marks a call that does not return but
    panics, which like an error ends the calls in progress. *)
Inductive Error :=
  | ErrIO                            (* os / encoding/json failure *)
  | ErrNoContexts                    (* "no contexts found" *)
  | ErrNotFound (name : string)      (* "context %s not found" *)
  | ErrInvalidHost (name : string)   (* "invalid host configuration for context %s" *)
  | ErrCreateClient                  (* "failed to create docker client: %v" *)
  | ErrInUse (name : string)         (* "cannot delete current context: %s" *)
  | ErrBackend                       (* an error returned by the Docker API *)
  | ErrAttachExec (e : Error)        (* "failed to attach exec: %v" *)
  | ErrStartExec (e : Error)         (* "failed to start exec: %v" *)
  | NilMapPanic.                     (* panic: assignment to entry in nil map *)

Inductive Result (A : Type) :=
  | Ok (a : A)
  | Err (e : Error).
Arguments Ok {A} a.
Arguments Err {A} e.

(** The configuration file on disk. *)
Inductive FileState :=
  | FileMissing                 (* os.Stat reports IsNotExist *)
  | FileBad                     (* os.ReadFile or json.Unmarshal fails *)
  | FileNull                    (* the JSON text null: decoded without error,
                                   the map stays nil *)
  | FileDoc (cfg : Config).

(** A [map[string]interface{}] value: the nil map or a map. Indexing the
    nil map finds nothing; assigning to an entry of it panics. *)
Inductive GoMap :=
  | NilMap
  | Map (m : Config).

Global Instance GoMap_lookup : Lookup string Json GoMap := λ key config,
  match config with
  | NilMap => None
  | Map m => m !! key
  end.

(** The entries of a map that is written out or marshalled. *)
Definition entries (config : GoMap) : Config :=
  match config with
  | NilMap => ∅
  | Map m => m
  end.

(** Effects worth observing, in program order. *)
Inductive Event :=
  | EvWriteFile (cfg : Config)
  | EvNewClient (c : Client)
  | EvCache (name : string) (c : Client)
  | EvSetenv (host : string)
  | EvExecResize (c : Client) (execID : string) (height width : Z).

(** What the service does not control: whether [os.WriteFile] succeeds,
    which hosts [client.NewClientWithOpts] accepts, the host the client
    library falls back to when DOCKER_HOST is empty, and whether the
    daemon accepts a resize. *)
Record World := {
  write_ok : bool;
  host_ok : string → bool;
  default_host : string;
  resize_ok : Z → Z → bool
}.

(** The [DockerService] value together with the process state it touches. *)
Record Service := {
  file : FileState;
  clients : gmap string Client;
  next_cid : nat;
  DOCKER_HOST : string;
  log : list Event
}.

Definition NewDockerService (f : FileState) : Service :=
  {| file := f; clients := ∅; next_cid := 0; DOCKER_HOST := ""; log := [] |}.

Definition set_file (f : FileState) (s : Service) : Service :=
  {| file := f; clients := clients s; next_cid := next_cid s;
     DOCKER_HOST := DOCKER_HOST s; log := log s |}.
Definition set_clients (m : gmap string Client) (s : Service) : Service :=
  {| file := file s; clients := m; next_cid := next_cid s;
     DOCKER_HOST := DOCKER_HOST s; log := log s |}.
Definition set_next_cid (n : nat) (s : Service) : Service :=
  {| file := file s; clients := clients s; next_cid := n;
     DOCKER_HOST := DOCKER_HOST s; log := log s |}.
Definition set_env (h : string) (s : Service) : Service :=
  {| file := file s; clients := clients s; next_cid := next_cid s;
     DOCKER_HOST := h; log := log s |}.
Definition emit (e : Event) (s : Service) : Service :=
  {| file := file s; clients := clients s; next_cid := next_cid s;
     DOCKER_HOST := DOCKER_HOST s; log := log s ++ [e] |}.

(** ** State-and-error monad: a Go method with an [error] result that
       mutates the receiver and the environment. State changes made before
       an error is returned persist. *)

Definition M (A : Type) : Type := Service → Result A * Service.

Global Instance M_ret : MRet M := λ A a s, (Ok a, s).
Global Instance M_bind : MBind M := λ A B f m s,
  match m s with
  | (Ok a, s') => f a s'
  | (Err e, s') => (Err e, s')
  end.
Definition fail {A} (e : Error) : M A := λ s, (Err e, s).
Definition modify (f : Service → Service) : M unit := λ s, (Ok tt, f s).

(** ** The context store *)

Section ServiceModel.

Variable W : World.

Definition defaultConfig : Config :=
  <["contexts" := JObj ∅]> (<["current-context" := JStr ""]> ∅).

(** [os.WriteFile(configPath, data, 0644)] of the marshalled document. *)
Definition writeFile (cfg : Config) : M unit :=
  λ s, if write_ok W
       then (Ok tt, emit (EvWriteFile cfg) (set_file (FileDoc cfg) s))
       else (Err ErrIO, s).

Definition readConfig : M GoMap :=
  λ s, match file s with
       | FileMissing => (writeFile defaultConfig ;; mret (Map defaultConfig)) s
       | FileBad => (Err ErrIO, s)
       | FileNull => (Ok NilMap, s)
       | FileDoc cfg => (Ok (Map cfg), s)
       end.

Definition saveConfig (config : Config) : M unit := writeFile config.

(** ** The client registry *)

Inductive ClientOpt :=
  | WithHost (host : string)
  | FromEnv.

(** [client.NewClientWithOpts(opt, client.WithAPIVersionNegotiation())].
    [FromEnv] takes the host from DOCKER_HOST when that is set and not
    empty, and keeps the library default otherwise. No connection is
    attempted here. *)
Definition NewClientWithOpts (opt : ClientOpt) : M Client :=
  λ s, let host := match opt with
                   | WithHost h => h
                   | FromEnv => if decide (DOCKER_HOST s = "")
                                then default_host W else DOCKER_HOST s
                   end in
       if host_ok W host
       then let c := {| cid := next_cid s; chost := host |} in
            (Ok c, emit (EvNewClient c) (set_next_cid (S (next_cid s)) s))
       else (Err ErrCreateClient, s).

(** [s.clients[name] = cli] *)
Definition cacheClient (name : string) (cli : Client) : M unit :=
  modify (λ s, emit (EvCache name cli) (set_clients (<[name := cli]> (clients s)) s)).

(** The part of [getClient] after the cache miss: read the descriptor and
    build the client. *)
Definition getClient_create (contextName : string) : M Client :=
  config ← readConfig;
  match as_obj (config !! "contexts") with
  | None => fail ErrNoContexts
  | Some contexts =>
      match as_obj (contexts !! contextName) with
      | None => fail (ErrNotFound contextName)
      | Some contextConfig =>
          let host := str_or_empty (contextConfig !! "host") in
          if decide (host = "") then fail (ErrInvalidHost contextName)
          else NewClientWithOpts (WithHost host)
      end
  end.

Definition getClient (contextName : string) : M Client :=
  λ s, match clients s !! contextName with
       | Some cli => (Ok cli, s)
       | None =>
           (cli ← getClient_create contextName;
            cacheClient contextName cli ;;
            mret cli) s
       end.

(** ** Listing, creating, deleting and updating contexts *)

(** [sort.Slice(xs, less)]: the keys sorted here are the keys of one map, so
    they are pairwise distinct and every correct sort returns the same
    slice; insertion is used to compute it. *)
Fixpoint sort_insert {A} (less : A → A → bool) (x : A) (l : list A) : list A :=
  match l with
  | [] => [x]
  | y :: l' => if less y x then y :: sort_insert less x l' else x :: l
  end.

Definition sort_Slice {A} (less : A → A → bool) (l : list A) : list A :=
  foldr (sort_insert less) [] l.

Definition name_less (a b : ContextConfig) : bool :=
  String.ltb (Name a) (Name b).

(** One iteration of [for name, ctx := range contextsMap]. *)
Definition ListContexts_body (currentCtx : string)
    (acc : list ContextConfig * option ContextConfig) (kv : string * Json)
    : list ContextConfig * option ContextConfig :=
  match kv.2 with
  | JObj contextConfig =>
      let config := {| Name := kv.1;
                       Type_ := str_or_empty (contextConfig !! "type");
                       Host := str_or_empty (contextConfig !! "host");
                       Current := bool_decide (kv.1 = currentCtx) |} in
      if decide (kv.1 = currentCtx) then (acc.1, Some config)
      else (acc.1 ++ [config], acc.2)
  | _ => acc
  end.

Definition ListContexts : M (list ContextConfig) :=
  config ← readConfig;
  let currentCtx := str_or_empty (config !! "current-context") in
  match as_obj (config !! "contexts") with
  | None => fail ErrNoContexts
  | Some contextsMap =>
      let '(contextConfigs, currentConfig) :=
        foldl (ListContexts_body currentCtx) ([], None) (map_to_list contextsMap) in
      let contextConfigs := sort_Slice name_less contextConfigs in
      mret (match currentConfig with
            | Some c => c :: contextConfigs
            | None => contextConfigs
            end)
  end.

(** The value stored under a context name. *)
Definition descriptor (config : ContextConfig) : Json :=
  JObj (<["type" := JStr (Type_ config)]> (<["host" := JStr (Host config)]> ∅)).

(** [config[key] = value] *)
Definition assign (key : string) (value : Json) (config : GoMap) : M Config :=
  match config with
  | NilMap => fail NilMapPanic
  | Map m => mret (<[key := value]> m)
  end.

(** [contexts] is the map held under "contexts" in [currentConfig], found
    there or just put there: the assignment to [contexts[config.Name]]
    shows in [currentConfig]. *)
Definition CreateContext (config : ContextConfig) : M unit :=
  currentConfig ← readConfig;
  currentConfig ← match as_obj (currentConfig !! "contexts") with
                  | Some _ => mret (entries currentConfig)
                  | None => assign "contexts" (JObj ∅) currentConfig
                  end;
  let contexts := default ∅ (as_obj (currentConfig !! "contexts")) in
  saveConfig (<["contexts" := JObj (<[Name config := descriptor config]> contexts)]>
                currentConfig).

Definition DeleteContext (name : string) : M unit :=
  config ← readConfig;
  if decide (as_str (config !! "current-context") = Some name)
  then fail (ErrInUse name)
  else match as_obj (config !! "contexts") with
       | None => fail ErrNoContexts
       | Some contexts =>
           match contexts !! name with
           | None => fail (ErrNotFound name)
           | Some _ =>
               saveConfig (<["contexts" := JObj (delete name contexts)]> (entries config))
           end
       end.

Definition buildDockerHost (config : ContextConfig) : string := Host config.

(** [os.Setenv("DOCKER_HOST", host)] *)
Definition Setenv_DOCKER_HOST (host : string) : M unit :=
  modify (λ s, emit (EvSetenv host) (set_env host s)).

Definition UpdateContextConfig (name : string) (config : ContextConfig) : M unit :=
  currentConfig ← readConfig;
  match as_obj (currentConfig !! "contexts") with
  | None => fail ErrNoContexts
  | Some contexts =>
      match contexts !! name with
      | None => fail (ErrNotFound name)
      | Some _ =>
          let currentConfig' :=
            <["contexts" := JObj (<[name := descriptor config]> contexts)]>
              (entries currentConfig) in
          (if decide (as_str (currentConfig !! "current-context") = Some name)
           then Setenv_DOCKER_HOST (buildDockerHost config) ;;
                cli ← NewClientWithOpts FromEnv;
                cacheClient name cli
           else mret tt) ;;
          saveConfig currentConfig'
      end
  end.

(** [uint(v)] on a 64-bit platform. *)
Definition to_uint (v : Z) : Z := v mod 2 ^ 64.

(** [cli.ContainerExecResize(ctx, execID, types.ResizeOptions{...})] *)
Definition ContainerExecResize (cli : Client) (execID : string) (height width : Z)
    : M unit :=
  λ s, (if resize_ok W height width then Ok tt else Err ErrBackend,
        emit (EvExecResize cli execID height width) s).

Definition ResizeExec (contextName execID : string) (height width : Z) : M unit :=
  cli ← getClient contextName;
  ContainerExecResize cli execID (to_uint height) (to_uint width).

(** A call to the Docker daemon whose outcome the daemon decides. *)
Definition backend {A} (answer : Result A) : M A := λ s, (answer, s).

Definition CreateExec (contextName containerID : string) (answer : Result string)
    : M string :=
  cli ← getClient contextName;
  backend answer.

(** [if err != nil { return fmt.Errorf(prefix, err) }] *)
Definition wrapped {A} (wrap : Error → Error) (m : M A) : M A :=
  λ s, match m s with
       | (Err e, s') => (Err (wrap e), s')
       | r => r
       end.

Definition AttachExec (contextName execID : string) (answer : Result unit) : M unit :=
  cli ← getClient contextName;
  wrapped ErrAttachExec (backend answer).

Definition StartExec (contextName execID : string) (answer : Result unit) : M unit :=
  cli ← getClient contextName;
  wrapped ErrStartExec (backend answer).

(** ** [getClient] under concurrent callers

    [getClient] takes no lock. A caller is observed at two points: after
    it has tested the map (and, on a miss, built its client), and after it
    has stored the client. *)

Inductive GetPc :=
  | GLookup                       (* about to test [s.clients[contextName]] *)
  | GStore (cli : Client)         (* client built, about to store it *)
  | GDone (r : Result Client).    (* returned *)

Definition getClient_step (contextName : string) (pc : GetPc) (s : Service)
    : GetPc * Service :=
  match pc with
  | GLookup =>
      match clients s !! contextName with
      | Some cli => (GDone (Ok cli), s)
      | None =>
          match getClient_create contextName s with
          | (Ok cli, s') => (GStore cli, s')
          | (Err e, s') => (GDone (Err e), s')
          end
      end
  | GStore cli => (GDone (Ok cli), (cacheClient contextName cli s).2)
  | GDone r => (GDone r, s)
  end.

(** The callers in flight, each with the name it asked for. *)
Definition sched_step (st : Service * list (string * GetPc)) (i : nat)
    : Service * list (string * GetPc) :=
  match st.2 !! i with
  | None => st
  | Some (name, pc) =>
      let '(pc', s') := getClient_step name pc st.1 in
      (s', <[i := (name, pc')]> st.2)
  end.

Definition run_sched (sched : list nat) (st : Service * list (string * GetPc))
    : Service * list (string * GetPc) :=
  foldl sched_step st sched.

(** [n] calls, each returning before the next one starts. *)
Fixpoint getClient_seq (contextName : string) (n : nat) (s : Service)
    : list (Result Client) * Service :=
  match n with
  | 0 => ([], s)
  | S n' =>
      let '(r, s1) := getClient contextName s in
      let '(rs, s2) := getClient_seq contextName n' s1 in
      (r :: rs, s2)
  end.

End ServiceModel.

(** Number of clients built so far. *)
Definition is_NewClient (e : Event) : bool :=
  match e with EvNewClient _ => true | _ => false end.

Definition opened (l : list Event) : nat :=
  length (filter (λ e, is_NewClient e = true) l).
Arguments opened : simpl never.

(** ** Examples: the scenario of a context "prod" *)

Definition tcp_ctx (host : string) : Json :=
  JObj (<["type" := JStr "tcp"]> (<["host" := JStr host]> ∅)).

Definition prod_doc : Config :=
  <["contexts" := JObj (<["prod" := tcp_ctx "tcp://10.0.0.5:2375"]>
                        (<["dev" := tcp_ctx "tcp://10.0.0.9:2375"]> ∅))]>
    (<["current-context" := JStr "prod"]> ∅).

Definition W_ok : World :=
  {| write_ok := true; host_ok := λ _, true;
     default_host := "unix:///var/run/docker.sock"; resize_ok := λ _ _, true |}.

Definition W_readonly : World :=
  {| write_ok := false; host_ok := λ _, true;
     default_host := "unix:///var/run/docker.sock"; resize_ok := λ _ _, true |}.


(** ** The exec session bridge: [ContainerHandler.ExecContainer] *)

Abbreviation bytes := (list Byte.byte).

Inductive IOError :=
  | EOF
  | ErrClosed
  | ErrNet.

(** [websocket.TextMessage] and [websocket.BinaryMessage], the two kinds
    [ReadMessage] returns. *)
Inductive MessageType :=
  | TextMessage
  | BinaryMessage.

(** [nr, err := hijackedResp.Read(buf)]: the [nr] bytes placed in [buf]
    and the error. *)
Record ReadResult := { rr_data : bytes; rr_err : option IOError }.

(** [messageType, p, err := ws.ReadMessage()] *)
Inductive WsRead :=
  | WsReadErr (e : IOError)
  | WsReadMsg (messageType : MessageType) (p : bytes).

(** The anonymous struct the inbound goroutine decodes into. *)
Record ControlMsg := {
  msg_Type : string;
  msg_Data : string;
  msg_Cols : Z;
  msg_Rows : Z
}.

(** What happens in a session, in the order it happens. *)
Inductive BEvent :=
  | BUpgrade (ok : bool)
  | BCreateExec (r : Result string)
  | BAttachExec (r : Result unit)
  | BGoOutbound
  | BGoInbound
  | BStartExec (r : Result unit)
  | BWsWrite (messageType : MessageType) (p : bytes)
  | BHandleWrite (p : bytes)
  | BErrChan (e : IOError)
  | BCloseHandle
  | BCloseWs.

(** The two peers of a session. A write is attempted at a time, the number
    of events so far; [json_Unmarshal] is [json.Unmarshal] into the
    control-message struct. *)
Record Peers := {
  ws_write_err : nat → option IOError;
  handle_write_err : nat → option IOError;
  json_Unmarshal : bytes → option ControlMsg
}.

Record Bridge := {
  svc : Service;
  events : list BEvent
}.

Definition record (e : BEvent) (b : Bridge) : Bridge :=
  {| svc := svc b; events := events b ++ [e] |}.
Definition with_svc (s : Service) (b : Bridge) : Bridge :=
  {| svc := s; events := events b |}.

(** How one loop iteration of a goroutine ends. *)
Inductive Next :=
  | Continue
  | Return (e : IOError).       (* [errChan <- err; return] *)

Inductive PumpStatus :=
  | Blocked                     (* waiting in a read *)
  | Exited (e : IOError).

Section BridgeModel.

Variable W : World.
Variable P : Peers.
Variables contextName execID : string.

(** [ws.WriteMessage(messageType, p)] *)
Definition ws_WriteMessage (messageType : MessageType) (p : bytes) (b : Bridge)
    : option IOError * Bridge :=
  match ws_write_err P (length (events b)) with
  | Some e => (Some e, b)
  | None => (None, record (BWsWrite messageType p) b)
  end.

(** [hijackedResp.Write(p)] *)
Definition handle_Write (p : bytes) (b : Bridge) : option IOError * Bridge :=
  match handle_write_err P (length (events b)) with
  | Some e => (Some e, b)
  | None => (None, record (BHandleWrite p) b)
  end.

(** One iteration of the first goroutine, on the result of its [Read]. *)
Definition outbound_iter (r : ReadResult) (b : Bridge) : Next * Bridge :=
  match rr_err r with
  | Some e => (Return e, record (BErrChan e) b)
  | None =>
      if decide (0 < length (rr_data r)) then
        match ws_WriteMessage BinaryMessage (rr_data r) b with
        | (Some e, b') => (Return e, record (BErrChan e) b')
        | (None, b') => (Continue, b')
        end
      else (Continue, b)
  end.

(** One iteration of the second goroutine, on the result of its
    [ReadMessage]. *)
Definition inbound_iter (r : WsRead) (b : Bridge) : Next * Bridge :=
  match r with
  | WsReadErr e => (Return e, record (BErrChan e) b)
  | WsReadMsg TextMessage p =>
      match json_Unmarshal P p with
      | None => (Continue, b)
      | Some msg =>
          if decide (msg_Type msg = "input") then
            match handle_Write (String.list_byte_of_string (msg_Data msg)) b with
            | (Some e, b') => (Return e, record (BErrChan e) b')
            | (None, b') => (Continue, b')
            end
          else if decide (msg_Type msg = "resize") then
            (Continue,
             with_svc (ResizeExec W contextName execID (msg_Rows msg) (msg_Cols msg)
                         (svc b)).2 b)
          else (Continue, b)
      end
  | WsReadMsg BinaryMessage p => (Continue, b)
  end.

(** A goroutine's [for] loop over the results its reads deliver. *)
Fixpoint run_pump {R} (iter : R → Bridge → Next * Bridge) (script : list R)
    (b : Bridge) : PumpStatus * Bridge :=
  match script with
  | [] => (Blocked, b)
  | r :: rest =>
      match iter r b with
      | (Continue, b') => run_pump iter rest b'
      | (Return e, b') => (Exited e, b')
      end
  end.

Definition inbound_pump := run_pump inbound_iter.

End BridgeModel.


(** Resize requests that reached the daemon. *)
Definition resizes (l : list Event) : list Event :=
  filter (λ e, match e with EvExecResize _ _ _ _ => true | _ => false end = true) l.

(** *** The handler as three goroutines *)

Inductive MainPc :=
  | MUpgrade
  | MCreateExec
  | MAttachExec
  | MGoOutbound
  | MGoInbound
  | MStartExec
  | MSelect
  | MReturned.

Inductive GoPc :=
  | NotStarted
  | Running
  | Finished.

Record Session := {
  bridge : Bridge;
  exec_id : string;            (* [resp.ID] *)
  main_pc : MainPc;
  out_pc : GoPc;
  in_pc : GoPc
}.

(** What the scheduler and the outside world do next. *)
Inductive Action :=
  | ActMain (answer : Result string)   (* main runs its next statement; the
                                          answer of the peer or the daemon
                                          if one is asked *)
  | ActDone                            (* [c.Done()] fires *)
  | ActOutbound (r : ReadResult)       (* one iteration of the first goroutine *)
  | ActInbound (r : WsRead).           (* one iteration of the second goroutine *)

Definition void {A} (r : Result A) : Result unit :=
  match r with
  | Ok _ => Ok tt
  | Err e => Err e
  end.

(** [err.Error()]; the texts of the errors of the libraries stand for
    whatever these report. *)
Fixpoint errmsg (e : Error) : string :=
  match e with
  | ErrIO => "i/o error"
  | ErrNoContexts => "no contexts found"
  | ErrNotFound name => "context " +:+ name +:+ " not found"
  | ErrInvalidHost name => "invalid host configuration for context " +:+ name
  | ErrCreateClient => "failed to create docker client"
  | ErrInUse name => "cannot delete current context: " +:+ name
  | ErrBackend => "error response from daemon"
  | ErrAttachExec e => "failed to attach exec: " +:+ errmsg e
  | ErrStartExec e => "failed to start exec: " +:+ errmsg e
  | NilMapPanic => "assignment to entry in nil map"
  end.

Definition newline : string := String (Ascii.ascii_of_nat 10) EmptyString.

(** The frame [fmt.Sprintf] builds: the prefix, the error, a newline. *)
Definition error_text (what : string) (e : Error) : bytes :=
  String.list_byte_of_string (what +:+ errmsg e +:+ newline).

Definition has_BErrChan (l : list BEvent) : bool :=
  existsb (λ e, match e with BErrChan _ => true | _ => false end) l.

Section SessionModel.

Variable W : World.
Variable P : Peers.
Variables contextName id : string.

(** The handler is entered. *)
Definition start_session (s : Service) : Session :=
  {| bridge := {| svc := s; events := [] |}; exec_id := "";
     main_pc := MUpgrade; out_pc := NotStarted; in_pc := NotStarted |}.

Definition set_main (pc : MainPc) (b : Bridge) (σ : Session) : Session :=
  {| bridge := b; exec_id := exec_id σ; main_pc := pc;
     out_pc := out_pc σ; in_pc := in_pc σ |}.

(** [ws.WriteMessage(websocket.TextMessage, []byte(fmt.Sprintf(...)))],
    result ignored. *)
Definition report (what : string) (e : Error) (b : Bridge) : Bridge :=
  (ws_WriteMessage P TextMessage (error_text what e) b).2.

(** The next statement of the handler's own goroutine. Deferred calls run
    when it returns: [hijackedResp.Close()] if it was deferred, then
    [ws.Close()] if it was deferred; a failed upgrade returns before
    anything is deferred. *)
Definition main_step (answer : Result string) (σ : Session) : option Session :=
  let b := bridge σ in
  match main_pc σ with
  | MUpgrade =>
      match answer with
      | Err _ => Some (set_main MReturned (record (BUpgrade false) b) σ)
      | Ok _ => Some (set_main MCreateExec (record (BUpgrade true) b) σ)
      end
  | MCreateExec =>
      let '(r, s') := CreateExec W contextName id answer (svc b) in
      let b := record (BCreateExec r) (with_svc s' b) in
      match r with
      | Err e =>
          Some (set_main MReturned
                  (record BCloseWs (report "Error creating exec: " e b)) σ)
      | Ok execID =>
          Some {| bridge := b; exec_id := execID; main_pc := MAttachExec;
                  out_pc := out_pc σ; in_pc := in_pc σ |}
      end
  | MAttachExec =>
      let '(r, s') := AttachExec W contextName (exec_id σ) (void answer) (svc b) in
      let b := record (BAttachExec r) (with_svc s' b) in
      match r with
      | Err e =>
          Some (set_main MReturned
                  (record BCloseWs (report "Error attaching to exec: " e b)) σ)
      | Ok _ => Some (set_main MGoOutbound b σ)
      end
  | MGoOutbound =>
      Some {| bridge := record BGoOutbound b; exec_id := exec_id σ;
              main_pc := MGoInbound; out_pc := Running; in_pc := in_pc σ |}
  | MGoInbound =>
      Some {| bridge := record BGoInbound b; exec_id := exec_id σ;
              main_pc := MStartExec; out_pc := out_pc σ; in_pc := Running |}
  | MStartExec =>
      let '(r, s') := StartExec W contextName (exec_id σ) (void answer) (svc b) in
      let b := record (BStartExec r) (with_svc s' b) in
      match r with
      | Err e =>
          Some (set_main MReturned
                  (record BCloseWs
                     (record BCloseHandle (report "Error starting exec: " e b))) σ)
      | Ok _ => Some (set_main MSelect b σ)
      end
  | MSelect =>
      if has_BErrChan (events b)
      then Some (set_main MReturned (record BCloseWs (record BCloseHandle b)) σ)
      else None
  | MReturned => None
  end.

Definition session_step (a : Action) (σ : Session) : option Session :=
  match a with
  | ActMain answer => main_step answer σ
  | ActDone =>
      match main_pc σ with
      | MSelect =>
          Some (set_main MReturned
                  (record BCloseWs (record BCloseHandle (bridge σ))) σ)
      | _ => None
      end
  | ActOutbound r =>
      match out_pc σ with
      | Running =>
          let '(n, b) := outbound_iter P r (bridge σ) in
          Some {| bridge := b; exec_id := exec_id σ; main_pc := main_pc σ;
                  out_pc := match n with Continue => Running | Return _ => Finished end;
                  in_pc := in_pc σ |}
      | _ => None
      end
  | ActInbound r =>
      match in_pc σ with
      | Running =>
          let '(n, b) := inbound_iter W P contextName (exec_id σ) r (bridge σ) in
          Some {| bridge := b; exec_id := exec_id σ; main_pc := main_pc σ;
                  out_pc := out_pc σ;
                  in_pc := match n with Continue => Running | Return _ => Finished end |}
      | _ => None
      end
  end.

(** An execution: the actions taken, each enabled when it is taken. *)
Fixpoint run_session (acts : list Action) (σ : Session) : option Session :=
  match acts with
  | [] => Some σ
  | a :: rest =>
      match session_step a σ with
      | Some σ' => run_session rest σ'
      | None => None
      end
  end.

End SessionModel.

(** Bytes moved between the two peers. *)
Definition is_relay (e : BEvent) : bool :=
  match e with
  | BWsWrite BinaryMessage _ => true
  | BHandleWrite _ => true
  | _ => false
  end.

Definition is_start_ok (e : BEvent) : bool :=
  match e with
  | BStartExec (Ok _) => true
  | _ => false
  end.

(** In [l], every event satisfying [q] has an event satisfying [p]
    somewhere before it. *)
Definition preceded_by (p q : BEvent → bool) (l : list BEvent) : Prop :=
  ∀ i e, l !! i = Some e → q e = true →
    ∃ j e', j < i ∧ l !! j = Some e' ∧ p e' = true.

(** ** Vocabulary of the properties *)

(** Client identities handed out so far are below the next one. *)
Definition ids_fresh (s : Service) : Prop :=
  ∀ n c, clients s !! n = Some c → cid c < next_cid s.

Definition prod_to_6 : ContextConfig :=
  {| Name := "prod"; Type_ := "tcp"; Host := "tcp://10.0.0.6:2375"; Current := true |}.

(** A well-formed address at which no daemon answers. *)
Definition prod_to_unreachable : ContextConfig :=
  {| Name := "prod"; Type_ := "tcp"; Host := "tcp://192.0.2.1:2375"; Current := true |}.

(** The entry [ListContexts] builds for the context [name] stored as the
    object [d], when [cur] is the current context. *)
Definition context_entry (cur name : string) (d : gmap string Json) : ContextConfig :=
  {| Name := name;
     Type_ := str_or_empty (d !! "type");
     Host := str_or_empty (d !! "host");
     Current := bool_decide (name = cur) |}.

(** What one stored pair contributes to the two results of the loop. *)
Definition other_entry (cur : string) (kv : string * Json) : option ContextConfig :=
  match kv.2 with
  | JObj d => if decide (kv.1 = cur) then None else Some (context_entry cur kv.1 d)
  | _ => None
  end.

Definition current_entry (cur : string) (kv : string * Json) : option ContextConfig :=
  match kv.2 with
  | JObj d => if decide (kv.1 = cur) then Some (context_entry cur kv.1 d) else None
  | _ => None
  end.

Definition name_lt (a b : ContextConfig) : Prop := name_less a b = true.

Definition ok_read (chunk : bytes) : ReadResult :=
  {| rr_data := chunk; rr_err := None |}.

Definition err_read (e : IOError) : ReadResult :=
  {| rr_data := []; rr_err := Some e |}.

Definition nonempty (chunk : bytes) : Prop := 0 < length chunk.



Definition happened (p : BEvent → bool) (l : list BEvent) : Prop :=
  existsb p l = true.

Definition is_create_ok (e : BEvent) : bool :=
  match e with BCreateExec (Ok _) => true | _ => false end.
Definition is_attach_ok (e : BEvent) : bool :=
  match e with BAttachExec (Ok _) => true | _ => false end.
Definition is_go_out (e : BEvent) : bool :=
  match e with BGoOutbound => true | _ => false end.
Definition is_go_in (e : BEvent) : bool :=
  match e with BGoInbound => true | _ => false end.
Definition is_go (e : BEvent) : bool := is_go_out e || is_go_in e.
Definition is_start (e : BEvent) : bool :=
  match e with BStartExec _ => true | _ => false end.
Definition is_binary_out (e : BEvent) : bool :=
  match e with BWsWrite BinaryMessage _ => true | _ => false end.
Definition is_handle_write (e : BEvent) : bool :=
  match e with BHandleWrite _ => true | _ => false end.

Section SessionInvariant.

Variable contextName : string.

Definition cached (σ : Session) : Prop :=
  is_Some (clients (svc (bridge σ)) !! contextName).

(** What holds in every state a session can reach. *)
Record session_inv (σ : Session) : Prop := {
  inv_out : out_pc σ ≠ NotStarted → happened is_go_out (events (bridge σ));
  inv_in : in_pc σ ≠ NotStarted → happened is_go_in (events (bridge σ));
  inv_attached : main_pc σ = MGoOutbound ∨ main_pc σ = MGoInbound →
                 happened is_attach_ok (events (bridge σ));
  inv_go_out : main_pc σ = MGoInbound ∨ main_pc σ = MStartExec →
               happened is_go_out (events (bridge σ));
  inv_go_in : main_pc σ = MStartExec → happened is_go_in (events (bridge σ));
  inv_cached : cached σ ∨
               ((main_pc σ = MUpgrade ∨ main_pc σ = MCreateExec ∨ main_pc σ = MReturned)
                ∧ out_pc σ = NotStarted ∧ in_pc σ = NotStarted);
  inv_go_after_attach : preceded_by is_attach_ok is_go (events (bridge σ));
  inv_out_after_go : preceded_by is_go_out is_binary_out (events (bridge σ));
  inv_in_after_go : preceded_by is_go_in is_handle_write (events (bridge σ));
  inv_start_after_go_out : preceded_by is_go_out is_start (events (bridge σ));
  inv_start_after_go_in : preceded_by is_go_in is_start (events (bridge σ));
  inv_created : main_pc σ = MAttachExec ∨ main_pc σ = MGoOutbound
                ∨ main_pc σ = MGoInbound →
                happened is_create_ok (events (bridge σ));
  inv_go_after_create : preceded_by is_create_ok is_go (events (bridge σ))
}.

End SessionInvariant.

(** ** Data of the examples: a session with a small JSON decoder *)

Definition dq : string := String (Ascii.ascii_of_nat 34) EmptyString.

(** The text [{"type":"input","data":"ls"}]. *)
Definition input_ls_text : string :=
  "{" +:+ dq +:+ "type" +:+ dq +:+ ":" +:+ dq +:+ "input" +:+ dq +:+ ","
      +:+ dq +:+ "data" +:+ dq +:+ ":" +:+ dq +:+ "ls" +:+ dq +:+ "}".

(** The text [{"type":"resize","rows":24,"cols":80}]. *)
Definition resize_text : string :=
  "{" +:+ dq +:+ "type" +:+ dq +:+ ":" +:+ dq +:+ "resize" +:+ dq +:+ ","
      +:+ dq +:+ "rows" +:+ dq +:+ ":24," +:+ dq +:+ "cols" +:+ dq +:+ ":80}".

(** A decoder that knows these two texts and rejects everything else. *)
Definition demo_Unmarshal (p : bytes) : option ControlMsg :=
  let text := String.string_of_list_byte p in
  if decide (text = input_ls_text)
  then Some {| msg_Type := "input"; msg_Data := "ls"; msg_Cols := 0; msg_Rows := 0 |}
  else if decide (text = resize_text)
  then Some {| msg_Type := "resize"; msg_Data := ""; msg_Cols := 80; msg_Rows := 24 |}
  else None.

Definition demo_peers : Peers :=
  {| ws_write_err := λ _, None; handle_write_err := λ _, None;
     json_Unmarshal := demo_Unmarshal |}.

(** A daemon that refuses every resize. *)
Definition W_no_resize : World :=
  {| write_ok := true; host_ok := λ _, true;
     default_host := "unix:///var/run/docker.sock"; resize_ok := λ _ _, false |}.

(** Upgrade, create, attach and the two [go] statements. *)
Definition launched : list Action :=
  [ActMain (Ok ""); ActMain (Ok "exec1"); ActMain (Ok ""); ActMain (Ok "");
   ActMain (Ok "")].

Definition launched_session : Session :=
  default (start_session (NewDockerService (FileDoc prod_doc)))
    (run_session W_ok demo_peers "prod" "c1" launched
       (start_session (NewDockerService (FileDoc prod_doc)))).

(** ** More of the context store: reading one descriptor *)

Section ServiceQueries.

Variable W : World.

Definition GetContextConfig (name : string) : M string :=
  config ← readConfig W;
  match as_obj (config !! "contexts") with
  | None => fail ErrNoContexts
  | Some contexts =>
      match as_obj (contexts !! name) with
      | None => fail (ErrNotFound name)
      | Some contextConfig =>
          match as_str (contextConfig !! "host") with
          | None => fail (ErrInvalidHost name)
          | Some host => mret host
          end
      end
  end.

End ServiceQueries.

(** The document [readConfig] works on: the stored one, or the default
    one when there is no file yet. *)
Definition stored_config (s : Service) : option Config :=
  match file s with
  | FileMissing => Some defaultConfig
  | FileBad | FileNull => None
  | FileDoc cfg => Some cfg
  end.

Definition dev_to_7 : ContextConfig :=
  {| Name := "dev"; Type_ := "tcp"; Host := "tcp://10.0.0.7:2375"; Current := false |}.


Definition blank_host : ContextConfig :=
  {| Name := "blank"; Type_ := "tcp"; Host := ""; Current := false |}.


(** ** More vocabulary for sessions *)

Definition is_errchan (e : BEvent) : bool :=
  match e with BErrChan _ => true | _ => false end.
Definition is_close_ws (e : BEvent) : bool :=
  match e with BCloseWs => true | _ => false end.
Definition is_close_handle (e : BEvent) : bool :=
  match e with BCloseHandle => true | _ => false end.

(** How many events of a kind have happened. *)
Definition count (p : BEvent → bool) (l : list BEvent) : nat :=
  length (filter (λ e, p e = true) l).
Arguments count : simpl never.

(** 1 for a goroutine that has sent on [errChan] and returned. *)
Definition finished (pc : GoPc) : nat :=
  match pc with
  | Finished => 1
  | _ => 0
  end.

Definition returned (pc : MainPc) : bool :=
  match pc with
  | MReturned => true
  | _ => false
  end.

Definition is_upgrade_ok (e : BEvent) : bool :=
  match e with BUpgrade true => true | _ => false end.

(** Where the handler is, against what has happened so far. *)
Definition main_progress (σ : Session) : Prop :=
  let upgraded := existsb is_upgrade_ok (events (bridge σ)) in
  let attached := existsb is_attach_ok (events (bridge σ)) in
  match main_pc σ with
  | MUpgrade =>
      upgraded = false ∧ attached = false ∧
      out_pc σ = NotStarted ∧ in_pc σ = NotStarted
  | MCreateExec | MAttachExec =>
      upgraded = true ∧ attached = false ∧
      out_pc σ = NotStarted ∧ in_pc σ = NotStarted
  | MGoOutbound =>
      upgraded = true ∧ attached = true ∧
      out_pc σ = NotStarted ∧ in_pc σ = NotStarted
  | MGoInbound => upgraded = true ∧ attached = true ∧ in_pc σ = NotStarted
  | MStartExec | MSelect => upgraded = true ∧ attached = true
  | MReturned => attached = true → upgraded = true
  end.

(** Counting invariant of a session: sends on [errChan] and closes. *)
Record session_counts (σ : Session) : Prop := {
  cnt_errchan : count is_errchan (events (bridge σ))
                = finished (out_pc σ) + finished (in_pc σ);
  cnt_close_ws : count is_close_ws (events (bridge σ))
                 = if returned (main_pc σ)
                      && existsb is_upgrade_ok (events (bridge σ))
                   then 1 else 0;
  cnt_close_handle : count is_close_handle (events (bridge σ))
                     = if returned (main_pc σ)
                          && existsb is_attach_ok (events (bridge σ))
                       then 1 else 0;
  cnt_progress : main_progress σ
}.

(** The data an inbound frame asks to write to the process, if any. *)
Definition input_of (P : Peers) (r : WsRead) : option bytes :=
  match r with
  | WsReadMsg TextMessage p =>
      match json_Unmarshal P p with
      | Some msg =>
          if decide (msg_Type msg = "input")
          then Some (String.list_byte_of_string (msg_Data msg))
          else None
      | None => None
      end
  | _ => None
  end.

Definition is_message (r : WsRead) : Prop :=
  match r with
  | WsReadMsg _ _ => True
  | WsReadErr _ => False
  end.

(** ** Strings, as the [strings] package and slice expressions treat them *)

(** [strings.CutPrefix(s, prefix)], without the flag: what follows the
    prefix, if [s] starts with it. *)
Fixpoint CutPrefix (s prefix : string) : option string :=
  match prefix, s with
  | EmptyString, _ => Some s
  | String a prefix', String b s' =>
      if decide (a = b) then CutPrefix s' prefix' else None
  | String _ _, EmptyString => None
  end.

Definition HasPrefix (s prefix : string) : bool :=
  match CutPrefix s prefix with
  | Some _ => true
  | None => false
  end.

Definition TrimPrefix (s prefix : string) : string :=
  match CutPrefix s prefix with
  | Some rest => rest
  | None => s
  end.

(** [strings.Split(s, sep)] for a separator of one byte: the pieces
    between the separators, [len = 1 + number of separators]. *)
Fixpoint Split (s : string) (sep : Ascii.ascii) : list string :=
  match s with
  | EmptyString => [EmptyString]
  | String c s' =>
      if decide (c = sep) then EmptyString :: Split s' sep
      else match Split s' sep with
           | p :: ps => String c p :: ps
           | [] => [String c EmptyString]
           end
  end.

Definition colon : Ascii.ascii := Ascii.ascii_of_nat 58.

(** The slice expression [s[lo:hi]]; [None] is the run-time panic for
    bounds out of range. *)
Definition slice (s : string) (lo hi : nat) : option string :=
  if decide (lo ≤ hi ∧ hi ≤ String.length s)
  then Some (String.substring lo (hi - lo) s)
  else None.

(** How often a byte occurs. *)
Fixpoint occurrences (c : Ascii.ascii) (s : string) : nat :=
  match s with
  | EmptyString => 0
  | String a s' => (if decide (a = c) then 1 else 0) + occurrences c s'
  end.

(** ** Listing containers and images *)

(** A call returns a result or an error, or panics. *)
Inductive Outcome (A : Type) :=
  | Returns (r : Result A)
  | Panics.
Arguments Returns {A} r.
Arguments Panics {A}.

(** [types.Port] of the Docker API and the service's own [Port]. *)
Module types_Port.
Record t := { IP : string; PrivatePort : N; PublicPort : N; Type_ : string }.
End types_Port.

Module Port.
Record t := { IP : string; PrivatePort : N; PublicPort : N; Type_ : string }.
End Port.

(** [types.Container], the fields the service reads. *)
Module types_Container.
Record t := {
  ID : string;
  Names : list string;
  Image : string;
  Status : string;
  State : string;
  Created : Z;
  Ports : list types_Port.t
}.
End types_Container.

Module ContainerInfo.
Record t := {
  ID : string;
  Name : string;
  Image : string;
  Status : string;
  State : string;
  Created : Z;
  Ports : list Port.t
}.
End ContainerInfo.

(** [types.ImageSummary], the fields the service reads. *)
Module ImageSummary.
Record t := { ID : string; RepoTags : list string; Size : Z; Created : Z }.
End ImageSummary.

Module ImageInfo.
Record t := {
  ID : string;
  Repository : string;
  Tag : string;
  Size : Z;
  Created : Z
}.
End ImageInfo.

Definition none_text : string := "<none>".

(** The body of the loop of [ListContainers]; [None] when an index or a
    slice expression panics. *)
Definition container_port (p : types_Port.t) : Port.t :=
  {| Port.IP := types_Port.IP p;
     Port.PrivatePort := types_Port.PrivatePort p;
     Port.PublicPort := types_Port.PublicPort p;
     Port.Type_ := types_Port.Type_ p |}.

Definition container_info (container : types_Container.t) : option ContainerInfo.t :=
  name0 ← head (types_Container.Names container);
  let name := TrimPrefix name0 "/" in
  let ports := map container_port (types_Container.Ports container) in
  id ← slice (types_Container.ID container) 0 12;
  Some {| ContainerInfo.ID := id;
          ContainerInfo.Name := name;
          ContainerInfo.Image := types_Container.Image container;
          ContainerInfo.Status := types_Container.Status container;
          ContainerInfo.State := types_Container.State container;
          ContainerInfo.Created := types_Container.Created container;
          ContainerInfo.Ports := ports |}.

(** The body of the loop of [ListImages]. *)
Definition repository_tag (image : ImageSummary.t) : string * string :=
  match ImageSummary.RepoTags image with
  | tag0 :: _ =>
      match Split tag0 colon with
      | [repository; tag] => (repository, tag)
      | _ => (none_text, none_text)
      end
  | [] => (none_text, none_text)
  end.

Definition image_info (image : ImageSummary.t) : option ImageInfo.t :=
  let '(repository, tag) := repository_tag image in
  id ← slice (ImageSummary.ID image) 7 19;
  Some {| ImageInfo.ID := id;
          ImageInfo.Repository := repository;
          ImageInfo.Tag := tag;
          ImageInfo.Size := ImageSummary.Size image;
          ImageInfo.Created := ImageSummary.Created image |}.

Section Listings.

Variable W : World.

(** A loop that appends one converted element per element of the daemon's
    answer; a panic in the body ends the call. *)
Definition listing {A B} (contextName : string) (body : A → option B)
    (answer : Result (list A)) (s : Service) : Outcome (list B) * Service :=
  match getClient W contextName s with
  | (Err e, s') => (Returns (Err e), s')
  | (Ok cli, s') =>
      match answer with
      | Err e => (Returns (Err e), s')
      | Ok xs =>
          match mapM body xs with
          | Some infos => (Returns (Ok infos), s')
          | None => (Panics, s')
          end
      end
  end.

(** [answer] is what [cli.ContainerList] returns. *)
Definition ListContainers (contextName : string)
    (answer : Result (list types_Container.t)) :=
  listing contextName container_info answer.

(** [answer] is what [cli.ImageList] returns. *)
Definition ListImages (contextName : string)
    (answer : Result (list ImageSummary.t)) :=
  listing contextName image_info answer.

End Listings.

(** Data of the examples. *)
Definition sha_id : string :=
  "sha256:0123456789abcdef0123456789abcdef0123456789abcdef0123456789abcdef".

Definition nginx_image : ImageSummary.t :=
  {| ImageSummary.ID := sha_id; ImageSummary.RepoTags := ["nginx:1.25"];
     ImageSummary.Size := 1000; ImageSummary.Created := 1700000000 |}.

Definition registry_image : ImageSummary.t :=
  {| ImageSummary.ID := sha_id;
     ImageSummary.RepoTags := ["registry.local:5000/app:1.0"];
     ImageSummary.Size := 2000; ImageSummary.Created := 1700000001 |}.

Definition short_image : ImageSummary.t :=
  {| ImageSummary.ID := "sha256:0123"; ImageSummary.RepoTags := ["busybox:latest"];
     ImageSummary.Size := 10; ImageSummary.Created := 1700000002 |}.

Definition web_container : types_Container.t :=
  {| types_Container.ID := "0123456789abcdef0123456789abcdef";
     types_Container.Names := ["/web"];
     types_Container.Image := "nginx:1.25";
     types_Container.Status := "Up 2 hours";
     types_Container.State := "running";
     types_Container.Created := 1700000000;
     types_Container.Ports :=
       [{| types_Port.IP := "0.0.0.0"; types_Port.PrivatePort := 80;
           types_Port.PublicPort := 8080; types_Port.Type_ := "tcp" |}] |}.

Definition nameless_container : types_Container.t :=
  {| types_Container.ID := "0123456789abcdef0123456789abcdef";
     types_Container.Names := [];
     types_Container.Image := "nginx:1.25";
     types_Container.Status := "Created";
     types_Container.State := "created";
     types_Container.Created := 1700000000;
     types_Container.Ports := [] |}.

(** ** Creating a container *)

Module PortMapping.
Record t := { Host : N; Container : N }.
End PortMapping.

Module EnvVar.
Record t := { Key : string; Value : string }.
End EnvVar.

Module VolumeMapping.
Record t := { Host : string; Container : string; Mode : string }.
End VolumeMapping.

Module ContainerConfig.
Record t := {
  ImageID : string;
  Name : string;
  Command : string;
  Args : list string;
  Ports : list PortMapping.t;
  Env : list EnvVar.t;
  Volumes : list VolumeMapping.t;
  RestartPolicy : string;
  NetworkMode : string
}.
End ContainerConfig.

(** [nat.PortBinding], [container.Config] and [container.HostConfig] of
    the Docker API, the fields the service sets; [nat.PortSet] is a set of
    ports and [nat.PortMap] a map from ports to bindings. *)
Module nat_PortBinding.
Record t := { HostIP : string; HostPort : string }.
End nat_PortBinding.

Module container_Config.
Record t := {
  Image : string;
  Cmd : list string;
  ExposedPorts : gset string;
  Env : list string
}.
End container_Config.

Module container_HostConfig.
Record t := {
  RestartPolicy : string;
  PortBindings : gmap string (list nat_PortBinding.t);
  Binds : list string;
  NetworkMode : string
}.
End container_HostConfig.

(** The calls [CreateContainer] makes to the daemon. *)
Inductive DaemonCall :=
  | CallContainerCreate (cli : Client) (config : container_Config.t)
      (hostConfig : container_HostConfig.t) (containerName : string)
  | CallContainerStart (cli : Client) (containerID : string).

(** The errors [CreateContainer] returns: the registry's own, or the
    daemon's behind one of the two prefixes. *)
Inductive CreateContainerError :=
  | NoClient (e : Error)
  | FailedToCreate (e : Error)    (* "failed to create container: %v" *)
  | FailedToStart (e : Error).    (* "failed to start container: %v" *)

(** [nat.Port(fmt.Sprintf("%d/tcp", p.Container))] *)
Definition containerPort (p : PortMapping.t) : string :=
  pretty (PortMapping.Container p) +:+ "/tcp".

Definition hostBinding (p : PortMapping.t) : nat_PortBinding.t :=
  {| nat_PortBinding.HostIP := "0.0.0.0";
     nat_PortBinding.HostPort := pretty (PortMapping.Host p) |}.

(** The loop over [config.Ports]: one assignment into each map per entry. *)
Definition portBindings (ports : list PortMapping.t)
    : gmap string (list nat_PortBinding.t) :=
  foldl (λ m p, <[containerPort p := [hostBinding p]]> m) ∅ ports.

Definition exposedPorts (ports : list PortMapping.t) : gset string :=
  foldl (λ st p, {[containerPort p]} ∪ st) ∅ ports.

Definition restartPolicy (name : string) : string :=
  if decide (name = "always") then "always"
  else if decide (name = "unless-stopped") then "unless-stopped"
  else if decide (name = "on-failure") then "on-failure"
  else "no".

Definition containerConfig (config : ContainerConfig.t) : container_Config.t :=
  let env := map (λ e, EnvVar.Key e +:+ "=" +:+ EnvVar.Value e)
                 (ContainerConfig.Env config) in
  let cmd :=
    if decide (ContainerConfig.Command config ≠ "")
    then [ContainerConfig.Command config] ++ ContainerConfig.Args config
    else [] in
  {| container_Config.Image := ContainerConfig.ImageID config;
     container_Config.Cmd := cmd;
     container_Config.ExposedPorts := exposedPorts (ContainerConfig.Ports config);
     container_Config.Env := env |}.

Definition hostConfig (config : ContainerConfig.t) : container_HostConfig.t :=
  let binds :=
    map (λ v, VolumeMapping.Host v +:+ ":" +:+ VolumeMapping.Container v
              +:+ ":" +:+ VolumeMapping.Mode v)
        (ContainerConfig.Volumes config) in
  {| container_HostConfig.RestartPolicy :=
       restartPolicy (ContainerConfig.RestartPolicy config);
     container_HostConfig.PortBindings := portBindings (ContainerConfig.Ports config);
     container_HostConfig.Binds := binds;
     container_HostConfig.NetworkMode := ContainerConfig.NetworkMode config |}.

Section CreateContainerModel.

Variable W : World.

(** [create_answer] is what [cli.ContainerCreate] returns (the new
    container's ID) and [start_answer] what [cli.ContainerStart] returns.
    The result is the error returned, if any, and the daemon calls made. *)
Definition CreateContainer (contextName : string) (config : ContainerConfig.t)
    (create_answer : Result string) (start_answer : Result unit) (s : Service)
    : (option CreateContainerError * list DaemonCall) * Service :=
  match getClient W contextName s with
  | (Err e, s') => ((Some (NoClient e), []), s')
  | (Ok cli, s') =>
      let create :=
        CallContainerCreate cli (containerConfig config) (hostConfig config)
          (ContainerConfig.Name config) in
      match create_answer with
      | Err e => ((Some (FailedToCreate e), [create]), s')
      | Ok respID =>
          let start := CallContainerStart cli respID in
          match start_answer with
          | Err e => ((Some (FailedToStart e), [create; start]), s')
          | Ok _ => ((None, [create; start]), s')
          end
      end
  end.

End CreateContainerModel.

(** Data of the examples: port 80 is mapped twice. *)
Definition twice_80 : list PortMapping.t :=
  [ {| PortMapping.Host := 8080; PortMapping.Container := 80 |};
    {| PortMapping.Host := 8443; PortMapping.Container := 443 |};
    {| PortMapping.Host := 9090; PortMapping.Container := 80 |} ].

Definition web_config : ContainerConfig.t :=
  {| ContainerConfig.ImageID := "nginx:1.25";
     ContainerConfig.Name := "web";
     ContainerConfig.Command := "";
     ContainerConfig.Args := ["-g"; "daemon off;"];
     ContainerConfig.Ports := twice_80;
     ContainerConfig.Env := [];
     ContainerConfig.Volumes := [];
     ContainerConfig.RestartPolicy := "";
     ContainerConfig.NetworkMode := "" |}.

(** ** The single-client service in full

    The service of [backend/internal/service/docker.go] keeps one client,
    stores contexts in the Docker CLI file [~/.docker/config.json] and
    selects the daemon through the environment variables DOCKER_HOST and
    DOCKER_CONTEXT. *)

Module SingleClientService.

(** [~/.docker/config.json], as [os.ReadFile] and [json.Unmarshal] into a
    [map[string]interface{}] see it. *)
Inductive ConfigFile :=
  | NoFile                    (* os.ReadFile fails *)
  | NotJson                   (* json.Unmarshal fails *)
  | NullDoc                   (* the text null: no error, the map stays nil *)
  | Doc (config : Config).

Inductive Failure :=
  | ReadFileError
  | UnmarshalError
  | WriteFileError
  | InvalidHostFormat
  | SocketNotFound (socketPath : string)
  | ContextNotFound (name : string)
  | InvalidContextConfigurationFor (name : string)
  | NewClientError            (* the error of NewClientWithOpts, unwrapped *)
  | FailedToCreateClient
  | FailedToConnect
  | InvalidContextsConfiguration
  | InvalidContextConfiguration
  | InvalidDockerConfiguration
  | HostNotFound
  | CannotDeleteDefault.

Inductive Res (A : Type) :=
  | Done (a : A)
  | Failed (e : Failure)
  | Panicked.
Arguments Done {A} a.
Arguments Failed {A} e.
Arguments Panicked {A}.

Record ContextConfig := { Name : string; Host : string; SSHKeyFile : string }.

(** The service and the process state it works on; an unset environment
    variable reads as the empty string. *)
Record State := {
  config_json : ConfigFile;
  client : Client;
  DOCKER_HOST : string;
  DOCKER_CONTEXT : string;
  next_cid : nat
}.

Definition set_config_json (f : ConfigFile) (s : State) : State :=
  {| config_json := f; client := client s; DOCKER_HOST := DOCKER_HOST s;
     DOCKER_CONTEXT := DOCKER_CONTEXT s; next_cid := next_cid s |}.

Definition set_client (cli : Client) (s : State) : State :=
  {| config_json := config_json s; client := cli; DOCKER_HOST := DOCKER_HOST s;
     DOCKER_CONTEXT := DOCKER_CONTEXT s; next_cid := next_cid s |}.

Definition set_DOCKER_HOST (host : string) (s : State) : State :=
  {| config_json := config_json s; client := client s; DOCKER_HOST := host;
     DOCKER_CONTEXT := DOCKER_CONTEXT s; next_cid := next_cid s |}.

Definition set_DOCKER_CONTEXT (name : string) (s : State) : State :=
  {| config_json := config_json s; client := client s; DOCKER_HOST := DOCKER_HOST s;
     DOCKER_CONTEXT := name; next_cid := next_cid s |}.

Definition set_next_cid (n : nat) (s : State) : State :=
  {| config_json := config_json s; client := client s; DOCKER_HOST := DOCKER_HOST s;
     DOCKER_CONTEXT := DOCKER_CONTEXT s; next_cid := n |}.

Definition default_socket : string := "unix:///var/run/docker.sock".

(** [contextConfig["Endpoints"]["docker"]["Host"]], through the three type
    assertions. *)
Definition endpoint_host (contextConfig : gmap string Json) : option string :=
  endpoint ← as_obj (contextConfig !! "Endpoints");
  docker ← as_obj (endpoint !! "docker");
  as_str (docker !! "Host").

(** The entry [CreateContext] stores. *)
Definition endpoint_entry (host : string) : Json :=
  JObj {[ "Endpoints" := JObj {[ "docker" := JObj {[ "Host" := JStr host ]} ]} ]}.

Section Model.

(** [W] answers for [os.WriteFile] and [client.NewClientWithOpts];
    [Stat_ok path] tells whether [os.Stat(path)] succeeds and [Ping_ok cli]
    whether the daemon of [cli] answers [Ping]. *)
Variable W : World.
Variable Stat_ok : string → bool.
Variable Ping_ok : Client → bool.

(** [os.ReadFile] then [json.Unmarshal], for the callers that return
    either error; a nil map reads as an empty one. *)
Definition read_config (s : State) : Res Config :=
  match config_json s with
  | NoFile => Failed ReadFileError
  | NotJson => Failed UnmarshalError
  | NullDoc => Done ∅
  | Doc config => Done config
  end.

(** [json.MarshalIndent] then [os.WriteFile]. *)
Definition write_config (config : Config) (s : State) : Res unit * State :=
  if write_ok W then (Done tt, set_config_json (Doc config) s)
  else (Failed WriteFileError, s).

(** [client.NewClientWithOpts(client.FromEnv, ...)] *)
Definition NewClientFromEnv (s : State) : option Client * State :=
  let host := if decide (DOCKER_HOST s = "") then default_host W else DOCKER_HOST s in
  if host_ok W host
  then (Some {| cid := next_cid s; chost := host |}, set_next_cid (S (next_cid s)) s)
  else (None, s).

(** The host check that [SwitchContext], [CreateContext] and
    [UpdateContextConfig] each spell out: the prefix, then the socket
    file. *)
Definition check_host (host : string) : option Failure :=
  if negb (HasPrefix host "tcp://") && negb (HasPrefix host "unix://")
  then Some InvalidHostFormat
  else if HasPrefix host "unix://"
       then let socketPath := TrimPrefix host "unix://" in
            if Stat_ok socketPath then None else Some (SocketNotFound socketPath)
       else None.

Definition NewDockerService (f : ConfigFile) (host context : string) : option State :=
  let s := {| config_json := f; client := {| cid := 0; chost := "" |};
              DOCKER_HOST := host; DOCKER_CONTEXT := context; next_cid := 0 |} in
  match NewClientFromEnv s with
  | (Some cli, s') => Some (set_client cli s')
  | (None, _) => None
  end.

(** [for name := range contextsMap]: [range_keys contextsMap] is the
    order in which the run-time system hands out the keys of the map. *)
Definition ListContexts (range_keys : gmap string Json → list string) (s : State)
    : list string :=
  let contexts := ["default"] in
  match read_config s with
  | Done config =>
      match as_obj (config !! "contexts") with
      | Some contextsMap =>
          foldl (λ contexts name,
                   if decide (name ≠ "default") then contexts ++ [name]
                   else contexts)
                contexts (range_keys contextsMap)
      | None => contexts
      end
  | _ => contexts
  end.

Definition GetCurrentContext (s : State) : string :=
  if decide (DOCKER_CONTEXT s ≠ "") then DOCKER_CONTEXT s
  else match read_config s with
       | Done config =>
           match as_str (config !! "current-context") with
           | Some currentContext => currentContext
           | None => "default"
           end
       | _ => "default"
       end.

(** The end of [SwitchContext]: a new client from the environment, then a
    ping; [s.client] is replaced only when both succeed. *)
Definition reconnect (s : State) : Res unit * State :=
  match NewClientFromEnv s with
  | (None, s1) => (Failed FailedToCreateClient, s1)
  | (Some cli, s1) =>
      if Ping_ok cli then (Done tt, set_client cli s1)
      else (Failed FailedToConnect, s1)
  end.

Definition SwitchContext (name : string) (s : State) : Res unit * State :=
  if decide (name = "default")
  then reconnect (set_DOCKER_CONTEXT "" (set_DOCKER_HOST "" s))
  else
    match read_config s with
    | Failed e => (Failed e, s)
    | Panicked => (Panicked, s)
    | Done config =>
        match as_obj (config !! "contexts") with
        | None => (Failed (ContextNotFound name), s)
        | Some contextsMap =>
            match as_obj (contextsMap !! name) with
            | None => (Failed (InvalidContextConfigurationFor name), s)
            | Some contextConfig =>
                match endpoint_host contextConfig with
                | Some host =>
                    match check_host host with
                    | Some e => (Failed e, s)
                    | None =>
                        reconnect (set_DOCKER_CONTEXT name (set_DOCKER_HOST host s))
                    end
                | None => reconnect s
                end
            end
        end
    end.

Definition CreateContext (config : ContextConfig) (s : State) : Res unit * State :=
  match check_host (Host config) with
  | Some e => (Failed e, s)
  | None =>
      (* [None]: the nil map *)
      let decoded : Res (option Config) :=
        match config_json s with
        | NoFile => Done (Some ∅)
        | NotJson => Failed UnmarshalError
        | NullDoc => Done None
        | Doc dockerConfig => Done (Some dockerConfig)
        end in
      match decoded with
      | Failed e => (Failed e, s)
      | Panicked => (Panicked, s)
      | Done None => (Panicked, s)          (* assignment to an entry of a nil map *)
      | Done (Some dockerConfig) =>
          let dockerConfig :=
            match dockerConfig !! "contexts" with
            | None => <["contexts" := JObj ∅]> dockerConfig
            | Some _ => dockerConfig
            end in
          match as_obj (dockerConfig !! "contexts") with
          | None => (Panicked, s)           (* type assertion without [ok] *)
          | Some contexts =>
              let contexts := <[Name config := endpoint_entry (Host config)]> contexts in
              write_config (<["contexts" := JObj contexts]> dockerConfig) s
          end
      end
  end.

Definition GetDefaultContextConfig (s : State) : string :=
  if decide (DOCKER_HOST s = "") then default_socket else DOCKER_HOST s.

Definition UpdateDefaultContext (host : string) (s : State) : Res unit * State :=
  if negb (HasPrefix host "unix://") && negb (HasPrefix host "tcp://")
  then (Failed InvalidHostFormat, s)
  else
    match NewClientFromEnv (set_DOCKER_HOST host s) with
    | (None, s1) => (Failed NewClientError, s1)
    | (Some cli, s1) => (Done tt, set_client cli s1)
    end.

Definition DeleteContext (name : string) (s : State) : Res unit * State :=
  if decide (name = "default") then (Failed CannotDeleteDefault, s)
  else
    match read_config s with
    | Failed e => (Failed e, s)
    | Panicked => (Panicked, s)
    | Done config =>
        match as_obj (config !! "contexts") with
        | None => (Failed InvalidContextsConfiguration, s)
        | Some contexts =>
            match contexts !! name with
            | None => (Failed (ContextNotFound name), s)
            | Some _ =>
                let config := <["contexts" := JObj (delete name contexts)]> config in
                if decide (as_str (config !! "current-context") = Some name)
                then write_config (<["current-context" := JStr "default"]> config)
                       (set_DOCKER_HOST "" (set_DOCKER_CONTEXT "default" s))
                else write_config config s
            end
        end
    end.

Definition GetContextConfig (name : string) (s : State) : Res string :=
  if decide (name = "default") then Done (GetDefaultContextConfig s)
  else
    match read_config s with
    | Failed e => Failed e
    | Panicked => Panicked
    | Done config =>
        match as_obj (config !! "contexts") with
        | None => Failed InvalidContextsConfiguration
        | Some contexts =>
            match as_obj (contexts !! name) with
            | None => Failed (ContextNotFound name)
            | Some contextConfig =>
                match as_obj (contextConfig !! "Endpoints") with
                | None => Failed InvalidContextConfiguration
                | Some endpoints =>
                    match as_obj (endpoints !! "docker") with
                    | None => Failed InvalidDockerConfiguration
                    | Some docker =>
                        match as_str (docker !! "Host") with
                        | None => Failed HostNotFound
                        | Some host => Done host
                        end
                    end
                end
            end
        end
    end.

Definition UpdateContextConfig (name host : string) (s : State) : Res unit * State :=
  match check_host host with
  | Some e => (Failed e, s)
  | None =>
      if decide (name = "default") then UpdateDefaultContext host s
      else
        match read_config s with
        | Failed e => (Failed e, s)
        | Panicked => (Panicked, s)
        | Done config =>
            match as_obj (config !! "contexts") with
            | None => (Failed InvalidContextsConfiguration, s)
            | Some contexts =>
                match as_obj (contexts !! name) with
                | None => (Failed (ContextNotFound name), s)
                | Some contextConfig =>
                    let endpoints :=
                      default ∅ (as_obj (contextConfig !! "Endpoints")) in
                    let docker := default ∅ (as_obj (endpoints !! "docker")) in
                    let docker := <["Host" := JStr host]> docker in
                    let endpoints := <["docker" := JObj docker]> endpoints in
                    let contextConfig :=
                      <["Endpoints" := JObj endpoints]> contextConfig in
                    let contexts := <[name := JObj contextConfig]> contexts in
                    let config' := <["contexts" := JObj contexts]> config in
                    if decide (as_str (config !! "current-context") = Some name)
                    then
                      match NewClientFromEnv (set_DOCKER_HOST host s) with
                      | (None, s1) => (Failed NewClientError, s1)
                      | (Some cli, s1) => write_config config' (set_client cli s1)
                      end
                    else write_config config' s
                end
            end
        end
  end.

End Model.

End SingleClientService.

(** Data of the examples: a CLI file with two contexts, "prod" current. *)
Definition cli_doc : Config :=
  <["current-context" := JStr "prod"]>
    (<["contexts" := JObj (<["prod" := SingleClientService.endpoint_entry "tcp://10.0.0.5:2375"]>
                            (<["dev" := SingleClientService.endpoint_entry "tcp://10.0.0.9:2375"]> ∅))]> ∅).

Definition cli_state : SingleClientService.State :=
  {| SingleClientService.config_json := SingleClientService.Doc cli_doc;
     SingleClientService.client := {| cid := 0; chost := "tcp://10.0.0.5:2375" |};
     SingleClientService.DOCKER_HOST := "tcp://10.0.0.5:2375";
     SingleClientService.DOCKER_CONTEXT := "prod";
     SingleClientService.next_cid := 1 |}.

Definition staging : SingleClientService.ContextConfig :=
  {| SingleClientService.Name := "staging";
     SingleClientService.Host := "tcp://10.0.0.8:2375";
     SingleClientService.SSHKeyFile := "" |}.

Definition no_sockets : string → bool := λ _, false.
Definition ping_all : Client → bool := λ _, true.

Definition cli_null_state : SingleClientService.State :=
  SingleClientService.set_config_json SingleClientService.NullDoc cli_state.

Definition prod_entry : gmap string Json :=
  {[ "Endpoints" := JObj {[ "docker" := JObj {[ "Host" := JStr "tcp://10.0.0.5:2375" ]} ]} ]}.

Definition dev_entry : gmap string Json :=
  {[ "Endpoints" := JObj {[ "docker" := JObj {[ "Host" := JStr "tcp://10.0.0.9:2375" ]} ]} ]}.

Definition cli_contexts : gmap string Json :=
  <["prod" := JObj prod_entry]> (<["dev" := JObj dev_entry]> ∅).

(** ** Parsing a Docker host URL *)

(** [strconv.Atoi] on a 64-bit platform, with the error it returns. A byte
    is a digit when [ch - '0'], computed on bytes, is at most 9. *)
Inductive NumError := ErrSyntax | ErrRange.

Definition digit (ch : Ascii.ascii) : option Z :=
  let n := Z.of_N (Ascii.N_of_ascii ch) in
  if decide (48 ≤ n ∧ n ≤ 57)%Z then Some (n - 48)%Z else None.

(** The loop of the fast path: fewer than 19 bytes cannot overflow. *)
Fixpoint Atoi_digits (s : string) (n : Z) : option Z :=
  match s with
  | EmptyString => Some n
  | String ch s' =>
      match digit ch with
      | Some d => Atoi_digits s' (n * 10 + d)%Z
      | None => None
      end
  end.

Definition maxUint64 : Z := (2 ^ 64 - 1)%Z.

(** The loop of [strconv.ParseUint(s, 10, 64)]: it stops at the first byte
    that is not a digit, or at the first digit that overflows, whichever
    comes first. *)
Fixpoint ParseUint_digits (s : string) (n : Z) : Z * option NumError :=
  match s with
  | EmptyString => (n, None)
  | String c s' =>
      match digit c with
      | None => (0%Z, Some ErrSyntax)
      | Some d =>
          if decide (maxUint64 / 10 + 1 ≤ n)%Z then (maxUint64, Some ErrRange)
          else let n1 := (n * 10 + d)%Z in
               if decide (maxUint64 < n1)%Z then (maxUint64, Some ErrRange)
               else ParseUint_digits s' n1
      end
  end.

Definition ParseUint (s : string) : Z * option NumError :=
  match s with
  | EmptyString => (0%Z, Some ErrSyntax)
  | _ => ParseUint_digits s 0%Z
  end.

Definition plus_sign : Ascii.ascii := Ascii.ascii_of_nat 43.
Definition minus_sign : Ascii.ascii := Ascii.ascii_of_nat 45.

(** [strconv.ParseInt(s, 10, 0)] *)
Definition ParseInt (s : string) : Z * option NumError :=
  match s with
  | EmptyString => (0%Z, Some ErrSyntax)
  | String c s' =>
      let neg := bool_decide (c = minus_sign) in
      let s := if decide (c = plus_sign ∨ c = minus_sign) then s' else s in
      match ParseUint s with
      | (_, Some ErrSyntax) => (0%Z, Some ErrSyntax)
      | (un, _) =>
          let cutoff := (2 ^ 63)%Z in
          if negb neg && bool_decide (cutoff ≤ un)%Z then ((cutoff - 1)%Z, Some ErrRange)
          else if neg && bool_decide (cutoff < un)%Z then ((- cutoff)%Z, Some ErrRange)
          else ((if neg then - un else un)%Z, None)
      end
  end.

Definition Atoi (s : string) : Z * option NumError :=
  let sLen := String.length s in
  if decide (0 < sLen ∧ sLen < 19) then
    match s with
    | EmptyString => (0%Z, Some ErrSyntax)
    | String c s' =>
        let signed := bool_decide (c = minus_sign ∨ c = plus_sign) in
        let body := if signed then s' else s in
        if signed && bool_decide (String.length body < 1) then (0%Z, Some ErrSyntax)
        else match Atoi_digits body 0%Z with
             | None => (0%Z, Some ErrSyntax)
             | Some n => ((if bool_decide (c = minus_sign) then - n else n)%Z, None)
             end
    end
  else ParseInt s.

(** The host, the port and the socket path of a host URL. *)
Definition parseDockerHost (hostURL : string) : string * Z * string :=
  if HasPrefix hostURL "tcp://" then
    let host := TrimPrefix hostURL "tcp://" in
    match Split host colon with
    | [part0; part1] => (part0, (Atoi part1).1, EmptyString)
    | _ => (host, 2375%Z, EmptyString)
    end
  else (EmptyString, 0%Z, TrimPrefix hostURL "unix://").

Definition tcp_descriptor (host : string) (port : N) : ContextConfig :=
  {| Name := "remote"; Type_ := "tcp";
     Host := "tcp://" +:+ host +:+ ":" +:+ pretty port; Current := false |}.

(** * Properties *)

(** ** The client registry *)

Ltac unfold_M :=
  unfold mbind, mret, M_bind, M_ret, fail, modify, backend in *.

Lemma lookup_Map (m : Config) (key : string) : Map m !! key = m !! key.
Proof. reflexivity. Qed.

Lemma entries_Map (m : Config) : entries (Map m) = m.
Proof. reflexivity. Qed.

Lemma opened_snoc l e :
  opened (l ++ [e]) = opened l + (if is_NewClient e then 1 else 0).
Proof.
  unfold opened. rewrite filter_app, length_app. f_equal.
  destruct e; reflexivity.
Qed.

Section RegistryFacts.

Variable W : World.

Lemma readConfig_clients s r s' :
  readConfig W s = (r, s') →
  clients s' = clients s ∧ next_cid s' = next_cid s ∧ DOCKER_HOST s' = DOCKER_HOST s
  ∧ opened (log s') = opened (log s).
Proof.
  unfold readConfig, writeFile. unfold_M.
  destruct (file s); [destruct (write_ok W)|..]; intros [= <- <-]; simpl; auto.
  rewrite opened_snoc. simpl. repeat split; lia.
Qed.

Lemma readConfig_doc s cfg :
  file s = FileDoc cfg → readConfig W s = (Ok (Map cfg), s).
Proof. unfold readConfig. now intros ->. Qed.

(** A failing [getClient_create] builds nothing and leaves the map alone. *)
Lemma getClient_create_err name s e s' :
  getClient_create W name s = (Err e, s') →
  clients s' = clients s ∧ opened (log s') = opened (log s).
Proof.
  unfold getClient_create. unfold_M.
  destruct (readConfig W s) as [[cfg|e0] s0] eqn:Hr;
    apply readConfig_clients in Hr as (Hc & _ & _ & Ho).
  2: { intros [= <- <-]. auto. }
  destruct (as_obj (cfg !! "contexts")) as [ctxs|]; [|intros [= <- <-]; auto].
  destruct (as_obj (ctxs !! name)) as [d|]; [|intros [= <- <-]; auto].
  simpl. case_decide; [intros [= <- <-]; auto|].
  unfold NewClientWithOpts. destruct (host_ok W _); [discriminate|].
  intros [= <- <-]. auto.
Qed.

Lemma getClient_hit name s cli :
  clients s !! name = Some cli → getClient W name s = (Ok cli, s).
Proof. unfold getClient. now intros ->. Qed.

Lemma getClient_err name s e s' :
  getClient W name s = (Err e, s') →
  clients s !! name = None ∧ clients s' = clients s
  ∧ opened (log s') = opened (log s).
Proof.
  unfold getClient. destruct (clients s !! name) eqn:Hm; [discriminate|].
  unfold_M. unfold cacheClient. unfold_M.
  destruct (getClient_create W name s) as [[c|e0] s0] eqn:Hc; [discriminate|].
  intros [= <- <-]. apply getClient_create_err in Hc as [? ?]. auto.
Qed.

(** On a miss with a usable descriptor in the store, a client is built for
    the stored host and cached. *)
Lemma getClient_miss name s cfg ctxs d h :
  clients s !! name = None →
  file s = FileDoc cfg →
  cfg !! "contexts" = Some (JObj ctxs) →
  ctxs !! name = Some (JObj d) →
  d !! "host" = Some (JStr h) →
  h ≠ "" →
  host_ok W h = true →
  let c := {| cid := next_cid s; chost := h |} in
  getClient W name s
  = (Ok c, emit (EvCache name c)
             (set_clients (<[name := c]> (clients s))
                (emit (EvNewClient c) (set_next_cid (S (next_cid s)) s)))).
Proof.
  intros Hm Hf Hc Hn Hh Hne Hok c.
  unfold getClient. rewrite Hm. unfold getClient_create. unfold_M.
  rewrite (readConfig_doc _ _ Hf), ?lookup_Map, ?entries_Map, Hc. simpl. rewrite Hn. simpl.
  unfold str_or_empty. rewrite Hh. simpl.
  case_decide; [done|]. unfold NewClientWithOpts. rewrite Hok.
  reflexivity.
Qed.

End RegistryFacts.

(** C9. When [getClient] fails, whatever the reason, the error is returned
    and the name-to-client map is exactly what it was, with no entry for
    the name; a later call made once the store holds a usable descriptor
    and the library accepts its host therefore goes back to the store and
    returns a client for the stored host. *)
Theorem getClient_failure_not_cached (W W' : World) (name : string)
    (s s' : Service) (e : Error) :
  getClient W name s = (Err e, s') →
  clients s' = clients s ∧ clients s' !! name = None ∧
  ∀ s2 cfg ctxs d h,
    clients s2 = clients s' →
    file s2 = FileDoc cfg →
    cfg !! "contexts" = Some (JObj ctxs) →
    ctxs !! name = Some (JObj d) →
    d !! "host" = Some (JStr h) →
    h ≠ "" →
    host_ok W' h = true →
    (getClient W' name s2).1 = Ok {| cid := next_cid s2; chost := h |}.
Proof.
  intros Hg. apply getClient_err in Hg as (Hnone & Hsame & _).
  split; [done|]. split; [by rewrite Hsame|].
  intros s2 cfg ctxs d h Hc2 Hf Hc Hn Hh Hne Hok.
  erewrite getClient_miss; eauto. by rewrite Hc2, Hsame.
Qed.

(** The three failures named in the claim, and a retry that succeeds. *)
Lemma getClient_failure_not_cached_witness :
  let s := NewDockerService (FileDoc prod_doc) in
  let W_down := {| write_ok := true; host_ok := λ _, false;
                   default_host := ""; resize_ok := λ _ _, true |} in
  (getClient W_ok "nope" s).1 = Err (ErrNotFound "nope") ∧
  (getClient W_down "prod" s).1 = Err ErrCreateClient ∧
  clients (getClient W_down "prod" s).2 = clients s ∧
  (getClient W_ok "prod" (getClient W_down "prod" s).2).1
  = Ok {| cid := 0; chost := "tcp://10.0.0.5:2375" |}.
Proof.
  intros s W_down.
  split; [vm_compute; reflexivity|]. split; [vm_compute; reflexivity|].
  destruct (getClient W_down "prod" s) as [r s'] eqn:Hg.
  assert (Hr : r = Err ErrCreateClient).
  { change r with (r, s').1. rewrite <- Hg. vm_compute. reflexivity. }
  subst r.
  destruct (getClient_failure_not_cached W_down W_ok "prod" s s' _ Hg)
    as (Hsame & _ & Hretry).
  split; [exact Hsame|].
  assert (Hs' : s' = s).
  { change s' with (Err (A:=Client) ErrCreateClient, s').2. rewrite <- Hg.
    vm_compute. reflexivity. }
  simpl. rewrite (Hretry s' prod_doc
           (<["prod" := tcp_ctx "tcp://10.0.0.5:2375"]>
              (<["dev" := tcp_ctx "tcp://10.0.0.9:2375"]> ∅))
           (<["type" := JStr "tcp"]> (<["host" := JStr "tcp://10.0.0.5:2375"]> ∅))
           "tcp://10.0.0.5:2375"); subst s'; try reflexivity; try done.
Defined.

(** ** Deleting a context *)

(** C5, as stated, fails for one of the two services it names: the
    single-client [DeleteContext] does not refuse the current context. With
    "prod" current, deleting "prod" succeeds, removes it from the store and
    makes "default" the current context. *)
Lemma SingleClientService_deletes_current_context :
  ∃ s', SingleClientService.DeleteContext W_ok "prod" cli_state
        = (SingleClientService.Done tt, s') ∧
        SingleClientService.config_json s'
        = SingleClientService.Doc
            (<["current-context" := JStr "default"]>
               (<["contexts" := JObj (<["dev" := JObj dev_entry]> ∅)]> cli_doc)) ∧
        SingleClientService.GetContextConfig "prod" s'
        = SingleClientService.Failed (SingleClientService.ContextNotFound "prod").
Proof.
  eexists. split; [reflexivity|]. split; [|reflexivity].
  vm_compute. reflexivity.
Qed.

(** C5, amended. In the multi-context service, when the store names [name]
    as the current context, [DeleteContext name] returns the "cannot delete
    current context" error and nothing changes: neither the file nor the
    rest of the service. When there is no store file yet, reading the store
    first writes the default document, whose current context is the empty
    name; deleting the empty name is then refused in the same way. *)
Theorem DeleteContext_current_in_use (W : World) (name : string) (s : Service) :
  (∀ cfg, file s = FileDoc cfg →
          cfg !! "current-context" = Some (JStr name) →
          DeleteContext W name s = (Err (ErrInUse name), s)) ∧
  (file s = FileMissing → write_ok W = true →
   DeleteContext W "" s
   = (Err (ErrInUse ""),
      emit (EvWriteFile defaultConfig) (set_file (FileDoc defaultConfig) s))).
Proof.
  split.
  - intros cfg Hf Hcur. unfold DeleteContext. unfold_M.
    rewrite (readConfig_doc _ _ _ Hf), ?lookup_Map, ?entries_Map, Hcur. simpl.
    case_decide; [reflexivity|congruence].
  - intros Hf Hw. unfold DeleteContext, readConfig, writeFile. unfold_M.
    rewrite Hf, Hw. reflexivity.
Qed.

Lemma DeleteContext_current_in_use_witness :
  DeleteContext W_ok "prod" (NewDockerService (FileDoc prod_doc))
  = (Err (ErrInUse "prod"), NewDockerService (FileDoc prod_doc)) ∧
  DeleteContext W_ok "" (NewDockerService FileMissing)
  = (Err (ErrInUse ""),
     emit (EvWriteFile defaultConfig)
       (set_file (FileDoc defaultConfig) (NewDockerService FileMissing))).
Proof.
  split.
  - destruct (DeleteContext_current_in_use W_ok "prod"
                (NewDockerService (FileDoc prod_doc))) as [Hdoc _].
    apply (Hdoc prod_doc); reflexivity.
  - destruct (DeleteContext_current_in_use W_ok ""
                (NewDockerService FileMissing)) as [_ Hnone].
    apply Hnone; reflexivity.
Defined.

(** C6, as stated, fails: a client cached for the name outlives the
    descriptor. After [getClient "dev"], deleting "dev" succeeds and
    removes it from the store, yet [getClient "dev"] still returns the
    cached client. *)
Lemma DeleteContext_leaves_cached_client :
  let s1 := (getClient W_ok "dev" (NewDockerService (FileDoc prod_doc))).2 in
  let s2 := (DeleteContext W_ok "dev" s1).2 in
  (DeleteContext W_ok "dev" s1).1 = Ok tt ∧
  file s2 = FileDoc (<["contexts" := JObj (<["prod" := tcp_ctx "tcp://10.0.0.5:2375"]> ∅)]>
                       prod_doc) ∧
  (getClient W_ok "dev" s2).1 = Ok {| cid := 0; chost := "tcp://10.0.0.9:2375" |}.
Proof. vm_compute. repeat split; reflexivity. Qed.

(** C6, amended. Deleting an existing context that is not the current one
    succeeds when the file can be written, removes the descriptor from the
    store and leaves the client map alone; [getClient] for that name then
    fails with "not found" unless a client for it was already cached, in
    which case that client is returned. *)
Theorem DeleteContext_then_getClient (W W' : World) (name : string)
    (s : Service) (cfg : Config) (ctxs : gmap string Json) (v : Json) :
  write_ok W = true →
  file s = FileDoc cfg →
  as_str (cfg !! "current-context") ≠ Some name →
  cfg !! "contexts" = Some (JObj ctxs) →
  ctxs !! name = Some v →
  ∃ s', DeleteContext W name s = (Ok tt, s') ∧
        file s' = FileDoc (<["contexts" := JObj (delete name ctxs)]> cfg) ∧
        clients s' = clients s ∧
        getClient W' name s'
        = match clients s !! name with
          | Some cli => (Ok cli, s')
          | None => (Err (ErrNotFound name), s')
          end.
Proof.
  intros Hw Hf Hcur Hc Hn.
  eexists. split.
  { unfold DeleteContext. unfold_M. rewrite (readConfig_doc _ _ _ Hf), ?lookup_Map, ?entries_Map.
    case_decide; [done|]. rewrite Hc. simpl. rewrite Hn.
    unfold saveConfig, writeFile. rewrite Hw. reflexivity. }
  simpl. split; [reflexivity|]. split; [reflexivity|].
  unfold getClient. simpl. destruct (clients s !! name); [reflexivity|].
  unfold getClient_create, readConfig. unfold_M. simpl.
  rewrite lookup_insert_eq. simpl. rewrite lookup_delete_eq. reflexivity.
Qed.

Lemma DeleteContext_then_getClient_witness :
  ∃ s', DeleteContext W_ok "dev" (NewDockerService (FileDoc prod_doc)) = (Ok tt, s') ∧
        getClient W_ok "dev" s' = (Err (ErrNotFound "dev"), s').
Proof.
  destruct (DeleteContext_then_getClient W_ok W_ok "dev"
              (NewDockerService (FileDoc prod_doc)) prod_doc
              (<["prod" := tcp_ctx "tcp://10.0.0.5:2375"]>
                 (<["dev" := tcp_ctx "tcp://10.0.0.9:2375"]> ∅))
              (tcp_ctx "tcp://10.0.0.9:2375"))
    as (s' & Hd & _ & _ & Hg); try reflexivity.
  - vm_compute. discriminate.
  - exists s'. split; [exact Hd|exact Hg].
Defined.

(** ** Updating the current context *)

Lemma ids_fresh_new f : ids_fresh (NewDockerService f).
Proof. intros n c. simpl. by rewrite lookup_empty. Qed.

Lemma getClient_create_err_cid W name s e s' :
  getClient_create W name s = (Err e, s') → next_cid s' = next_cid s.
Proof.
  unfold getClient_create. unfold_M.
  destruct (readConfig W s) as [[cfg|e0] s0] eqn:Hr;
    apply readConfig_clients in Hr as (_ & Hn & _).
  2: { by intros [= <- <-]. }
  destruct (as_obj (cfg !! "contexts")) as [ctxs|]; [|by intros [= <- <-]].
  destruct (as_obj (ctxs !! name)) as [d|]; [|by intros [= <- <-]].
  simpl. case_decide; [by intros [= <- <-]|].
  unfold NewClientWithOpts. destruct (host_ok W _); [discriminate|].
  by intros [= <- <-].
Qed.

Lemma getClient_create_ok W name s c s' :
  getClient_create W name s = (Ok c, s') →
  cid c = next_cid s ∧ next_cid s' = S (next_cid s) ∧ clients s' = clients s
  ∧ opened (log s') = S (opened (log s)).
Proof.
  unfold getClient_create. unfold_M.
  destruct (readConfig W s) as [[cfg|e0] s1] eqn:Hr; [|discriminate].
  apply readConfig_clients in Hr as (Hcl & Hn & _ & Ho).
  destruct (as_obj _); [|discriminate]. destruct (as_obj _); [|discriminate].
  simpl. case_decide; [discriminate|]. unfold NewClientWithOpts.
  destruct (host_ok W _); [|discriminate]. intros [= <- <-]. simpl.
  repeat split; try done; [lia|].
  rewrite opened_snoc. simpl. lia.
Qed.

Lemma ids_fresh_getClient W name s r s' :
  ids_fresh s → getClient W name s = (r, s') → ids_fresh s'.
Proof.
  intros Hi. unfold getClient. destruct (clients s !! name) eqn:Hm.
  { by intros [= <- <-]. }
  unfold_M. unfold cacheClient. unfold_M.
  destruct (getClient_create W name s) as [[c|e] s0] eqn:Hc.
  - intros [= <- <-]. apply getClient_create_ok in Hc as (Hid & Hn & Hcl & _).
    intros n c'. simpl. rewrite lookup_insert. case_decide.
    + intros [= <-]. lia.
    + rewrite Hcl. intros Hl%Hi. lia.
  - intros [= <- <-]. pose proof (getClient_create_err_cid _ _ _ _ _ Hc) as Hn.
    apply getClient_create_err in Hc as [Hcl _].
    intros n c. rewrite Hcl, Hn. apply Hi.
Qed.

(** What [UpdateContextConfig] does once the descriptor is known to exist
    and the context is the current one. *)
Lemma UpdateContextConfig_current W name config s cfg ctxs v :
  file s = FileDoc cfg →
  cfg !! "current-context" = Some (JStr name) →
  cfg !! "contexts" = Some (JObj ctxs) →
  ctxs !! name = Some v →
  UpdateContextConfig W name config s
  = (Setenv_DOCKER_HOST (Host config) ;;
     cli ← NewClientWithOpts W FromEnv;
     cacheClient name cli ;;
     saveConfig W (<["contexts" := JObj (<[name := descriptor config]> ctxs)]> cfg)) s.
Proof.
  intros Hf Hcur Hc Hn. unfold UpdateContextConfig. unfold_M.
  rewrite (readConfig_doc _ _ _ Hf), ?lookup_Map, ?entries_Map, Hc. simpl. rewrite Hn, Hcur. simpl.
  case_decide; [|done].
  unfold buildDockerHost, Setenv_DOCKER_HOST, cacheClient. unfold_M.
  destruct (NewClientWithOpts W FromEnv _) as [[c|e] s1]; reflexivity.
Qed.

Lemma UpdateContextConfig_current_ok W name config s s' cfg :
  file s = FileDoc cfg →
  cfg !! "current-context" = Some (JStr name) →
  Host config ≠ "" →
  UpdateContextConfig W name config s = (Ok tt, s') →
  clients s' !! name = Some {| cid := next_cid s; chost := Host config |}.
Proof.
  intros Hf Hcur Hne. unfold UpdateContextConfig. unfold_M.
  rewrite (readConfig_doc _ _ _ Hf), ?lookup_Map, ?entries_Map.
  destruct (cfg !! "contexts") as [[]|]; simpl; try discriminate.
  destruct (m !! name); [|discriminate].
  rewrite Hcur. simpl. case_decide; [|done].
  unfold buildDockerHost, Setenv_DOCKER_HOST, cacheClient, NewClientWithOpts.
  unfold_M. simpl. case_decide; [done|].
  destruct (host_ok W _); [|discriminate].
  unfold saveConfig, writeFile. simpl. destruct (write_ok W); [|discriminate].
  intros [= <-]. simpl. apply lookup_insert_eq.
Qed.

(** C4, as stated, fails in its second half: [UpdateContextConfig] never
    contacts the daemon. Here the current context is moved to an address at
    which no daemon answers: the call returns nil, its effects are the
    environment variable, the new client, the cache entry and the file, and
    the client is cached and handed out, although every call made through
    it fails. *)
Lemma UpdateContextConfig_caches_unreachable :
  let s0 := NewDockerService (FileDoc prod_doc) in
  let c := {| cid := 0; chost := "tcp://192.0.2.1:2375" |} in
  let s1 := (UpdateContextConfig W_ok "prod" prod_to_unreachable s0).2 in
  (UpdateContextConfig W_ok "prod" prod_to_unreachable s0).1 = Ok tt ∧
  (∃ cfg', log s1 = [EvSetenv "tcp://192.0.2.1:2375"; EvNewClient c;
                     EvCache "prod" c; EvWriteFile cfg']) ∧
  getClient W_ok "prod" s1 = (Ok c, s1) ∧
  CreateExec W_ok "prod" "c1" (Err ErrBackend) s1 = (Err ErrBackend, s1).
Proof.
  vm_compute. split; [reflexivity|]. split; [eexists; reflexivity|].
  split; reflexivity.
Qed.

(** C4, amended. On the current context, with a non-empty new address:
    once [UpdateContextConfig] has returned without error, the store holds
    the new descriptor and [getClient name] returns a client built for the
    new address, with an identity no client cached before had. The call
    succeeds whenever the client library accepts the address and the file
    can be written; when the library rejects the address it returns the
    "failed to create docker client" error, caches nothing and writes
    nothing. Nothing else decides the outcome: the daemon is not
    contacted. *)
Theorem UpdateContextConfig_current_rebinds (W W' : World) (name : string)
    (config : ContextConfig) (s : Service) (cfg : Config)
    (ctxs : gmap string Json) (v : Json) :
  file s = FileDoc cfg →
  cfg !! "current-context" = Some (JStr name) →
  cfg !! "contexts" = Some (JObj ctxs) →
  ctxs !! name = Some v →
  Host config ≠ "" →
  ids_fresh s →
  (∀ s', UpdateContextConfig W name config s = (Ok tt, s') →
     (∃ h, getClient W' name s' = (Ok h, s') ∧ chost h = Host config ∧
           ∀ n old, clients s !! n = Some old → h ≠ old) ∧
     file s' = FileDoc (<["contexts" := JObj (<[name := descriptor config]> ctxs)]> cfg)) ∧
  (host_ok W (Host config) = false →
     ∃ s', UpdateContextConfig W name config s = (Err ErrCreateClient, s') ∧
           clients s' = clients s ∧ file s' = file s) ∧
  (host_ok W (Host config) = true → write_ok W = true →
     ∃ s', UpdateContextConfig W name config s = (Ok tt, s')) ∧
  (∀ W2, write_ok W2 = write_ok W → host_ok W2 (Host config) = host_ok W (Host config) →
     UpdateContextConfig W2 name config s = UpdateContextConfig W name config s).
Proof.
  intros Hf Hcur Hc Hn Hne Hfresh.
  assert (Hrun : ∀ W0, UpdateContextConfig W0 name config s
            = if host_ok W0 (Host config)
              then let c := {| cid := next_cid s; chost := Host config |} in
                   let s1 := emit (EvCache name c)
                               (set_clients (<[name := c]> (clients s))
                                  (emit (EvNewClient c)
                                     (set_next_cid (S (next_cid s))
                                        (emit (EvSetenv (Host config))
                                           (set_env (Host config) s))))) in
                   saveConfig W0
                     (<["contexts" := JObj (<[name := descriptor config]> ctxs)]> cfg) s1
              else (Err ErrCreateClient,
                    emit (EvSetenv (Host config)) (set_env (Host config) s))).
  { intros W0. rewrite (UpdateContextConfig_current _ _ _ _ _ _ _ Hf Hcur Hc Hn).
    unfold Setenv_DOCKER_HOST, NewClientWithOpts, cacheClient. unfold_M. simpl.
    case_decide; [done|]. by destruct (host_ok W0 (Host config)). }
  split; [|split; [|split]].
  - intros s' Hu.
    pose proof (UpdateContextConfig_current_ok _ _ _ _ _ _ Hf Hcur Hne Hu) as Hl.
    split.
    + eexists. split; [by apply getClient_hit|]. split; [reflexivity|].
      intros n old Ho%Hfresh Heq. subst old. simpl in Ho. lia.
    + rewrite Hrun in Hu. destruct (host_ok W (Host config)); [|done].
      unfold saveConfig, writeFile in Hu. destruct (write_ok W); [|done].
      by simplify_eq.
  - intros Hbad. rewrite Hrun, Hbad. eexists. split; [reflexivity|]. done.
  - intros Hok Hw. rewrite Hrun, Hok. unfold saveConfig, writeFile. rewrite Hw.
    eexists. reflexivity.
  - intros W2 Hw2 Hh2. rewrite !Hrun, Hh2. unfold saveConfig, writeFile.
    by rewrite Hw2.
Qed.

(** The "prod" scenario: get twice, update to .6, get again. *)
Lemma UpdateContextConfig_current_rebinds_witness :
  let s0 := NewDockerService (FileDoc prod_doc) in
  let s1 := (getClient W_ok "prod" s0).2 in
  (getClient W_ok "prod" s1).1 = Ok {| cid := 0; chost := "tcp://10.0.0.5:2375" |} ∧
  ∃ s2 h, UpdateContextConfig W_ok "prod" prod_to_6 s1 = (Ok tt, s2) ∧
          getClient W_ok "prod" s2 = (Ok h, s2) ∧
          chost h = "tcp://10.0.0.6:2375" ∧
          h ≠ {| cid := 0; chost := "tcp://10.0.0.5:2375" |}.
Proof.
  intros s0 s1. split; [vm_compute; reflexivity|].
  destruct (UpdateContextConfig W_ok "prod" prod_to_6 s1) as [r s2] eqn:Hu.
  assert (Hr : r = Ok tt).
  { change r with (r, s2).1. rewrite <- Hu. vm_compute. reflexivity. }
  subst r.
  destruct (UpdateContextConfig_current_rebinds W_ok W_ok "prod" prod_to_6 s1 prod_doc
              (<["prod" := tcp_ctx "tcp://10.0.0.5:2375"]>
                 (<["dev" := tcp_ctx "tcp://10.0.0.9:2375"]> ∅))
              (tcp_ctx "tcp://10.0.0.5:2375")) as [Hok _];
    try reflexivity; try discriminate.
  - eapply ids_fresh_getClient; [apply ids_fresh_new|].
    apply surjective_pairing.
  - rewrite Hu in Hok. destruct (Hok s2 eq_refl) as ((h & Hg & Hh & Hnew) & _).
    exists s2, h. repeat split; try assumption.
    apply (Hnew "prod"). vm_compute. reflexivity.
Defined.

(** ** Order of persistence and client creation *)

(** C8, as stated, fails: on the current context [UpdateContextConfig]
    builds and caches the client before it saves. With a file that cannot
    be written the call fails, the store still holds the old address, and
    the cached client is bound to the new one; with a writable file the
    client is built and cached before the file is written. *)
Lemma UpdateContextConfig_caches_before_save :
  let s0 := NewDockerService (FileDoc prod_doc) in
  let s1 := (UpdateContextConfig W_readonly "prod" prod_to_6 s0).2 in
  (UpdateContextConfig W_readonly "prod" prod_to_6 s0).1 = Err ErrIO ∧
  file s1 = FileDoc prod_doc ∧
  clients s1 !! "prod" = Some {| cid := 0; chost := "tcp://10.0.0.6:2375" |} ∧
  ∃ cfg', log (UpdateContextConfig W_ok "prod" prod_to_6 s0).2
          = [EvSetenv "tcp://10.0.0.6:2375";
             EvNewClient {| cid := 0; chost := "tcp://10.0.0.6:2375" |};
             EvCache "prod" {| cid := 0; chost := "tcp://10.0.0.6:2375" |};
             EvWriteFile cfg'].
Proof.
  vm_compute. repeat split; try reflexivity. eexists. reflexivity.
Qed.

(** A client built by [getClient] is built for the host of a descriptor
    that is in the store. *)
Lemma getClient_built_from_store W name s c s' :
  clients s !! name = None →
  getClient W name s = (Ok c, s') →
  ∃ cfg ctxs d, file s' = FileDoc cfg ∧ cfg !! "contexts" = Some (JObj ctxs) ∧
                ctxs !! name = Some (JObj d) ∧ d !! "host" = Some (JStr (chost c)).
Proof.
  intros Hm. unfold getClient. rewrite Hm. unfold getClient_create, cacheClient.
  unfold_M. unfold readConfig, writeFile. unfold_M.
  destruct (file s) as [| | |cfg] eqn:Hf.
  - destruct (write_ok W); [|discriminate]. simpl.
    unfold defaultConfig. rewrite ?lookup_Map, lookup_insert_eq. simpl.
    rewrite lookup_empty. discriminate.
  - discriminate.
  - discriminate.
  - rewrite ?lookup_Map.
    destruct (cfg !! "contexts") as [[]|] eqn:Hc; simpl; try discriminate.
    destruct (m !! name) as [[]|] eqn:Hn; simpl; try discriminate.
    unfold str_or_empty.
    destruct (m0 !! "host") as [[]|] eqn:Hh; simpl; try discriminate;
      case_decide; try discriminate.
    unfold NewClientWithOpts. destruct (host_ok W s0); [|discriminate].
    intros [= <- <-]. simpl. eauto 10.
Qed.

(** C8, amended. A client that [getClient] builds is built for the host of
    a descriptor already in the store. [UpdateContextConfig] on the current
    context sets DOCKER_HOST, builds the client, caches it and only then
    writes the store; on any other context it builds no client and only
    writes the store. *)
Theorem persistence_and_client_creation (W : World) (name : string)
    (config : ContextConfig) (s : Service) (cfg : Config)
    (ctxs : gmap string Json) (v : Json) :
  file s = FileDoc cfg →
  cfg !! "contexts" = Some (JObj ctxs) →
  ctxs !! name = Some v →
  Host config ≠ "" →
  host_ok W (Host config) = true →
  write_ok W = true →
  let cfg' := <["contexts" := JObj (<[name := descriptor config]> ctxs)]> cfg in
  let c := {| cid := next_cid s; chost := Host config |} in
  (∀ c0 s0, clients s !! name = None → getClient W name s = (Ok c0, s0) →
     ∃ d, v = JObj d ∧ d !! "host" = Some (JStr (chost c0)) ∧ file s0 = FileDoc cfg) ∧
  log (UpdateContextConfig W name config s).2
  = if decide (as_str (cfg !! "current-context") = Some name)
    then log s ++ [EvSetenv (Host config); EvNewClient c; EvCache name c;
                   EvWriteFile cfg']
    else log s ++ [EvWriteFile cfg'].
Proof.
  intros Hf Hc Hn Hne Hok Hw cfg' c. split.
  - intros c0 s0 Hm Hg.
    destruct (getClient_built_from_store _ _ _ _ _ Hm Hg)
      as (cfg0 & ctxs0 & d & Hf0 & Hc0 & Hn0 & Hh).
    assert (file s0 = file s) as Hsame.
    { revert Hg. unfold getClient. rewrite Hm. unfold getClient_create, cacheClient.
      unfold_M. rewrite (readConfig_doc _ _ _ Hf), ?lookup_Map, ?entries_Map, Hc. simpl.
      destruct (as_obj (ctxs !! name)); [|discriminate]. simpl.
      case_decide; [discriminate|]. unfold NewClientWithOpts.
      destruct (host_ok W (str_or_empty _)); [|discriminate].
      intros Heq. by simplify_eq. }
    rewrite Hsame, Hf in Hf0. simplify_eq.
    exists d. rewrite Hsame, Hf. auto.
  - unfold UpdateContextConfig. unfold_M.
    rewrite (readConfig_doc _ _ _ Hf), ?lookup_Map, ?entries_Map, Hc. simpl. rewrite Hn.
    unfold buildDockerHost, Setenv_DOCKER_HOST, cacheClient, NewClientWithOpts,
      saveConfig, writeFile. unfold_M.
    case_decide; simpl.
    + case_decide; [done|]. rewrite Hok, Hw. simpl.
      rewrite <- !app_assoc. reflexivity.
    + rewrite Hw. reflexivity.
Qed.

Lemma persistence_and_client_creation_witness :
  log (UpdateContextConfig W_ok "prod" prod_to_6 (NewDockerService (FileDoc prod_doc))).2
  = [EvSetenv "tcp://10.0.0.6:2375";
     EvNewClient {| cid := 0; chost := "tcp://10.0.0.6:2375" |};
     EvCache "prod" {| cid := 0; chost := "tcp://10.0.0.6:2375" |};
     EvWriteFile (<["contexts" := JObj (<["prod" := descriptor prod_to_6]>
                     (<["prod" := tcp_ctx "tcp://10.0.0.5:2375"]>
                        (<["dev" := tcp_ctx "tcp://10.0.0.9:2375"]> ∅)))]> prod_doc)].
Proof.
  destruct (persistence_and_client_creation W_ok "prod" prod_to_6
              (NewDockerService (FileDoc prod_doc)) prod_doc
              (<["prod" := tcp_ctx "tcp://10.0.0.5:2375"]>
                 (<["dev" := tcp_ctx "tcp://10.0.0.9:2375"]> ∅))
              (tcp_ctx "tcp://10.0.0.5:2375")
              eq_refl eq_refl eq_refl ltac:(discriminate) eq_refl eq_refl)
    as [_ Hlog].
  exact Hlog.
Defined.

(** ** Callers of [getClient] *)

(** A caller that runs alone goes through [getClient_step] exactly as
    [getClient] does. *)
Lemma getClient_step_alone W name s :
  run_sched W [0; 0] (s, [(name, GLookup)])
  = ((getClient W name s).2, [(name, GDone (getClient W name s).1)]).
Proof.
  unfold run_sched, sched_step, getClient_step, getClient. simpl.
  destruct (clients s !! name) eqn:Hm; simpl; [reflexivity|].
  unfold_M. destruct (getClient_create W name s) as [[c|e] s0]; reflexivity.
Qed.

(** C3, as stated, fails: two callers that both test the map before either
    stores build two clients and receive different ones. *)
Lemma getClient_race_opens_two :
  let s0 := NewDockerService (FileDoc prod_doc) in
  let st := run_sched W_ok [0; 1; 0; 1] (s0, [("prod", GLookup); ("prod", GLookup)]) in
  clients s0 !! "prod" = None ∧
  st.2 = [("prod", GDone (Ok {| cid := 0; chost := "tcp://10.0.0.5:2375" |}));
          ("prod", GDone (Ok {| cid := 1; chost := "tcp://10.0.0.5:2375" |}))] ∧
  opened (log st.1) = 2.
Proof. vm_compute. repeat split; reflexivity. Qed.

Lemma getClient_ok W name s h s1 :
  getClient W name s = (Ok h, s1) → clients s1 !! name = Some h.
Proof.
  unfold getClient. destruct (clients s !! name) eqn:Hm.
  { intros Heq. by simplify_eq. }
  unfold_M. unfold cacheClient. unfold_M.
  destruct (getClient_create W name s) as [[c|e] s0]; [|discriminate].
  intros Heq. simplify_eq. simpl. apply lookup_insert_eq.
Qed.

Lemma getClient_seq_hit W name n s h :
  clients s !! name = Some h →
  getClient_seq W name n s = (replicate n (Ok h), s).
Proof.
  intros Hm. induction n as [|n IH]; simpl; [reflexivity|].
  rewrite (getClient_hit _ _ _ _ Hm), IH. reflexivity.
Qed.

(** C3, amended. For calls made one after another while no client exists
    for the name, the first of which succeeds: exactly one client is
    built, every call returns that same client, and the map (which holds
    one client per name by construction) ends with it under the name. *)
Theorem getClient_seq_opens_once (W : World) (name : string) (n : nat)
    (s s1 : Service) (h : Client) :
  clients s !! name = None →
  getClient W name s = (Ok h, s1) →
  (getClient_seq W name (S n) s).1 = replicate (S n) (Ok h) ∧
  opened (log (getClient_seq W name (S n) s).2) = S (opened (log s)) ∧
  clients (getClient_seq W name (S n) s).2 !! name = Some h.
Proof.
  intros Hm Hg. simpl. rewrite Hg.
  pose proof (getClient_ok _ _ _ _ _ Hg) as Hh.
  rewrite (getClient_seq_hit _ _ n _ _ Hh). simpl.
  split; [reflexivity|]. split; [|exact Hh].
  revert Hg. unfold getClient. rewrite Hm. unfold_M. unfold cacheClient. unfold_M.
  destruct (getClient_create W name s) as [[c|e] s0] eqn:Hc; [|discriminate].
  intros Heq. simplify_eq. simpl. rewrite opened_snoc. simpl.
  apply getClient_create_ok in Hc as (_ & _ & _ & ->). lia.
Qed.

Lemma getClient_seq_opens_once_witness :
  (getClient_seq W_ok "prod" 3 (NewDockerService (FileDoc prod_doc))).1
  = replicate 3 (Ok {| cid := 0; chost := "tcp://10.0.0.5:2375" |}) ∧
  opened (log (getClient_seq W_ok "prod" 3 (NewDockerService (FileDoc prod_doc))).2) = 1.
Proof.
  destruct (getClient_seq_opens_once W_ok "prod" 2
              (NewDockerService (FileDoc prod_doc))
              (getClient W_ok "prod" (NewDockerService (FileDoc prod_doc))).2
              {| cid := 0; chost := "tcp://10.0.0.5:2375" |}
              eq_refl eq_refl) as (Hr & Ho & _).
  split; [exact Hr|exact Ho].
Defined.

(** ** Listing contexts *)

Lemma ltb_lt a b : String.ltb a b = true ↔ OrderedTypeEx.String_as_OT.lt a b.
Proof.
  unfold String.ltb. rewrite <- OrderedTypeEx.String_as_OT.cmp_lt.
  unfold OrderedTypeEx.String_as_OT.cmp.
  destruct (String.compare a b); split; congruence.
Qed.

Lemma ltb_trans a b c :
  String.ltb a b = true → String.ltb b c = true → String.ltb a c = true.
Proof. rewrite !ltb_lt. apply OrderedTypeEx.String_as_OT.lt_trans. Qed.

Lemma ltb_total a b : a ≠ b → String.ltb a b = false → String.ltb b a = true.
Proof.
  intros Hne. unfold String.ltb. rewrite (String.compare_antisym b a).
  destruct (String.compare a b) eqn:Hc; simpl; try congruence.
  apply String.compare_eq_iff in Hc. congruence.
Qed.

Global Instance name_lt_trans : Transitive name_lt.
Proof. intros a b c. unfold name_lt, name_less. apply ltb_trans. Qed.

Lemma sort_insert_perm {A} (less : A → A → bool) x l :
  sort_insert less x l ≡ₚ x :: l.
Proof.
  induction l as [|y l IH]; simpl; [done|].
  destruct (less y x); [|done]. rewrite IH. apply Permutation_swap.
Qed.

Lemma sort_Slice_perm {A} (less : A → A → bool) l : sort_Slice less l ≡ₚ l.
Proof.
  induction l as [|x l IH]; simpl; [done|].
  rewrite sort_insert_perm. by rewrite IH.
Qed.

Lemma sort_insert_sorted x l :
  Name x ∉ Name <$> l → Sorted name_lt l → Sorted name_lt (sort_insert name_less x l).
Proof.
  induction l as [|y l IH]; simpl; intros Hx Hs.
  { repeat constructor. }
  apply not_elem_of_cons in Hx as [Hxy Hx].
  apply Sorted_inv in Hs as [Hs Hhd].
  destruct (name_less y x) eqn:Hlt.
  - constructor; [by apply IH|].
    destruct l as [|z l]; simpl.
    + by repeat constructor.
    + destruct (name_less z x); constructor; [|done].
      by apply HdRel_inv in Hhd.
  - constructor; [by constructor|]. constructor.
    unfold name_lt, name_less in *. by apply ltb_total.
Qed.

Lemma sort_Slice_sorted l :
  NoDup (Name <$> l) → Sorted name_lt (sort_Slice name_less l).
Proof.
  induction l as [|x l IH]; simpl; intros Hnd.
  { constructor. }
  apply NoDup_cons in Hnd as [Hx Hnd].
  apply sort_insert_sorted; [|by apply IH].
  unfold sort_Slice in *. by rewrite (sort_Slice_perm name_less l).
Qed.

(** The loop, whatever order the map is ranged over. *)
Lemma ListContexts_loop cur l acc1 acc2 :
  foldl (ListContexts_body cur) (acc1, acc2) l
  = (acc1 ++ omap (other_entry cur) l,
     from_option Some acc2 (last (omap (current_entry cur) l))).
Proof.
  revert acc1 acc2. induction l as [|[k v] l IH]; intros acc1 acc2; simpl.
  { by rewrite app_nil_r. }
  unfold ListContexts_body at 2, other_entry at 1, current_entry at 1. simpl.
  destruct v; simpl; rewrite ?IH; try done.
  case_decide; rewrite IH; simpl.
  - f_equal. rewrite last_cons. by destruct (last _).
  - by rewrite <- app_assoc.
Qed.

Lemma current_entry_last cur (ctxs : gmap string Json) :
  last (omap (current_entry cur) (map_to_list ctxs))
  = match ctxs !! cur with
    | Some (JObj d) => Some (context_entry cur cur d)
    | _ => None
    end.
Proof.
  assert (Hin : ∀ c, c ∈ omap (current_entry cur) (map_to_list ctxs) →
                ∃ d, ctxs !! cur = Some (JObj d) ∧ c = context_entry cur cur d).
  { intros c [[k v] [Hkv Hc]]%list_elem_of_omap.
    apply elem_of_map_to_list in Hkv. unfold current_entry in Hc. simpl in Hc.
    destruct v; try discriminate. case_decide; [|discriminate].
    simplify_eq. eauto. }
  destruct (last _) as [c|] eqn:Hl.
  - apply last_Some_elem_of, Hin in Hl as (d & -> & ->). reflexivity.
  - apply last_None in Hl. destruct (ctxs !! cur) as [[]|] eqn:Hc; try done.
    assert (context_entry cur cur m ∈ omap (current_entry cur) (map_to_list ctxs)) as Hm.
    { apply list_elem_of_omap. exists (cur, JObj m). split.
      - by apply elem_of_map_to_list.
      - unfold current_entry. simpl. by case_decide. }
    rewrite Hl in Hm. by apply elem_of_nil in Hm.
Qed.

Lemma other_entry_names cur (l : list (string * Json)) :
  NoDup l.*1 → NoDup (Name <$> omap (other_entry cur) l).
Proof.
  induction l as [|[k v] l IH]; simpl; intros Hnd; [constructor|].
  apply NoDup_cons in Hnd as [Hk Hnd]. specialize (IH Hnd).
  unfold other_entry at 1. simpl. destruct v; try done.
  case_decide; [done|]. simpl. constructor; [|done].
  intros (c & Hc & [[k' v'] [Hin Ho]]%list_elem_of_omap)%list_elem_of_fmap.
  apply Hk. apply list_elem_of_fmap. exists (k', v'). split; [|done].
  unfold other_entry in Ho. simpl in *. destruct v'; try discriminate.
  case_decide; [discriminate|]. by simplify_eq.
Qed.

(** C10. For a readable store whose "contexts" member is an object,
    [ListContexts] returns the entry of the current context first, when the
    store has one, followed by the entries of all other contexts in
    strictly ascending order of name; an entry's [Current] flag is set
    exactly when its name is the stored current-context value. The
    contexts are the members of "contexts" stored as objects; the current
    context value is the "current-context" string (empty when it is not a
    string). *)
Theorem ListContexts_current_first_then_sorted (W : World) (s : Service)
    (cfg : Config) (ctxs : gmap string Json) :
  file s = FileDoc cfg →
  cfg !! "contexts" = Some (JObj ctxs) →
  let cur := str_or_empty (cfg !! "current-context") in
  let first := match ctxs !! cur with
               | Some (JObj d) => [context_entry cur cur d]
               | _ => []
               end in
  ∃ rest,
    ListContexts W s = (Ok (first ++ rest), s) ∧
    StronglySorted name_lt rest ∧
    (∀ c, c ∈ rest ↔
          ∃ d, ctxs !! Name c = Some (JObj d) ∧ Name c ≠ cur ∧
               c = context_entry cur (Name c) d) ∧
    (∀ c, c ∈ first ++ rest → (Current c = true ↔ Name c = cur)).
Proof.
  intros Hf Hc cur first.
  set (others := omap (other_entry cur) (map_to_list ctxs)).
  exists (sort_Slice name_less others).
  assert (Hmem : ∀ c, c ∈ sort_Slice name_less others ↔
            ∃ d, ctxs !! Name c = Some (JObj d) ∧ Name c ≠ cur ∧
                 c = context_entry cur (Name c) d).
  { intros c. rewrite (sort_Slice_perm name_less others). unfold others.
    rewrite list_elem_of_omap. split.
    - intros ([k v] & Hkv%elem_of_map_to_list & Ho).
      unfold other_entry in Ho. simpl in Ho. destruct v; try discriminate.
      case_decide; [discriminate|]. simplify_eq. simpl. eauto.
    - intros (d & Hd & Hne & ->). simpl in *. exists (Name c, JObj d). split.
      + by apply elem_of_map_to_list.
      + unfold other_entry. simpl. by case_decide. }
  split; [|split; [|split]].
  - unfold ListContexts. unfold_M. rewrite (readConfig_doc _ _ _ Hf), ?lookup_Map, ?entries_Map, Hc. simpl.
    fold cur. rewrite ListContexts_loop, current_entry_last. simpl.
    fold others. unfold first.
    destruct (ctxs !! cur) as [[]|]; reflexivity.
  - apply Sorted_StronglySorted; [apply _|].
    apply sort_Slice_sorted, other_entry_names, NoDup_fst_map_to_list.
  - exact Hmem.
  - intros c [Hin|Hin]%elem_of_app.
    + unfold first in Hin. destruct (ctxs !! cur) as [[]|];
        try (by apply elem_of_nil in Hin).
      apply list_elem_of_singleton in Hin as ->. simpl.
      rewrite bool_decide_eq_true. done.
    + apply Hmem in Hin as (d & _ & Hne & ->). simpl.
      rewrite bool_decide_eq_true. done.
Qed.

Lemma ListContexts_current_first_then_sorted_witness :
  ∃ rest,
    ListContexts W_ok (NewDockerService (FileDoc prod_doc))
    = (Ok ({| Name := "prod"; Type_ := "tcp"; Host := "tcp://10.0.0.5:2375";
              Current := true |} :: rest),
       NewDockerService (FileDoc prod_doc)) ∧
    StronglySorted name_lt rest.
Proof.
  destruct (ListContexts_current_first_then_sorted W_ok
              (NewDockerService (FileDoc prod_doc)) prod_doc
              (<["prod" := tcp_ctx "tcp://10.0.0.5:2375"]>
                 (<["dev" := tcp_ctx "tcp://10.0.0.9:2375"]> ∅))
              eq_refl eq_refl) as (rest & Hl & Hs & _).
  exists rest. split; [exact Hl|exact Hs].
Defined.
Example ListContexts_prod :
  (ListContexts W_ok (NewDockerService (FileDoc prod_doc))).1
  = Ok [ {| Name := "prod"; Type_ := "tcp"; Host := "tcp://10.0.0.5:2375"; Current := true |};
         {| Name := "dev"; Type_ := "tcp"; Host := "tcp://10.0.0.9:2375"; Current := false |} ].
Proof. vm_compute. reflexivity. Qed.

Example getClient_prod :
  (getClient W_ok "prod" (NewDockerService (FileDoc prod_doc))).1
  = Ok {| cid := 0; chost := "tcp://10.0.0.5:2375" |}.
Proof. vm_compute. reflexivity. Qed.

(** ** The outbound goroutine *)










(** A failed write ends the goroutine with the chunk undelivered. *)
Lemma outbound_iter_write_error P b chunk e :
  nonempty chunk →
  ws_write_err P (length (events b)) = Some e →
  outbound_iter P (ok_read chunk) b = (Return e, record (BErrChan e) b).
Proof.
  intros Hne Hw. unfold outbound_iter, ws_WriteMessage. simpl.
  case_decide; [|done]. by rewrite Hw.
Qed.

(** ** Sessions *)

Lemma happened_snoc p l e : happened p l → happened p (l ++ [e]).
Proof. unfold happened. rewrite existsb_app. by intros ->. Qed.

Lemma happened_here p l e : p e = true → happened p (l ++ [e]).
Proof.
  unfold happened. rewrite existsb_app. simpl. intros ->.
  by rewrite orb_true_r.
Qed.

Lemma happened_lookup p l :
  happened p l → ∃ j e, l !! j = Some e ∧ p e = true.
Proof.
  unfold happened. intros (e & Hin & Hp)%existsb_exists.
  apply list_elem_of_In, list_elem_of_lookup in Hin as [j Hj]. eauto.
Qed.

Lemma preceded_by_nil p q : preceded_by p q [].
Proof. intros i e Hl. by rewrite lookup_nil in Hl. Qed.

Lemma preceded_by_snoc p q l e :
  preceded_by p q l → (q e = true → happened p l) → preceded_by p q (l ++ [e]).
Proof.
  intros Hl He i e' Hi Hq.
  destruct (decide (i < length l)) as [Hlt|Hge].
  - rewrite lookup_app_l in Hi by done.
    destruct (Hl i e' Hi Hq) as (j & e'' & Hj & Hlj & Hp).
    exists j, e''. rewrite lookup_app_l by lia. auto.
  - rewrite lookup_app_r in Hi by lia.
    destruct (i - length l) as [|n] eqn:Hn; simpl in Hi; [|by rewrite lookup_nil in Hi].
    simplify_eq. destruct (happened_lookup _ _ (He Hq)) as (j & e'' & Hj & Hp).
    exists j, e''. pose proof (lookup_lt_Some _ _ _ Hj).
    rewrite lookup_app_l by done. split; [lia|done].
Qed.

Lemma preceded_by_snoc_other p q l e :
  preceded_by p q l → q e = false → preceded_by p q (l ++ [e]).
Proof. intros Hl Hq. apply preceded_by_snoc; [done|]. by rewrite Hq. Qed.

Lemma getClient_keeps W name s n :
  is_Some (clients s !! n) → is_Some (clients (getClient W name s).2 !! n).
Proof.
  intros Hn. unfold getClient. destruct (clients s !! name) eqn:Hm; [done|].
  unfold_M. unfold cacheClient. unfold_M.
  destruct (getClient_create W name s) as [[c|e] s0] eqn:Hc; simpl.
  - apply getClient_create_ok in Hc as (_ & _ & -> & _).
    apply lookup_insert_is_Some. destruct (decide (name = n)); auto.
  - apply getClient_create_err in Hc as [-> _]. done.
Qed.

(** A call through the registry: the state is the one [getClient] leaves,
    and the daemon's answer is returned when a client was found. *)
Lemma via_getClient {A} W name (answer : Result A) s :
  (cli ← getClient W name; backend answer) s
  = (match (getClient W name s).1 with
     | Ok _ => answer
     | Err e => Err e
     end, (getClient W name s).2).
Proof.
  unfold_M. destruct (getClient W name s) as [[c|e] s0]; reflexivity.
Qed.

Lemma via_getClient_cached {A} W name (answer : Result A) s :
  is_Some (clients s !! name) →
  (cli ← getClient W name; backend answer) s = (answer, s).
Proof.
  intros [c Hc]. rewrite via_getClient, (getClient_hit _ _ _ _ Hc). reflexivity.
Qed.

Lemma via_getClient_wrapped {A} W name wrap (answer : Result A) s :
  (cli ← getClient W name; wrapped wrap (backend answer)) s
  = (match (getClient W name s).1 with
     | Ok _ => match answer with
               | Ok a => Ok a
               | Err e => Err (wrap e)
               end
     | Err e => Err e
     end, (getClient W name s).2).
Proof.
  unfold wrapped. unfold_M.
  destruct (getClient W name s) as [[c|e] s0]; [destruct answer|]; reflexivity.
Qed.

Lemma via_getClient_wrapped_cached {A} W name wrap (answer : Result A) s :
  is_Some (clients s !! name) →
  (cli ← getClient W name; wrapped wrap (backend answer)) s
  = (match answer with
     | Ok a => Ok a
     | Err e => Err (wrap e)
     end, s).
Proof.
  intros [c Hc]. rewrite via_getClient_wrapped, (getClient_hit _ _ _ _ Hc).
  reflexivity.
Qed.

Lemma ResizeExec_cached W name execID rows cols s cli :
  clients s !! name = Some cli →
  ResizeExec W name execID rows cols s
  = (if resize_ok W (to_uint rows) (to_uint cols) then Ok tt else Err ErrBackend,
     emit (EvExecResize cli execID (to_uint rows) (to_uint cols)) s).
Proof.
  intros Hc. unfold ResizeExec, ContainerExecResize. unfold_M.
  rewrite (getClient_hit _ _ _ _ Hc). reflexivity.
Qed.

Lemma ResizeExec_keeps W name execID rows cols s n :
  is_Some (clients s !! n) →
  is_Some (clients (ResizeExec W name execID rows cols s).2 !! n).
Proof.
  intros Hn. unfold ResizeExec, ContainerExecResize. unfold_M.
  pose proof (getClient_keeps W name s n Hn) as Hk.
  destruct (getClient W name s) as [[c|e] s0]; simpl in *; done.
Qed.

Section SessionFacts.

Variable W : World.
Variable P : Peers.
Variables contextName id : string.

Lemma session_inv_start s : session_inv contextName (start_session s).
Proof.
  constructor; simpl; try done; try apply preceded_by_nil;
    try (intros []; done); try (intros [|[|]]; done).
  right. auto.
Qed.

Ltac solve_happened :=
  repeat first [ assumption
               | apply happened_here; reflexivity
               | apply happened_snoc ];
  auto.

Ltac solve_prec :=
  repeat first [ assumption
               | apply preceded_by_snoc_other; [|reflexivity]
               | apply preceded_by_snoc; [|intros _; solve_happened] ].

Ltac use_pcs :=
  repeat match goal with
         | H : ?c → _ |- _ =>
             specialize (H ltac:(first [ congruence | left; congruence
                                       | right; congruence
                                       | right; left; congruence
                                       | right; right; congruence ]))
         end.

Ltac solve_field :=
  unfold set_main, record, with_svc; simpl;
  first [ by (intros; solve_happened)
        | by (intros [?|?]; first [ discriminate | solve_happened ])
        | by (intros [?|[?|?]]; first [ discriminate | solve_happened ])
        | by (intros ?; first [ discriminate | solve_happened ])
        | by solve_prec ].

Lemma cached_step a σ σ' :
  session_step W P contextName id a σ = Some σ' →
  cached contextName σ → cached contextName σ'.
Proof.
  unfold cached. intros Hstep Hc.
  destruct a as [answer| |r|r]; simpl in Hstep.
  - unfold main_step, CreateExec, AttachExec, StartExec, report, ws_WriteMessage
      in Hstep.
    destruct (main_pc σ);
      rewrite ?via_getClient_cached, ?via_getClient_wrapped_cached in Hstep by done;
      try destruct answer; simpl in Hstep;
      repeat match type of Hstep with
             | context [match ?x with _ => _ end] => destruct x
             end; simplify_eq; simpl; done.
  - destruct (main_pc σ); simplify_eq; simpl; done.
  - destruct (out_pc σ); try discriminate.
    unfold outbound_iter, ws_WriteMessage in Hstep.
    destruct (rr_err r) as [e|];
      [|destruct (decide _); [destruct (ws_write_err P _)|]];
      simplify_eq; simpl; done.
  - destruct (in_pc σ); try discriminate.
    unfold inbound_iter, handle_Write in Hstep.
    destruct r as [e|[] p]; simpl in Hstep; simplify_eq; simpl; try done.
    destruct (json_Unmarshal P p) as [msg|]; simplify_eq; simpl; try done.
    repeat case_decide; simplify_eq; simpl; try done.
    + destruct (handle_write_err P _); simplify_eq; simpl; done.
    + by apply ResizeExec_keeps.
Qed.

Lemma session_inv_cached a σ σ' :
  session_inv contextName σ →
  session_step W P contextName id a σ = Some σ' →
  cached contextName σ' ∨
  ((main_pc σ' = MUpgrade ∨ main_pc σ' = MCreateExec ∨ main_pc σ' = MReturned)
   ∧ out_pc σ' = NotStarted ∧ in_pc σ' = NotStarted).
Proof.
  intros Hinv Hstep.
  destruct (inv_cached _ _ Hinv) as [Hc|(Hm & Hop & Hip)].
  { left. eapply cached_step; eauto. }
  destruct a as [answer| |r|r]; simpl in Hstep.
  - unfold main_step in Hstep.
    destruct Hm as [Hm|[Hm|Hm]]; rewrite Hm in Hstep; [| |done].
    { right. destruct answer; simplify_eq; simpl; auto. }
    unfold CreateExec in Hstep. rewrite via_getClient in Hstep.
    destruct (getClient W contextName (svc (bridge σ))) as [[c|e] s1] eqn:Hg;
      simpl in Hstep.
    + left. unfold cached. apply getClient_ok in Hg.
      unfold report, ws_WriteMessage in Hstep.
      destruct answer; simpl in Hstep; try destruct (ws_write_err P _);
        simplify_eq; simpl; eauto.
    + right. unfold report, ws_WriteMessage in Hstep. simpl in Hstep.
      destruct (ws_write_err P _); simplify_eq; simpl; auto.
  - destruct Hm as [Hm|[Hm|Hm]]; rewrite Hm in Hstep; done.
  - by rewrite Hop in Hstep.
  - by rewrite Hip in Hstep.
Qed.

Lemma session_inv_step a σ σ' :
  session_inv contextName σ →
  session_step W P contextName id a σ = Some σ' →
  session_inv contextName σ'.
Proof.
  intros Hinv Hstep.
  pose proof (session_inv_cached _ _ _ Hinv Hstep) as Hc'.
  destruct Hinv as [Ho Hi Ha Hgo Hgi Hc P1 P2 P3 P4 P5 Hcr P6].
  destruct a as [answer| |r|r]; simpl in Hstep.
  - unfold main_step, CreateExec, AttachExec, StartExec in Hstep.
    rewrite ?via_getClient, ?via_getClient_wrapped in Hstep.
    unfold report, ws_WriteMessage in Hstep.
    destruct (main_pc σ) eqn:Hpc; try discriminate; use_pcs;
      try (destruct (getClient W contextName (svc (bridge σ))) as [[c|e] s1];
           simpl in Hstep);
      try destruct answer; simpl in Hstep;
      try destruct (ws_write_err P _); try destruct (has_BErrChan _);
      simplify_eq; constructor; try exact Hc'; solve_field.
  - destruct (main_pc σ) eqn:Hpc; try discriminate; use_pcs.
    simplify_eq; constructor; try exact Hc'; solve_field.
  - destruct (out_pc σ) eqn:Hop; try discriminate; use_pcs.
    unfold outbound_iter, ws_WriteMessage in Hstep.
    destruct (rr_err r) as [e|];
      [|destruct (decide _); [destruct (ws_write_err P _)|]];
      simplify_eq; constructor; try exact Hc'; solve_field.
  - destruct (in_pc σ) eqn:Hip; try discriminate; use_pcs.
    unfold inbound_iter, handle_Write in Hstep.
    destruct r as [e|[] p]; simpl in Hstep;
      [|destruct (json_Unmarshal P p) as [msg|];
        [repeat case_decide; [destruct (handle_write_err P _)|..]|]|];
      simplify_eq; constructor; try exact Hc'; solve_field.
Qed.

Lemma session_inv_run acts σ σ' :
  session_inv contextName σ →
  run_session W P contextName id acts σ = Some σ' →
  session_inv contextName σ'.
Proof.
  revert σ. induction acts as [|a acts IH]; intros σ Hinv; simpl.
  { intros Heq. by simplify_eq. }
  destruct (session_step W P contextName id a σ) as [σ1|] eqn:Hstep; [|done].
  apply IH. eapply session_inv_step; eauto.
Qed.

End SessionFacts.

(** C2, as stated, fails: both goroutines are started before [StartExec]
    is called. Here the operator's input reaches the process and a chunk
    of output reaches the operator, then [StartExec] fails: bytes were
    relayed although the start call never succeeded. *)
Lemma relay_before_start :
  ∃ σ,
    run_session W_ok demo_peers "prod" "c1"
      (launched ++
       [ActInbound (WsReadMsg TextMessage (String.list_byte_of_string input_ls_text));
        ActOutbound (ok_read [Byte.x24]);
        ActMain (Err ErrBackend)])
      (start_session (NewDockerService (FileDoc prod_doc))) = Some σ ∧
    events (bridge σ)
    = [BUpgrade true;
       BCreateExec (Ok "exec1"); BAttachExec (Ok tt); BGoOutbound; BGoInbound;
       BHandleWrite (String.list_byte_of_string "ls");
       BWsWrite BinaryMessage [Byte.x24];
       BStartExec (Err (ErrStartExec ErrBackend));
       BWsWrite TextMessage
         (error_text "Error starting exec: " (ErrStartExec ErrBackend));
       BCloseHandle; BCloseWs] ∧
    ¬ preceded_by is_start_ok is_relay (events (bridge σ)).
Proof.
  eexists. split; [vm_compute; reflexivity|]. split; [reflexivity|].
  intros Hp. destruct (Hp 5 (BHandleWrite (String.list_byte_of_string "ls")))
    as (j & e & Hj & He & Hs); [reflexivity|reflexivity|].
  do 5 (destruct j as [|j]; [simpl in He; simplify_eq; discriminate|]). lia.
Qed.

(** C2, amended. In every execution of the handler: a goroutine is started
    only after the exec instance was created and the attach succeeded;
    bytes are relayed in a direction only after the goroutine of that
    direction was started; the start call is issued only after both
    goroutines were started (so a relay may come before it). When the start
    call fails, the handler writes the error as a text frame to the
    operator connection (unless that write fails) and returns, closing the
    process handle and then the operator connection; the frame is "Error
    starting exec: failed to start exec: ", the daemon's error and a
    newline. *)
Theorem session_order (W : World) (P : Peers) (contextName id : string)
    (s : Service) (acts : list Action) (σ : Session) :
  run_session W P contextName id acts (start_session s) = Some σ →
  let ev := events (bridge σ) in
  preceded_by is_create_ok is_go ev ∧
  preceded_by is_attach_ok is_go ev ∧
  preceded_by is_go_out is_binary_out ev ∧
  preceded_by is_go_in is_handle_write ev ∧
  preceded_by is_go_out is_start ev ∧
  preceded_by is_go_in is_start ev ∧
  (main_pc σ = MStartExec →
   ∀ e, ∃ σ' txt,
     session_step W P contextName id (ActMain (Err e)) σ = Some σ' ∧
     main_pc σ' = MReturned ∧
     events (bridge σ')
     = ev ++ [BStartExec (Err (ErrStartExec e))] ++ txt ++ [BCloseHandle; BCloseWs] ∧
     (txt = [BWsWrite TextMessage
               (String.list_byte_of_string
                  ("Error starting exec: failed to start exec: " +:+ errmsg e
                   +:+ newline))] ∨
      txt = [] ∧ is_Some (ws_write_err P (S (length ev))))).
Proof.
  intros Hrun ev.
  pose proof (session_inv_run W P contextName id acts _ _
                (session_inv_start contextName s) Hrun) as Hinv.
  destruct Hinv as [Ho Hi Ha Hgo Hgi Hc P1 P2 P3 P4 P5 Hcr P6].
  split; [assumption|].
  repeat (split; [assumption|]).
  intros Hpc e.
  destruct Hc as [Hc|([Hm|[Hm|Hm]] & _)]; [|congruence..].
  simpl. unfold main_step. rewrite Hpc. unfold StartExec.
  rewrite via_getClient_wrapped_cached by exact Hc. simpl.
  unfold report, ws_WriteMessage, record, with_svc. simpl.
  rewrite length_app. simpl.
  replace (length (events (bridge σ)) + 1) with (S (length ev)) by (unfold ev; lia).
  destruct (ws_write_err P (S (length ev))) as [we|] eqn:Hw.
  - eexists _, []. simpl. split; [reflexivity|]. split; [reflexivity|].
    split; [by rewrite <- !app_assoc|]. right. eauto.
  - eexists _, [_]. simpl. split; [reflexivity|]. split; [reflexivity|].
    split; [by rewrite <- !app_assoc|]. left. reflexivity.
Qed.

Lemma launched_session_run :
  run_session W_ok demo_peers "prod" "c1" launched
    (start_session (NewDockerService (FileDoc prod_doc))) = Some launched_session.
Proof. vm_compute. reflexivity. Qed.

Lemma session_order_witness :
  preceded_by is_create_ok is_go (events (bridge launched_session)) ∧
  preceded_by is_go_out is_start (events (bridge launched_session)) ∧
  ∃ σ' txt,
    session_step W_ok demo_peers "prod" "c1" (ActMain (Err ErrBackend))
      launched_session = Some σ' ∧
    main_pc σ' = MReturned ∧
    events (bridge σ')
    = events (bridge launched_session) ++ [BStartExec (Err (ErrStartExec ErrBackend))]
      ++ txt ++ [BCloseHandle; BCloseWs].
Proof.
  destruct (session_order W_ok demo_peers "prod" "c1" _ _ _ launched_session_run)
    as (Hcreate & _ & _ & _ & Hstart & _ & Hfail).
  split; [exact Hcreate|]. split; [exact Hstart|].
  destruct (Hfail eq_refl ErrBackend) as (σ' & txt & Hstep & Hm & Hev & _).
  exists σ', txt. auto.
Defined.

(** ** Inbound frames *)

(** C7. In a session whose inbound goroutine is running: a text frame that
    does not decode into the control-message struct changes nothing and the
    goroutine goes on to its next read; a frame of type "resize" makes one
    [ContainerExecResize] call, with the frame's rows and columns, and the
    goroutine goes on to its next read without reporting anything on the
    error channel, whether or not the daemon accepts the resize. *)
Theorem inbound_frame_tolerance (W : World) (P : Peers) (contextName id : string)
    (s : Service) (acts : list Action) (σ : Session) (p : bytes) :
  run_session W P contextName id acts (start_session s) = Some σ →
  in_pc σ = Running →
  (json_Unmarshal P p = None →
   session_step W P contextName id (ActInbound (WsReadMsg TextMessage p)) σ = Some σ) ∧
  (∀ msg, json_Unmarshal P p = Some msg → msg_Type msg = "resize" →
   ∃ cli σ',
     clients (svc (bridge σ)) !! contextName = Some cli ∧
     session_step W P contextName id (ActInbound (WsReadMsg TextMessage p)) σ = Some σ' ∧
     in_pc σ' = Running ∧ main_pc σ' = main_pc σ ∧ out_pc σ' = out_pc σ ∧
     events (bridge σ') = events (bridge σ) ∧
     log (svc (bridge σ'))
     = log (svc (bridge σ))
       ++ [EvExecResize cli (exec_id σ) (to_uint (msg_Rows msg)) (to_uint (msg_Cols msg))]).
Proof.
  intros Hrun Hin.
  pose proof (session_inv_run W P contextName id acts _ _
                (session_inv_start contextName s) Hrun) as Hinv.
  split.
  - intros Hbad. simpl. rewrite Hin. simpl. rewrite Hbad.
    destruct σ. simpl in *. by subst.
  - intros msg Hmsg Hty.
    destruct (inv_cached _ _ Hinv) as [[cli Hc]|(_ & _ & Hn)]; [|congruence].
    exists cli. eexists. split; [exact Hc|]. simpl. rewrite Hin. simpl.
    rewrite Hmsg, Hty. simpl.
    rewrite (ResizeExec_cached _ _ _ _ _ _ _ Hc). simpl.
    repeat split; reflexivity.
Qed.

(** After the goroutines are started, a resize the daemon refuses. *)
Lemma inbound_frame_tolerance_witness :
  let σ := default (start_session (NewDockerService (FileDoc prod_doc)))
             (run_session W_no_resize demo_peers "prod" "c1" launched
                (start_session (NewDockerService (FileDoc prod_doc)))) in
  ∃ σ',
    session_step W_no_resize demo_peers "prod" "c1"
      (ActInbound (WsReadMsg TextMessage (String.list_byte_of_string resize_text))) σ
    = Some σ' ∧
    in_pc σ' = Running ∧
    events (bridge σ') = events (bridge σ) ∧
    resizes (log (svc (bridge σ')))
    = [EvExecResize {| cid := 0; chost := "tcp://10.0.0.5:2375" |} "exec1" 24 80].
Proof.
  intros σ.
  assert (Hrun : run_session W_no_resize demo_peers "prod" "c1" launched
                   (start_session (NewDockerService (FileDoc prod_doc))) = Some σ).
  { vm_compute. reflexivity. }
  destruct (inbound_frame_tolerance W_no_resize demo_peers "prod" "c1" _ _ σ
              (String.list_byte_of_string resize_text) Hrun eq_refl)
    as [_ Hresize].
  destruct (Hresize {| msg_Type := "resize"; msg_Data := ""; msg_Cols := 80;
                       msg_Rows := 24 |} eq_refl eq_refl)
    as (cli & σ' & Hc & Hstep & Hin & _ & _ & Hev & Hlog).
  exists σ'. repeat split; try assumption.
  rewrite Hlog. vm_compute in Hc. simplify_eq. vm_compute. reflexivity.
Defined.

(** * Further properties of the code *)

(** ** Creating and reading descriptors *)

Lemma GetContextConfig_doc W name s cfg ctxs d h :
  file s = FileDoc cfg →
  cfg !! "contexts" = Some (JObj ctxs) →
  ctxs !! name = Some (JObj d) →
  d !! "host" = Some (JStr h) →
  GetContextConfig W name s = (Ok h, s).
Proof.
  intros Hf Hc Hn Hh. unfold GetContextConfig. unfold_M.
  rewrite (readConfig_doc _ _ _ Hf), ?lookup_Map, ?entries_Map, Hc. simpl. rewrite Hn. simpl.
  by rewrite Hh.
Qed.

Lemma descriptor_host config :
  match descriptor config with
  | JObj d => d !! "host" = Some (JStr (Host config))
  | _ => False
  end.
Proof. simpl. rewrite lookup_insert_ne by done. apply lookup_insert_eq. Qed.

(** [CreateContext] once the document has been read. *)
Lemma CreateContext_read W config s s1 cfg :
  readConfig W s = (Ok (Map cfg), s1) →
  CreateContext W config s
  = saveConfig W (<["contexts" :=
                     JObj (<[Name config := descriptor config]>
                             (default ∅ (as_obj (cfg !! "contexts"))))]> cfg) s1.
Proof.
  intros Hr. unfold CreateContext. unfold_M. rewrite Hr, lookup_Map.
  destruct (as_obj (cfg !! "contexts")) as [ctxs|] eqn:Hc; simpl.
  - by rewrite Hc.
  - by rewrite lookup_insert_eq, insert_insert_eq.
Qed.

(** What a successful [CreateContext] leaves in the file. *)
Lemma CreateContext_file W config s cfg :
  write_ok W = true →
  stored_config s = Some cfg →
  let cfg' := <["contexts" :=
                 JObj (<[Name config := descriptor config]>
                         (default ∅ (as_obj (cfg !! "contexts"))))]> cfg in
  CreateContext W config s
  = (Ok tt, emit (EvWriteFile cfg')
              (set_file (FileDoc cfg')
                 (if file s is FileMissing
                  then emit (EvWriteFile defaultConfig)
                         (set_file (FileDoc defaultConfig) s)
                  else s))).
Proof.
  intros Hw Hs cfg'. unfold stored_config in Hs.
  destruct (file s) eqn:Hf; simplify_eq.
  - erewrite CreateContext_read.
    2: { unfold readConfig, writeFile. unfold_M. rewrite Hf, Hw. reflexivity. }
    unfold saveConfig, writeFile. by rewrite Hw.
  - erewrite CreateContext_read by (by apply readConfig_doc).
    unfold saveConfig, writeFile. by rewrite Hw.
Qed.

(** X1. Creating a context and reading its configuration back returns the
    host that was given, whenever the store file holds a JSON object (or
    does not exist yet) and can be written; this holds whether or not the
    name existed before and whatever the "contexts" member was. When the
    file holds the JSON text null the call panics on the assignment to the
    nil map and nothing is written; when the file cannot be read or decoded
    the read error is returned. *)
Theorem CreateContext_then_GetContextConfig (W W' : World)
    (config : ContextConfig) (s : Service) :
  (write_ok W = true →
   file s ≠ FileBad → file s ≠ FileNull →
   ∃ s', CreateContext W config s = (Ok tt, s') ∧
         GetContextConfig W' (Name config) s' = (Ok (Host config), s')) ∧
  (file s = FileNull → CreateContext W config s = (Err NilMapPanic, s)) ∧
  (file s = FileBad → CreateContext W config s = (Err ErrIO, s)).
Proof.
  split; [|split].
  - intros Hw Hf Hnull.
    destruct (stored_config s) as [cfg|] eqn:Hs.
    2: { unfold stored_config in Hs. destruct (file s); done. }
    eexists. split; [by apply CreateContext_file|].
    eapply GetContextConfig_doc.
    + reflexivity.
    + apply lookup_insert_eq.
    + apply lookup_insert_eq.
    + simpl. rewrite lookup_insert_ne by done. apply lookup_insert_eq.
  - intros Hf. unfold CreateContext, readConfig. unfold_M. by rewrite Hf.
  - intros Hf. unfold CreateContext, readConfig. unfold_M. by rewrite Hf.
Qed.

Lemma CreateContext_then_GetContextConfig_witness :
  (∃ s', CreateContext W_ok prod_to_6 (NewDockerService FileMissing) = (Ok tt, s') ∧
         GetContextConfig W_ok "prod" s' = (Ok "tcp://10.0.0.6:2375", s')) ∧
  CreateContext W_ok prod_to_6 (NewDockerService FileNull)
  = (Err NilMapPanic, NewDockerService FileNull).
Proof.
  split.
  - apply (CreateContext_then_GetContextConfig W_ok W_ok prod_to_6
             (NewDockerService FileMissing)); [reflexivity|discriminate..].
  - by apply (CreateContext_then_GetContextConfig W_ok W_ok prod_to_6
                (NewDockerService FileNull)).
Defined.

(** X2. [CreateContext] never builds or caches a client, never changes
    DOCKER_HOST, and when it succeeds the stored current-context member is
    what it was (the one of the default document when there was no file). *)
Theorem CreateContext_only_writes_descriptor (W : World) (config : ContextConfig)
    (s s' : Service) (r : Result unit) :
  CreateContext W config s = (r, s') →
  clients s' = clients s ∧
  opened (log s') = opened (log s) ∧
  DOCKER_HOST s' = DOCKER_HOST s ∧
  (r = Ok tt →
   ∃ cfg cfg', stored_config s = Some cfg ∧ file s' = FileDoc cfg' ∧
               cfg' !! "current-context" = cfg !! "current-context").
Proof.
  unfold stored_config. destruct (file s) eqn:Hf.
  - destruct (write_ok W) eqn:Hw.
    + erewrite CreateContext_read.
      2: { unfold readConfig, writeFile. unfold_M. rewrite Hf, Hw. reflexivity. }
      unfold saveConfig, writeFile. rewrite Hw. intros Heq. simplify_eq. simpl.
      rewrite !opened_snoc. simpl. repeat split; try lia.
      intros _. eexists _, _. split; [reflexivity|]. split; [reflexivity|].
      by rewrite lookup_insert_ne.
    + unfold CreateContext, readConfig, writeFile. unfold_M. rewrite Hf, Hw.
      intros Heq. by simplify_eq.
  - unfold CreateContext, readConfig. unfold_M. rewrite Hf.
    intros Heq. by simplify_eq.
  - unfold CreateContext, readConfig, assign. unfold_M. rewrite Hf. simpl.
    intros Heq. by simplify_eq.
  - erewrite CreateContext_read by (by apply readConfig_doc).
    unfold saveConfig, writeFile. destruct (write_ok W); intros Heq; simplify_eq.
    + simpl. rewrite opened_snoc. simpl. repeat split; try lia.
      intros _. eexists _, _. split; [reflexivity|]. split; [reflexivity|].
      by rewrite lookup_insert_ne.
    + done.
Qed.

Lemma CreateContext_only_writes_descriptor_witness :
  let s := (getClient W_ok "prod" (NewDockerService (FileDoc prod_doc))).2 in
  clients (CreateContext W_ok prod_to_6 s).2 = clients s ∧
  opened (log (CreateContext W_ok prod_to_6 s).2) = opened (log s).
Proof.
  intros s.
  destruct (CreateContext_only_writes_descriptor W_ok prod_to_6 s _ _
              (surjective_pairing _)) as (Hc & Ho & _).
  split; [exact Hc|exact Ho].
Defined.

Lemma GetContextConfig_read W name s cfg :
  file s = FileDoc cfg →
  (GetContextConfig W name s).1
  = match as_obj (cfg !! "contexts") with
    | None => Err ErrNoContexts
    | Some contexts =>
        match as_obj (contexts !! name) with
        | None => Err (ErrNotFound name)
        | Some contextConfig =>
            match as_str (contextConfig !! "host") with
            | None => Err (ErrInvalidHost name)
            | Some host => Ok host
            end
        end
    end.
Proof.
  intros Hf. unfold GetContextConfig. unfold_M.
  rewrite (readConfig_doc _ _ _ Hf), lookup_Map.
  destruct (as_obj (cfg !! "contexts")) as [ctxs|]; [|done].
  destruct (as_obj (ctxs !! name)) as [d|]; [|done].
  by destruct (as_str (d !! "host")).
Qed.

(** X3. What a successful [CreateContext] does to the other contexts.
    When the "contexts" member of the stored document is an object, every
    other stored context is left as it was: for any other name,
    [GetContextConfig] answers after the call what it answered before. When
    that member is missing or is not an object, the call puts in its place
    an object holding the new context alone, and the answer for any other
    name changes from "no contexts found" to "not found". When there was no
    file, any other name is "not found" afterwards. *)
Theorem CreateContext_keeps_other_contexts (W W' : World) (config : ContextConfig)
    (s s' : Service) (other : string) :
  other ≠ Name config →
  CreateContext W config s = (Ok tt, s') →
  (∀ cfg ctxs, file s = FileDoc cfg → cfg !! "contexts" = Some (JObj ctxs) →
     (GetContextConfig W' other s').1 = (GetContextConfig W' other s).1) ∧
  (∀ cfg, file s = FileDoc cfg → as_obj (cfg !! "contexts") = None →
     (GetContextConfig W' other s).1 = Err ErrNoContexts ∧
     (GetContextConfig W' other s').1 = Err (ErrNotFound other)) ∧
  (file s = FileMissing →
     (GetContextConfig W' other s').1 = Err (ErrNotFound other)) ∧
  (file s = FileMissing ∨ ∃ cfg, file s = FileDoc cfg).
Proof.
  intros Hne Hcreate.
  assert (Hafter : ∀ cfg s1, readConfig W s = (Ok (Map cfg), s1) →
            (GetContextConfig W' other s').1
            = match as_obj (default ∅ (as_obj (cfg !! "contexts")) !! other) with
              | None => Err (ErrNotFound other)
              | Some contextConfig =>
                  match as_str (contextConfig !! "host") with
                  | None => Err (ErrInvalidHost other)
                  | Some host => Ok host
                  end
              end).
  { intros cfg s1 Hr. rewrite (CreateContext_read _ _ _ _ _ Hr) in Hcreate.
    unfold saveConfig, writeFile in Hcreate.
    destruct (write_ok W); [|done]. simplify_eq.
    erewrite GetContextConfig_read by reflexivity.
    rewrite lookup_insert_eq. simpl. by rewrite lookup_insert_ne. }
  split; [|split; [|split]].
  - intros cfg ctxs Hf Hc.
    rewrite (Hafter cfg s (readConfig_doc _ _ _ Hf)).
    rewrite (GetContextConfig_read _ _ _ _ Hf), Hc. reflexivity.
  - intros cfg Hf Hc.
    rewrite (Hafter cfg s (readConfig_doc _ _ _ Hf)).
    rewrite (GetContextConfig_read _ _ _ _ Hf), Hc. simpl.
    by rewrite lookup_empty.
  - intros Hf.
    assert (Hw : write_ok W = true).
    { revert Hcreate. unfold CreateContext, readConfig, writeFile. unfold_M.
      rewrite Hf. by destruct (write_ok W). }
    erewrite Hafter.
    2: { unfold readConfig, writeFile. unfold_M. rewrite Hf, Hw. reflexivity. }
    unfold defaultConfig. rewrite lookup_insert_eq. simpl. by rewrite lookup_empty.
  - revert Hcreate. unfold CreateContext, readConfig. unfold_M.
    destruct (file s); try done; eauto.
Qed.

(** An object of contexts is kept; a "contexts" member that is a string is
    replaced. *)
Lemma CreateContext_keeps_other_contexts_witness :
  (GetContextConfig W_ok "dev"
     (CreateContext W_ok prod_to_6 (NewDockerService (FileDoc prod_doc))).2).1
  = Ok "tcp://10.0.0.9:2375" ∧
  (GetContextConfig W_ok "dev"
     (NewDockerService (FileDoc (<["contexts" := JStr "none"]> ∅)))).1
  = Err ErrNoContexts ∧
  (GetContextConfig W_ok "dev"
     (CreateContext W_ok prod_to_6
        (NewDockerService (FileDoc (<["contexts" := JStr "none"]> ∅)))).2).1
  = Err (ErrNotFound "dev").
Proof.
  split.
  - destruct (CreateContext_keeps_other_contexts W_ok W_ok prod_to_6
                (NewDockerService (FileDoc prod_doc)) _ "dev"
                ltac:(discriminate) (surjective_pairing _)) as (Hkeep & _).
    rewrite (Hkeep prod_doc _ eq_refl eq_refl). vm_compute. reflexivity.
  - destruct (CreateContext_keeps_other_contexts W_ok W_ok prod_to_6
                (NewDockerService (FileDoc (<["contexts" := JStr "none"]> ∅))) _ "dev"
                ltac:(discriminate) (surjective_pairing _)) as (_ & Hrepl & _).
    apply (Hrepl _ eq_refl). vm_compute. reflexivity.
Defined.

(** ** Updating a context that is not the current one *)

(** X4. A successful [UpdateContextConfig] on a context that is not the
    current one rewrites the descriptor and nothing else: no client is
    built, the client map is unchanged, and a client already cached for
    the name, bound to the old host, is what [getClient] keeps returning
    although [GetContextConfig] now reports the new host. *)
Theorem UpdateContextConfig_other_keeps_client (W W' : World) (name : string)
    (config : ContextConfig) (s : Service) (cfg : Config)
    (ctxs : gmap string Json) (v : Json) (cli : Client) :
  write_ok W = true →
  file s = FileDoc cfg →
  as_str (cfg !! "current-context") ≠ Some name →
  cfg !! "contexts" = Some (JObj ctxs) →
  ctxs !! name = Some v →
  clients s !! name = Some cli →
  ∃ s', UpdateContextConfig W name config s = (Ok tt, s') ∧
        clients s' = clients s ∧
        opened (log s') = opened (log s) ∧
        GetContextConfig W' name s' = (Ok (Host config), s') ∧
        getClient W' name s' = (Ok cli, s').
Proof.
  intros Hw Hf Hcur Hc Hn Hcli. eexists. split.
  { unfold UpdateContextConfig. unfold_M.
    rewrite (readConfig_doc _ _ _ Hf), ?lookup_Map, ?entries_Map, Hc. simpl. rewrite Hn.
    case_decide; [done|]. unfold saveConfig, writeFile. rewrite Hw. reflexivity. }
  simpl. split; [reflexivity|]. split.
  { rewrite opened_snoc. simpl. lia. }
  split.
  - eapply GetContextConfig_doc; [reflexivity|apply lookup_insert_eq
                                  |apply lookup_insert_eq|].
    simpl. rewrite lookup_insert_ne by done. apply lookup_insert_eq.
  - by apply getClient_hit.
Qed.

Lemma UpdateContextConfig_other_keeps_client_witness :
  let s := (getClient W_ok "dev" (NewDockerService (FileDoc prod_doc))).2 in
  ∃ s', UpdateContextConfig W_ok "dev" dev_to_7 s = (Ok tt, s') ∧
        GetContextConfig W_ok "dev" s' = (Ok "tcp://10.0.0.7:2375", s') ∧
        getClient W_ok "dev" s' = (Ok {| cid := 0; chost := "tcp://10.0.0.9:2375" |}, s').
Proof.
  intros s.
  destruct (UpdateContextConfig_other_keeps_client W_ok W_ok "dev" dev_to_7 s prod_doc
              (<["prod" := tcp_ctx "tcp://10.0.0.5:2375"]>
                 (<["dev" := tcp_ctx "tcp://10.0.0.9:2375"]> ∅))
              (tcp_ctx "tcp://10.0.0.9:2375")
              {| cid := 0; chost := "tcp://10.0.0.9:2375" |}
              eq_refl eq_refl ltac:(vm_compute; discriminate) eq_refl eq_refl eq_refl)
    as (s' & Hu & _ & _ & Hg & Hc).
  exists s'. auto.
Defined.

(** X5. Whatever context is updated, once [UpdateContextConfig] has
    returned without error [GetContextConfig] returns the new host. *)
Theorem UpdateContextConfig_then_GetContextConfig (W W' : World) (name : string)
    (config : ContextConfig) (s s' : Service) (cfg : Config) :
  file s = FileDoc cfg →
  UpdateContextConfig W name config s = (Ok tt, s') →
  GetContextConfig W' name s' = (Ok (Host config), s').
Proof.
  intros Hf. unfold UpdateContextConfig. unfold_M.
  rewrite (readConfig_doc _ _ _ Hf), ?lookup_Map, ?entries_Map.
  destruct (cfg !! "contexts") as [[]|] eqn:Hc; simpl; try discriminate.
  destruct (m !! name) eqn:Hn; [|discriminate].
  unfold buildDockerHost, Setenv_DOCKER_HOST, cacheClient, NewClientWithOpts,
    saveConfig, writeFile. unfold_M.
  case_decide; simpl.
  - destruct (host_ok W _); [|discriminate]. simpl.
    destruct (write_ok W); [|discriminate]. intros Heq. simplify_eq.
    eapply GetContextConfig_doc; [reflexivity|apply lookup_insert_eq
                                  |apply lookup_insert_eq|].
    simpl. rewrite lookup_insert_ne by done. apply lookup_insert_eq.
  - destruct (write_ok W); [|discriminate]. intros Heq. simplify_eq.
    eapply GetContextConfig_doc; [reflexivity|apply lookup_insert_eq
                                  |apply lookup_insert_eq|].
    simpl. rewrite lookup_insert_ne by done. apply lookup_insert_eq.
Qed.

Lemma UpdateContextConfig_then_GetContextConfig_witness :
  GetContextConfig W_ok "prod"
    (UpdateContextConfig W_ok "prod" prod_to_6 (NewDockerService (FileDoc prod_doc))).2
  = (Ok "tcp://10.0.0.6:2375",
     (UpdateContextConfig W_ok "prod" prod_to_6 (NewDockerService (FileDoc prod_doc))).2).
Proof.
  apply (UpdateContextConfig_then_GetContextConfig W_ok W_ok "prod" prod_to_6
           (NewDockerService (FileDoc prod_doc)) _ prod_doc eq_refl
           (surjective_pairing _)).
Defined.

(** X6. A name the store does not hold is reported as not found by
    [UpdateContextConfig], by [DeleteContext] (unless it is the stored
    current-context, which is refused first), by [GetContextConfig] and,
    when no client is cached for it, by [getClient]; none of the four
    changes the service. *)
Theorem unknown_context_not_found (W : World) (name : string)
    (config : ContextConfig) (s : Service) (cfg : Config)
    (ctxs : gmap string Json) :
  file s = FileDoc cfg →
  cfg !! "contexts" = Some (JObj ctxs) →
  ctxs !! name = None →
  UpdateContextConfig W name config s = (Err (ErrNotFound name), s) ∧
  GetContextConfig W name s = (Err (ErrNotFound name), s) ∧
  DeleteContext W name s
  = (Err (if decide (as_str (cfg !! "current-context") = Some name)
          then ErrInUse name else ErrNotFound name), s) ∧
  (clients s !! name = None → getClient W name s = (Err (ErrNotFound name), s)).
Proof.
  intros Hf Hc Hn. repeat split.
  - unfold UpdateContextConfig. unfold_M.
    by rewrite (readConfig_doc _ _ _ Hf), ?lookup_Map, ?entries_Map, Hc; simpl; rewrite Hn.
  - unfold GetContextConfig. unfold_M.
    by rewrite (readConfig_doc _ _ _ Hf), ?lookup_Map, ?entries_Map, Hc; simpl; rewrite Hn.
  - unfold DeleteContext. unfold_M. rewrite (readConfig_doc _ _ _ Hf), ?lookup_Map, ?entries_Map.
    case_decide; [reflexivity|]. by rewrite Hc; simpl; rewrite Hn.
  - intros Hm. unfold getClient. rewrite Hm. unfold getClient_create. unfold_M.
    by rewrite (readConfig_doc _ _ _ Hf), ?lookup_Map, ?entries_Map, Hc; simpl; rewrite Hn.
Qed.

Lemma unknown_context_not_found_witness :
  UpdateContextConfig W_ok "nope" dev_to_7 (NewDockerService (FileDoc prod_doc))
  = (Err (ErrNotFound "nope"), NewDockerService (FileDoc prod_doc)) ∧
  DeleteContext W_ok "nope" (NewDockerService (FileDoc prod_doc))
  = (Err (ErrNotFound "nope"), NewDockerService (FileDoc prod_doc)).
Proof.
  destruct (unknown_context_not_found W_ok "nope" dev_to_7
              (NewDockerService (FileDoc prod_doc)) prod_doc
              (<["prod" := tcp_ctx "tcp://10.0.0.5:2375"]>
                 (<["dev" := tcp_ctx "tcp://10.0.0.9:2375"]> ∅))
              eq_refl eq_refl eq_refl) as (Hu & _ & Hd & _).
  split; [exact Hu|exact Hd].
Defined.

(** ** [getClient] and [GetContextConfig] on the same descriptor *)

(** X7. A client that [getClient] builds (no client being cached for the
    name) is bound to exactly the host [GetContextConfig] reports for that
    name, and that host is not empty. *)
Theorem getClient_agrees_with_GetContextConfig (W W' : World) (name : string)
    (s s' : Service) (c : Client) :
  clients s !! name = None →
  getClient W name s = (Ok c, s') →
  GetContextConfig W' name s = (Ok (chost c), s) ∧ chost c ≠ "".
Proof.
  intros Hm. unfold getClient. rewrite Hm. unfold getClient_create, cacheClient.
  unfold_M. unfold GetContextConfig. unfold_M. unfold readConfig, writeFile.
  unfold_M.
  destruct (file s) as [| | |cfg] eqn:Hf.
  - destruct (write_ok W); [|discriminate]. simpl.
    unfold defaultConfig. rewrite ?lookup_Map, lookup_insert_eq. simpl.
    rewrite lookup_empty. discriminate.
  - discriminate.
  - discriminate.
  - rewrite ?lookup_Map.
    destruct (as_obj (cfg !! "contexts")) as [ctxs|]; [|discriminate].
    destruct (as_obj (ctxs !! name)) as [d|]; [|discriminate].
    unfold str_or_empty. simpl.
    destruct (as_str (d !! "host")) as [h|]; simpl; [|discriminate].
    case_decide; [discriminate|].
    unfold NewClientWithOpts. destruct (host_ok W h); [|discriminate].
    intros Heq. simplify_eq. simpl. done.
Qed.

Lemma getClient_agrees_with_GetContextConfig_witness :
  GetContextConfig W_ok "prod" (NewDockerService (FileDoc prod_doc))
  = (Ok "tcp://10.0.0.5:2375", NewDockerService (FileDoc prod_doc)).
Proof.
  destruct (getClient_agrees_with_GetContextConfig W_ok W_ok "prod"
              (NewDockerService (FileDoc prod_doc)) _
              {| cid := 0; chost := "tcp://10.0.0.5:2375" |}
              eq_refl (surjective_pairing _)) as [Hg _].
  exact Hg.
Defined.

(** X8. A descriptor whose host is the empty string is treated
    differently by the two readers: [GetContextConfig] returns the empty
    host without error, while [getClient] refuses it as an invalid host
    configuration and builds nothing. *)
Theorem empty_host_accepted_by_one_reader (W : World) (name : string)
    (s : Service) (cfg : Config) (ctxs d : gmap string Json) :
  file s = FileDoc cfg →
  cfg !! "contexts" = Some (JObj ctxs) →
  ctxs !! name = Some (JObj d) →
  d !! "host" = Some (JStr "") →
  clients s !! name = None →
  GetContextConfig W name s = (Ok "", s) ∧
  getClient W name s = (Err (ErrInvalidHost name), s).
Proof.
  intros Hf Hc Hn Hh Hm. split.
  - by eapply GetContextConfig_doc.
  - unfold getClient. rewrite Hm. unfold getClient_create. unfold_M.
    rewrite (readConfig_doc _ _ _ Hf), ?lookup_Map, ?entries_Map, Hc. simpl. rewrite Hn. simpl.
    unfold str_or_empty. rewrite Hh. reflexivity.
Qed.

(** Such a descriptor is what [CreateContext] stores when it is given an
    empty host: it does not check the host. *)
Lemma empty_host_accepted_by_one_reader_witness :
  let s := (CreateContext W_ok blank_host (NewDockerService (FileDoc prod_doc))).2 in
  (CreateContext W_ok blank_host (NewDockerService (FileDoc prod_doc))).1 = Ok tt ∧
  GetContextConfig W_ok "blank" s = (Ok "", s) ∧
  getClient W_ok "blank" s = (Err (ErrInvalidHost "blank"), s).
Proof.
  intros s. split; [reflexivity|].
  apply (empty_host_accepted_by_one_reader W_ok "blank" s
           (<["contexts" := JObj (<["blank" := descriptor blank_host]>
                (<["prod" := tcp_ctx "tcp://10.0.0.5:2375"]>
                   (<["dev" := tcp_ctx "tcp://10.0.0.9:2375"]> ∅)))]> prod_doc)
           (<["blank" := descriptor blank_host]>
              (<["prod" := tcp_ctx "tcp://10.0.0.5:2375"]>
                 (<["dev" := tcp_ctx "tcp://10.0.0.9:2375"]> ∅)))
           (<["type" := JStr "tcp"]> (<["host" := JStr ""]> ∅)));
    reflexivity.
Defined.

(** ** The first run: no file yet *)

(** X9. With no configuration file, [ListContexts] is not an error: when
    the file can be created it returns the empty list and leaves the
    default document behind, after which reading needs no further write;
    when it cannot be created the call fails with the write error and
    nothing changes. *)
Theorem ListContexts_without_file (W : World) (s : Service) :
  file s = FileMissing →
  if write_ok W
  then ∃ s', ListContexts W s = (Ok [], s') ∧
             file s' = FileDoc defaultConfig ∧
             clients s' = clients s ∧
             ListContexts W s' = (Ok [], s')
  else ListContexts W s = (Err ErrIO, s).
Proof.
  intros Hf. unfold ListContexts, readConfig, writeFile. unfold_M. rewrite Hf.
  destruct (write_ok W); [|reflexivity].
  eexists. split; [reflexivity|]. simpl. repeat split; reflexivity.
Qed.

Lemma ListContexts_without_file_witness :
  ∃ s', ListContexts W_ok (NewDockerService FileMissing) = (Ok [], s') ∧
        file s' = FileDoc defaultConfig.
Proof.
  destruct (ListContexts_without_file W_ok (NewDockerService FileMissing) eq_refl)
    as (s' & Hl & Hf & _).
  exists s'. auto.
Defined.

(** ** What [ListContexts] lists *)

Lemma other_entry_spec cur (ctxs : gmap string Json) c :
  c ∈ omap (other_entry cur) (map_to_list ctxs) ↔
  ∃ d, ctxs !! Name c = Some (JObj d) ∧ Name c ≠ cur ∧
       c = context_entry cur (Name c) d.
Proof.
  rewrite list_elem_of_omap. split.
  - intros ([k v] & Hkv%elem_of_map_to_list & Ho).
    unfold other_entry in Ho. simpl in Ho. destruct v; try discriminate.
    case_decide; [discriminate|]. simplify_eq. simpl. eauto.
  - intros (d & Hd & Hne & ->). simpl in *. exists (Name c, JObj d). split.
    + by apply elem_of_map_to_list.
    + unfold other_entry. simpl. by case_decide.
Qed.

(** X10. For a readable store whose "contexts" member is an object,
    [ListContexts] lists every context stored as an object exactly once
    and nothing else, and the host shown for a context is the host
    [GetContextConfig] returns for it whenever that call succeeds. *)
Theorem ListContexts_lists_each_once (W : World) (s : Service) (cfg : Config)
    (ctxs : gmap string Json) :
  file s = FileDoc cfg →
  cfg !! "contexts" = Some (JObj ctxs) →
  ∃ l, ListContexts W s = (Ok l, s) ∧
       NoDup (Name <$> l) ∧
       (∀ n, n ∈ Name <$> l ↔ ∃ d, ctxs !! n = Some (JObj d)) ∧
       (∀ c h, c ∈ l → (GetContextConfig W (Name c) s).1 = Ok h → Host c = h).
Proof.
  intros Hf Hc.
  set (cur := str_or_empty (cfg !! "current-context")).
  set (others := omap (other_entry cur) (map_to_list ctxs)).
  set (first := match ctxs !! cur with
                | Some (JObj d) => [context_entry cur cur d]
                | _ => []
                end).
  assert (Hl : ListContexts W s = (Ok (first ++ sort_Slice name_less others), s)).
  { unfold ListContexts. unfold_M. rewrite (readConfig_doc _ _ _ Hf), ?lookup_Map, ?entries_Map, Hc. simpl.
    fold cur. rewrite ListContexts_loop, current_entry_last. simpl.
    fold others. unfold first. destruct (ctxs !! cur) as [[]|]; reflexivity. }
  assert (Hin : ∀ c, c ∈ first ++ sort_Slice name_less others ↔
                  ∃ d, ctxs !! Name c = Some (JObj d) ∧
                       c = context_entry cur (Name c) d).
  { intros c. rewrite elem_of_app, (sort_Slice_perm name_less others).
    unfold others. rewrite other_entry_spec. split.
    - intros [Hfirst|(d & Hd & _ & Hc')]; [|eauto].
      unfold first in Hfirst. destruct (ctxs !! cur) as [[]|] eqn:Hcur;
        try (by apply elem_of_nil in Hfirst).
      apply list_elem_of_singleton in Hfirst as ->. simpl. eauto.
    - intros (d & Hd & Hc'). destruct (decide (Name c = cur)) as [Heq|Hne].
      + left. unfold first. rewrite <- Heq, Hd. rewrite Hc' at 1.
        rewrite Heq. apply list_elem_of_singleton. by rewrite <- Heq.
      + right. eauto. }
  exists (first ++ sort_Slice name_less others). split; [exact Hl|]. split; [|split].
  - rewrite fmap_app. apply NoDup_app. split; [|split].
    + unfold first. destruct (ctxs !! cur) as [[]|]; simpl;
        try apply NoDup_nil_2. apply NoDup_singleton.
    + intros n Hn1 Hn2.
      apply list_elem_of_fmap in Hn2 as (c & -> & Hc2).
      rewrite (sort_Slice_perm name_less others) in Hc2.
      apply other_entry_spec in Hc2 as (d & _ & Hne & _).
      unfold first in Hn1. destruct (ctxs !! cur) as [[]|]; simpl in Hn1;
        try (by apply elem_of_nil in Hn1).
      apply list_elem_of_singleton in Hn1. done.
    + rewrite (sort_Slice_perm name_less others).
      apply other_entry_names, NoDup_fst_map_to_list.
  - intros n. rewrite list_elem_of_fmap. split.
    + intros (c & -> & (d & Hd & _)%Hin). eauto.
    + intros (d & Hd). exists (context_entry cur n d). split; [reflexivity|].
      apply Hin. simpl. eauto.
  - intros c h (d & Hd & ->)%Hin. simpl in *.
    unfold GetContextConfig. unfold_M.
    rewrite (readConfig_doc _ _ _ Hf), ?lookup_Map, ?entries_Map, Hc. simpl. rewrite Hd. simpl.
    unfold str_or_empty. destruct (as_str (d !! "host")); simpl; [|discriminate].
    congruence.
Qed.

Lemma ListContexts_lists_each_once_witness :
  ∃ l, ListContexts W_ok (NewDockerService (FileDoc prod_doc))
       = (Ok l, NewDockerService (FileDoc prod_doc)) ∧
       NoDup (Name <$> l) ∧ "dev" ∈ Name <$> l.
Proof.
  destruct (ListContexts_lists_each_once W_ok (NewDockerService (FileDoc prod_doc))
              prod_doc
              (<["prod" := tcp_ctx "tcp://10.0.0.5:2375"]>
                 (<["dev" := tcp_ctx "tcp://10.0.0.9:2375"]> ∅))
              eq_refl eq_refl) as (l & Hl & Hnd & Hn & _).
  exists l. split; [exact Hl|]. split; [exact Hnd|].
  apply Hn. eexists. reflexivity.
Defined.

(** ** Sessions: the error channel and the deferred closes *)

Lemma count_snoc p l e :
  count p (l ++ [e]) = count p l + (if p e then 1 else 0).
Proof.
  unfold count. rewrite filter_app, length_app. f_equal.
  rewrite filter_cons, filter_nil. destruct (p e); reflexivity.
Qed.

Lemma existsb_snoc (p : BEvent → bool) l e :
  existsb p (l ++ [e]) = existsb p l || p e.
Proof. rewrite existsb_app. simpl. by rewrite orb_false_r. Qed.

Lemma session_counts_start s : session_counts (start_session s).
Proof. constructor; simpl; done. Qed.

Ltac use_pc_facts :=
  repeat match goal with
         | H : main_pc _ = _ |- _ => rewrite H in *
         | H : out_pc _ = _ |- _ => rewrite H in *
         | H : in_pc _ = _ |- _ => rewrite H in *
         end.

Ltac solve_counts :=
  unfold set_main, record, with_svc, main_progress in *; simpl in *;
  use_pc_facts; simpl in *;
  repeat match goal with
         | H : _ ∧ _ |- _ => destruct H
         end;
  use_pc_facts;
  rewrite ?count_snoc, ?existsb_snoc; simpl;
  repeat match goal with
         | H : existsb _ _ = _ |- _ => rewrite H in *
         end;
  simpl in *; rewrite ?orb_true_r, ?orb_false_r, ?andb_true_r, ?andb_false_r;
  first [ lia | done | (repeat split; first [ done | lia ]) ].

Lemma session_counts_step W P contextName id a σ σ' :
  session_counts σ →
  session_step W P contextName id a σ = Some σ' →
  session_counts σ'.
Proof.
  intros [He Hw Hh Hp] Hstep.
  destruct a as [answer| |r|r]; simpl in Hstep.
  - unfold main_step, CreateExec, AttachExec, StartExec in Hstep.
    rewrite ?via_getClient, ?via_getClient_wrapped in Hstep.
    unfold report, ws_WriteMessage in Hstep.
    destruct (main_pc σ) eqn:Hpc; try discriminate;
      try (destruct (getClient W contextName (svc (bridge σ))) as [[c|e] s1];
           simpl in Hstep);
      try destruct answer; simpl in Hstep;
      try destruct (ws_write_err P _); try destruct (has_BErrChan _);
      simplify_eq; constructor; rewrite ?Hpc in *; solve_counts.
  - destruct (main_pc σ) eqn:Hpc; try discriminate.
    simplify_eq; constructor; rewrite ?Hpc in *; solve_counts.
  - destruct (out_pc σ) eqn:Hop; try discriminate.
    unfold outbound_iter, ws_WriteMessage in Hstep.
    destruct (rr_err r) as [e|];
      [|destruct (decide _); [destruct (ws_write_err P _)|]];
      simplify_eq; constructor; destruct (main_pc σ) eqn:Hpc; solve_counts.
  - destruct (in_pc σ) eqn:Hip; try discriminate.
    unfold inbound_iter, handle_Write in Hstep.
    destruct r as [e|[] p]; simpl in Hstep;
      [|destruct (json_Unmarshal P p) as [msg|];
        [repeat case_decide; [destruct (handle_write_err P _)|..]|]|];
      simplify_eq; constructor; destruct (main_pc σ) eqn:Hpc; solve_counts.
Qed.

Lemma session_counts_run W P contextName id acts σ σ' :
  session_counts σ →
  run_session W P contextName id acts σ = Some σ' →
  session_counts σ'.
Proof.
  revert σ. induction acts as [|a acts IH]; intros σ Hinv; simpl.
  { intros Heq. by simplify_eq. }
  destruct (session_step W P contextName id a σ) as [σ1|] eqn:Hstep; [|done].
  apply IH. eapply session_counts_step; eauto.
Qed.

(** X11. In every execution of the handler each goroutine sends on the
    error channel exactly once, when it returns, and never otherwise; so
    at most two errors are ever sent, which is the capacity the channel is
    made with, and a send never has to wait for the handler to receive. *)
Theorem errChan_never_overflows (W : World) (P : Peers) (contextName id : string)
    (s : Service) (acts : list Action) (σ : Session) :
  run_session W P contextName id acts (start_session s) = Some σ →
  count is_errchan (events (bridge σ)) = finished (out_pc σ) + finished (in_pc σ) ∧
  count is_errchan (events (bridge σ)) ≤ 2.
Proof.
  intros Hrun.
  pose proof (session_counts_run _ _ _ _ _ _ _ (session_counts_start s) Hrun)
    as [He _ _ _].
  split; [exact He|]. rewrite He.
  destruct (out_pc σ), (in_pc σ); simpl; lia.
Qed.

(** Both goroutines fail at their first read. *)
Lemma errChan_never_overflows_witness :
  ∃ σ, run_session W_ok demo_peers "prod" "c1"
         (launched ++ [ActOutbound (err_read EOF); ActInbound (WsReadErr ErrClosed)])
         (start_session (NewDockerService (FileDoc prod_doc))) = Some σ ∧
       count is_errchan (events (bridge σ)) = 2.
Proof.
  destruct (run_session W_ok demo_peers "prod" "c1"
              (launched ++ [ActOutbound (err_read EOF); ActInbound (WsReadErr ErrClosed)])
              (start_session (NewDockerService (FileDoc prod_doc))))
    as [σ|] eqn:Hrun; [|vm_compute in Hrun; discriminate].
  exists σ. split; [reflexivity|].
  destruct (errChan_never_overflows _ _ _ _ _ _ _ Hrun) as [He _].
  rewrite He. assert (Hσ : Some σ = Some σ) by reflexivity.
  rewrite <- Hrun in Hσ at 1. vm_compute in Hσ. by simplify_eq.
Defined.

(** X12. Until the handler returns it closes nothing. A handler that
    returns because the upgrade to a websocket failed has closed nothing.
    After a successful upgrade, once the handler has returned, by whatever
    path, the operator connection has been closed exactly once, and the
    process handle has been closed exactly once if the attach had succeeded
    and not at all otherwise. An attach is only made after a successful
    upgrade. *)
Theorem handler_return_closes (W : World) (P : Peers) (contextName id : string)
    (s : Service) (acts : list Action) (σ : Session) :
  run_session W P contextName id acts (start_session s) = Some σ →
  let ev := events (bridge σ) in
  (if returned (main_pc σ)
   then count is_close_ws ev = (if existsb is_upgrade_ok ev then 1 else 0) ∧
        count is_close_handle ev = (if existsb is_attach_ok ev then 1 else 0)
   else count is_close_ws ev = 0 ∧ count is_close_handle ev = 0) ∧
  (existsb is_attach_ok ev = true → existsb is_upgrade_ok ev = true).
Proof.
  intros Hrun ev.
  pose proof (session_counts_run _ _ _ _ _ _ _ (session_counts_start s) Hrun)
    as [_ Hw Hh Hp].
  unfold main_progress in Hp. subst ev.
  destruct (main_pc σ); simpl in *;
    repeat match goal with
           | H : _ ∧ _ |- _ => destruct H
           end;
    (split; [by split|]); first [ assumption | congruence ].
Qed.

(** A failed start closes both; a failed upgrade closes nothing. *)
Lemma handler_return_closes_witness :
  (∃ σ, run_session W_ok demo_peers "prod" "c1" (launched ++ [ActMain (Err ErrBackend)])
          (start_session (NewDockerService (FileDoc prod_doc))) = Some σ ∧
        count is_close_ws (events (bridge σ)) = 1 ∧
        count is_close_handle (events (bridge σ)) = 1) ∧
  (∃ σ, run_session W_ok demo_peers "prod" "c1" [ActMain (Err ErrBackend)]
          (start_session (NewDockerService (FileDoc prod_doc))) = Some σ ∧
        main_pc σ = MReturned ∧
        count is_close_ws (events (bridge σ)) = 0 ∧
        count is_close_handle (events (bridge σ)) = 0).
Proof.
  split.
  - destruct (run_session W_ok demo_peers "prod" "c1"
                (launched ++ [ActMain (Err ErrBackend)])
                (start_session (NewDockerService (FileDoc prod_doc))))
      as [σ|] eqn:Hrun; [|vm_compute in Hrun; discriminate].
    exists σ. split; [reflexivity|].
    pose proof (handler_return_closes _ _ _ _ _ _ _ Hrun) as [Hc _].
    assert (Hσ : Some σ = Some σ) by reflexivity.
    rewrite <- Hrun in Hσ at 1. vm_compute in Hσ. simplify_eq. exact Hc.
  - destruct (run_session W_ok demo_peers "prod" "c1" [ActMain (Err ErrBackend)]
                (start_session (NewDockerService (FileDoc prod_doc))))
      as [σ|] eqn:Hrun; [|vm_compute in Hrun; discriminate].
    exists σ. split; [reflexivity|].
    pose proof (handler_return_closes _ _ _ _ _ _ _ Hrun) as [Hc _].
    assert (Hσ : Some σ = Some σ) by reflexivity.
    rewrite <- Hrun in Hσ at 1. vm_compute in Hσ. simplify_eq.
    split; [reflexivity|exact Hc].
Defined.

(** ** The inbound goroutine as a whole *)

Lemma inbound_iter_message W P contextName execID r b :
  (∀ n, handle_write_err P n = None) →
  is_message r →
  ∃ b', inbound_iter W P contextName execID r b = (Continue, b') ∧
        events b' = events b ++ map BHandleWrite (option_list (input_of P r)).
Proof.
  intros Hw Hr. destruct r as [e|[|] p]; simpl in *; [done| |].
  - destruct (json_Unmarshal P p) as [msg|]; simpl.
    + destruct (decide (msg_Type msg = "input")); simpl.
      * unfold handle_Write. rewrite Hw. eexists. split; [reflexivity|done].
      * destruct (decide (msg_Type msg = "resize")); eexists;
          (split; [reflexivity|]); simpl; by rewrite app_nil_r.
    + eexists. split; [reflexivity|]. by rewrite app_nil_r.
  - eexists. split; [reflexivity|]. by rewrite app_nil_r.
Qed.

Lemma inbound_pump_messages W P contextName execID script b :
  (∀ n, handle_write_err P n = None) →
  Forall is_message script →
  ∃ b', inbound_pump W P contextName execID script b = (Blocked, b') ∧
        (∀ rest, inbound_pump W P contextName execID (script ++ rest) b
                 = inbound_pump W P contextName execID rest b') ∧
        events b' = events b ++ map BHandleWrite (omap (input_of P) script).
Proof.
  intros Hw Hs. revert b. induction Hs as [|r script Hr Hs IH]; intros b.
  { exists b. repeat split; simpl; by rewrite ?app_nil_r. }
  destruct (inbound_iter_message W P contextName execID r b Hw Hr) as (b1 & H1 & E1).
  destruct (IH b1) as (b' & Hrun & Hrest & Ev).
  exists b'. unfold inbound_pump in *. simpl. rewrite H1.
  split; [exact Hrun|]. split; [exact Hrest|].
  rewrite Ev, E1, <- app_assoc, <- map_app. do 2 f_equal.
  destruct (input_of P r); reflexivity.
Qed.

(** X13. While writes to the process succeed, the second goroutine
    writes to the process exactly the data of the frames of type "input",
    one write per frame and in the order they arrived, and nothing else:
    binary frames, undecodable frames, resize frames and frames of any
    other type are passed over. It stops at the first failed read, sends
    that error on the error channel and reads no further. *)
Theorem inbound_pump_forwards_input (W : World) (P : Peers)
    (contextName execID : string) (script rest : list WsRead) (e : IOError)
    (b : Bridge) :
  (∀ n, handle_write_err P n = None) →
  Forall is_message script →
  let written := map BHandleWrite (omap (input_of P) script) in
  (∃ b', inbound_pump W P contextName execID script b = (Blocked, b') ∧
         events b' = events b ++ written) ∧
  (∃ b', inbound_pump W P contextName execID (script ++ WsReadErr e :: rest) b
         = (Exited e, b') ∧
         events b' = events b ++ written ++ [BErrChan e]).
Proof.
  intros Hw Hs written.
  destruct (inbound_pump_messages W P contextName execID script b Hw Hs)
    as (b' & Hrun & Hrest & Ev).
  split; [by exists b'|].
  eexists. rewrite Hrest. unfold inbound_pump. simpl.
  split; [reflexivity|]. simpl. by rewrite Ev, <- app_assoc.
Qed.

(** A resize frame, an input frame, a binary frame; then the read fails. *)
Lemma inbound_pump_forwards_input_witness :
  ∃ b',
    inbound_pump W_ok demo_peers "prod" "e1"
      ([WsReadMsg TextMessage (String.list_byte_of_string resize_text);
        WsReadMsg TextMessage (String.list_byte_of_string input_ls_text);
        WsReadMsg BinaryMessage (String.list_byte_of_string "x")]
       ++ WsReadErr ErrClosed :: [])
      {| svc := NewDockerService (FileDoc prod_doc); events := [] |}
    = (Exited ErrClosed, b') ∧
    events b' = [BHandleWrite (String.list_byte_of_string "ls"); BErrChan ErrClosed].
Proof.
  destruct (inbound_pump_forwards_input W_ok demo_peers "prod" "e1"
              [WsReadMsg TextMessage (String.list_byte_of_string resize_text);
               WsReadMsg TextMessage (String.list_byte_of_string input_ls_text);
               WsReadMsg BinaryMessage (String.list_byte_of_string "x")]
              [] ErrClosed
              {| svc := NewDockerService (FileDoc prod_doc); events := [] |}
              (λ _, eq_refl)
              ltac:(repeat constructor))
    as [_ (b' & Hrun & Hev)].
  exists b'. split; [exact Hrun|]. rewrite Hev. vm_compute. reflexivity.
Defined.

(** ** A session whose set-up fails *)

Lemma via_getClient_refused {A} W contextName (e : Error) s :
  ∃ e' s', (cli ← getClient W contextName; backend (A:=A) (Err e)) s = (Err e', s').
Proof.
  unfold_M. destruct (getClient W contextName s) as [[cli|e1] s1]; eauto.
Qed.

Lemma via_getClient_wrapped_refused {A} W contextName wrap (e : Error) s :
  ∃ e' s', (cli ← getClient W contextName; wrapped wrap (backend (A:=A) (Err e))) s
           = (Err e', s').
Proof.
  rewrite via_getClient_wrapped.
  destruct (getClient W contextName s) as [[cli|e1] s1]; simpl; eauto.
Qed.

(** X14. If creating the exec instance or attaching to it fails, the
    handler returns at once: it tries to send one text frame with the error
    to the operator, closes the operator connection, and does nothing else.
    No goroutine has been started and none can start afterwards, and the
    process handle, which was never obtained, is not closed. *)
Theorem setup_failure_ends_session (W : World) (P : Peers) (contextName id : string)
    (s : Service) (acts : list Action) (σ : Session) (e : Error) :
  run_session W P contextName id acts (start_session s) = Some σ →
  main_pc σ = MCreateExec ∨ main_pc σ = MAttachExec →
  ∃ σ' call txt,
    session_step W P contextName id (ActMain (Err e)) σ = Some σ' ∧
    (∃ e', call = BCreateExec (Err e') ∨ call = BAttachExec (Err e')) ∧
    (txt = [] ∨ ∃ p, txt = [BWsWrite TextMessage p]) ∧
    events (bridge σ') = events (bridge σ) ++ [call] ++ txt ++ [BCloseWs] ∧
    out_pc σ' = NotStarted ∧ in_pc σ' = NotStarted ∧
    ∀ a, session_step W P contextName id a σ' = None.
Proof.
  intros Hrun Hpc.
  pose proof (session_counts_run _ _ _ _ _ _ _ (session_counts_start s) Hrun)
    as [_ _ _ Hp].
  unfold main_progress in Hp.
  assert (Hgo : out_pc σ = NotStarted ∧ in_pc σ = NotStarted)
    by (destruct Hpc as [Hpc|Hpc]; rewrite Hpc in Hp; tauto).
  destruct Hgo as [Hout Hin]. clear Hp.
  assert (Hover : ∀ b a, session_step W P contextName id a (set_main MReturned b σ) = None).
  { intros b [answer| |r|r]; simpl; rewrite ?Hout, ?Hin; reflexivity. }
  assert (Hsent : ∀ what e' b,
             ∃ txt, (txt = [] ∨ ∃ p, txt = [BWsWrite TextMessage p]) ∧
                    events (record BCloseWs (report P what e' b))
                    = events b ++ txt ++ [BCloseWs]).
  { intros what e' b. unfold report, ws_WriteMessage, record.
    destruct (ws_write_err P _); simpl.
    - exists []. split; [by left|done].
    - eexists [_]. split; [right; eauto|]. by rewrite <- app_assoc. }
  destruct Hpc as [Hpc|Hpc].
  - destruct (via_getClient_refused (A:=string) W contextName e (svc (bridge σ)))
      as (e' & s' & Hc).
    destruct (Hsent "Error creating exec: " e'
                (record (BCreateExec (Err e')) (with_svc s' (bridge σ))))
      as (txt & Htxt & Hev).
    eexists _, (BCreateExec (Err e')), txt.
    split; [|split; [eauto|split; [exact Htxt|]]].
    { unfold session_step, main_step. rewrite Hpc. unfold CreateExec.
      rewrite Hc. reflexivity. }
    split; [|split; [exact Hout|split; [exact Hin|apply Hover]]].
    unfold set_main. cbn [bridge]. rewrite Hev.
    unfold record, with_svc. cbn [events]. by rewrite <- app_assoc.
  - destruct (via_getClient_wrapped_refused (A:=unit) W contextName ErrAttachExec e
                (svc (bridge σ))) as (e' & s' & Hc).
    destruct (Hsent "Error attaching to exec: " e'
                (record (BAttachExec (Err e')) (with_svc s' (bridge σ))))
      as (txt & Htxt & Hev).
    eexists _, (BAttachExec (Err e')), txt.
    split; [|split; [eauto|split; [exact Htxt|]]].
    { unfold session_step, main_step. rewrite Hpc. unfold AttachExec.
      cbn [void]. rewrite Hc. reflexivity. }
    split; [|split; [exact Hout|split; [exact Hin|apply Hover]]].
    unfold set_main. cbn [bridge]. rewrite Hev.
    unfold record, with_svc. cbn [events]. by rewrite <- app_assoc.
Qed.

(** The daemon refuses to create the exec instance. *)
Lemma setup_failure_ends_session_witness :
  ∃ σ σ',
    run_session W_ok demo_peers "prod" "c1" [ActMain (Ok "")]
      (start_session (NewDockerService (FileDoc prod_doc))) = Some σ ∧
    session_step W_ok demo_peers "prod" "c1" (ActMain (Err ErrBackend)) σ = Some σ' ∧
    events (bridge σ')
    = [BUpgrade true;
       BCreateExec (Err ErrBackend);
       BWsWrite TextMessage (error_text "Error creating exec: " ErrBackend);
       BCloseWs] ∧
    ∀ a, session_step W_ok demo_peers "prod" "c1" a σ' = None.
Proof.
  eexists.
  destruct (setup_failure_ends_session W_ok demo_peers "prod" "c1"
              (NewDockerService (FileDoc prod_doc)) [ActMain (Ok "")] _ ErrBackend
              eq_refl (or_introl eq_refl))
    as (σ' & call & txt & Hstep & _ & _ & Hev & _ & _ & Hover).
  exists σ'. split; [reflexivity|]. split; [exact Hstep|]. split; [|exact Hover].
  vm_compute in Hstep. by simplify_eq.
Defined.

(** ** Listing containers and images *)

Lemma Split_length s c : length (Split s c) = S (occurrences c s).
Proof.
  induction s as [|a s IH]; simpl; [done|].
  destruct (decide (a = c)); simpl; [by rewrite IH|].
  destruct (Split s c); simpl in *; lia.
Qed.

Lemma Split_one s c b :
  Split s c = [b] → s = b ∧ occurrences c b = 0.
Proof.
  revert b. induction s as [|a s IH]; intros b; simpl.
  { intros Heq. by simplify_eq. }
  destruct (decide (a = c)) as [->|Hne].
  { intros Heq. injection Heq as _ Hnil.
    pose proof (Split_length s c) as Hl. rewrite Hnil in Hl. done. }
  destruct (Split s c) as [|p ps] eqn:Hs.
  { pose proof (Split_length s c) as Hl. rewrite Hs in Hl. done. }
  intros Heq. simplify_eq. destruct (IH p eq_refl) as [-> Ho].
  split; [done|]. simpl. rewrite Ho. by destruct (decide (a = c)).
Qed.

Lemma Split_two s c a b :
  Split s c = [a; b] →
  s = a +:+ String c b ∧ occurrences c a = 0 ∧ occurrences c b = 0.
Proof.
  revert a. induction s as [|x s IH]; intros a; simpl; [done|].
  destruct (decide (x = c)) as [->|Hne].
  { intros Heq. injection Heq as <- Hb. apply Split_one in Hb as [-> Ho]. done. }
  destruct (Split s c) as [|p ps] eqn:Hs.
  { intros Heq. simplify_eq. }
  intros Heq. simplify_eq. destruct (IH p eq_refl) as (-> & Hp & Hb).
  split; [done|]. split; [|done]. simpl. rewrite Hp.
  by destruct (decide (x = c)).
Qed.

Lemma append_nil_l (s : string) : EmptyString +:+ s = s.
Proof. reflexivity. Qed.

Lemma append_cons (a : Ascii.ascii) (s t : string) :
  String a s +:+ t = String a (s +:+ t).
Proof. reflexivity. Qed.

Lemma substring_pieces s n m :
  n + m ≤ String.length s →
  ∃ pre post, s = pre +:+ String.substring n m s +:+ post ∧
              String.length pre = n ∧
              String.length (String.substring n m s) = m.
Proof.
  revert n m. induction s as [|a s IH]; intros n m Hle; cbn in Hle.
  { assert (n = 0) as -> by lia. assert (m = 0) as -> by lia.
    exists EmptyString, EmptyString. done. }
  destruct n as [|n].
  - destruct m as [|m].
    + exists EmptyString, (String a s). done.
    + destruct (IH 0 m ltac:(lia)) as (pre & post & Hs & Hp & Hl).
      destruct pre; [|done]. rewrite append_nil_l in Hs.
      exists EmptyString, post. cbn [String.substring String.length].
      rewrite append_nil_l, append_cons, <- Hs, Hl. done.
  - destruct (IH n m ltac:(lia)) as (pre & post & Hs & Hp & Hl).
    exists (String a pre), post. cbn [String.substring String.length].
    rewrite append_cons, <- Hs, Hp, Hl. done.
Qed.

Lemma slice_Some s lo hi r :
  slice s lo hi = Some r →
  ∃ pre post, s = pre +:+ r +:+ post ∧ String.length pre = lo ∧
              String.length r = hi - lo.
Proof.
  unfold slice. case_decide as Hb; [|done]. intros Heq. simplify_eq.
  apply substring_pieces. lia.
Qed.

Lemma slice_None s lo hi :
  lo ≤ hi → slice s lo hi = None ↔ String.length s < hi.
Proof.
  intros Hle. unfold slice. case_decide as Hb; split; try done; lia.
Qed.

Lemma listing_ok {A B} W contextName (body : A → option B) xs s cli s' :
  getClient W contextName s = (Ok cli, s') →
  listing W contextName body (Ok xs) s
  = (match mapM body xs with
     | Some infos => Returns (Ok infos)
     | None => Panics
     end, s').
Proof.
  intros Hg. unfold listing. rewrite Hg. by destruct (mapM body xs).
Qed.

Lemma listing_entry {A B} W contextName (body : A → option B) xs s infos s' k x info :
  listing W contextName body (Ok xs) s = (Returns (Ok infos), s') →
  xs !! k = Some x → infos !! k = Some info → body x = Some info.
Proof.
  unfold listing. destruct (getClient W contextName s) as [[cli|e] s1]; [|done].
  destruct (mapM body xs) as [l|] eqn:Hm; [|done].
  intros Heq Hx Hi. simplify_eq. apply mapM_Some in Hm.
  by destruct (Forall2_lookup_l _ _ _ _ _ Hm Hx) as (y & Hy & Hb); simplify_eq.
Qed.

(** X15. With a client for the context and the daemon's list of images:
    if every image ID has at least 19 bytes, [ListImages] returns one entry
    per image, in the daemon's order, whose ID is the 12 bytes of the image
    ID from offset 7 and whose size and creation time are the image's; if
    some image ID is shorter, the call panics and returns nothing, whatever
    the other images are. *)
Theorem ListImages_entries_or_panic (W : World) (contextName : string)
    (images : list ImageSummary.t) (s s' : Service) (cli : Client) :
  getClient W contextName s = (Ok cli, s') →
  (Forall (λ image, 19 ≤ String.length (ImageSummary.ID image)) images →
   ∃ infos,
     ListImages W contextName (Ok images) s = (Returns (Ok infos), s') ∧
     length infos = length images ∧
     ∀ k image info, images !! k = Some image → infos !! k = Some info →
       (∃ pre post, ImageSummary.ID image = pre +:+ ImageInfo.ID info +:+ post ∧
                    String.length pre = 7 ∧ String.length (ImageInfo.ID info) = 12) ∧
       ImageInfo.Size info = ImageSummary.Size image ∧
       ImageInfo.Created info = ImageSummary.Created image) ∧
  (Exists (λ image, String.length (ImageSummary.ID image) < 19) images →
   ListImages W contextName (Ok images) s = (Panics, s')).
Proof.
  intros Hg. unfold ListImages. rewrite (listing_ok _ _ _ _ _ _ _ Hg). split.
  - intros Hall.
    destruct (mapM image_info images) as [infos|] eqn:Hm.
    + exists infos. split; [done|]. split; [symmetry; by eapply length_mapM|].
      intros k image info Hk Hi. apply mapM_Some in Hm.
      destruct (Forall2_lookup_l _ _ _ _ _ Hm Hk) as (y & Hy & Hb). simplify_eq.
      unfold image_info in Hb. destruct (repository_tag image) as [r t].
      destruct (slice (ImageSummary.ID image) 7 19) as [id|] eqn:Hs; [|done].
      simpl in Hb. simplify_eq. simpl.
      apply slice_Some in Hs as (pre & post & ? & ? & ?). eauto 10.
    + apply mapM_None in Hm. apply Exists_exists in Hm as (image & Hin & Hn).
      rewrite Forall_forall in Hall. specialize (Hall _ Hin).
      unfold image_info in Hn. destruct (repository_tag image) as [r t].
      destruct (slice (ImageSummary.ID image) 7 19) as [id|] eqn:Hs; [done|].
      apply slice_None in Hs; lia.
  - intros Hex. assert (mapM image_info images = None) as ->; [|done].
    apply mapM_None. eapply Exists_impl; [exact Hex|]. intros image Hl. simpl in Hl.
    unfold image_info. destruct (repository_tag image) as [r t].
    assert (slice (ImageSummary.ID image) 7 19 = None) as ->; [|done].
    apply slice_None; lia.
Qed.

(** One well-formed image is listed; a short ID after it loses the whole
    answer. *)
Lemma ListImages_entries_or_panic_witness :
  (∃ infos, (ListImages W_ok "prod" (Ok [nginx_image])
               (NewDockerService (FileDoc prod_doc))).1 = Returns (Ok infos) ∧
            length infos = 1) ∧
  (ListImages W_ok "prod" (Ok [nginx_image; short_image])
     (NewDockerService (FileDoc prod_doc))).1 = Panics.
Proof.
  split.
  - destruct (ListImages_entries_or_panic W_ok "prod" [nginx_image]
                (NewDockerService (FileDoc prod_doc)) _ _ eq_refl) as [Hok _].
    destruct Hok as (infos & Hr & Hl & _).
    { repeat constructor; vm_compute; done. }
    exists infos. split; [by rewrite Hr|exact Hl].
  - destruct (ListImages_entries_or_panic W_ok "prod" [nginx_image; short_image]
                (NewDockerService (FileDoc prod_doc)) _ _ eq_refl) as [_ Hp].
    rewrite Hp; [reflexivity|].
    apply Exists_cons_tl, Exists_cons_hd. vm_compute. lia.
Defined.

(** X16. In what [ListImages] returns, an image without tags, or whose
    first tag does not contain exactly one colon (such as a tag naming a
    registry with a port), is listed with repository and tag "<none>"; an
    image whose first tag contains exactly one colon is listed with what
    stands before the colon as repository and what stands after it as tag. *)
Theorem ListImages_repository_tag (W : World) (contextName : string)
    (images : list ImageSummary.t) (s s' : Service) (infos : list ImageInfo.t)
    (k : nat) (image : ImageSummary.t) (info : ImageInfo.t) :
  ListImages W contextName (Ok images) s = (Returns (Ok infos), s') →
  images !! k = Some image → infos !! k = Some info →
  match ImageSummary.RepoTags image with
  | [] => ImageInfo.Repository info = "<none>" ∧ ImageInfo.Tag info = "<none>"
  | tag0 :: _ =>
      (occurrences colon tag0 ≠ 1 →
       ImageInfo.Repository info = "<none>" ∧ ImageInfo.Tag info = "<none>") ∧
      (occurrences colon tag0 = 1 →
       tag0 = ImageInfo.Repository info +:+ ":" +:+ ImageInfo.Tag info ∧
       occurrences colon (ImageInfo.Repository info) = 0 ∧
       occurrences colon (ImageInfo.Tag info) = 0)
  end.
Proof.
  intros Hl Hk Hi. pose proof (listing_entry _ _ _ _ _ _ _ _ _ _ Hl Hk Hi) as Hb.
  unfold image_info in Hb.
  destruct (repository_tag image) as [r t] eqn:Hrt.
  destruct (slice (ImageSummary.ID image) 7 19) as [id|]; [|done].
  simpl in Hb. simplify_eq. simpl. unfold repository_tag in Hrt.
  destruct (ImageSummary.RepoTags image) as [|tag0 rest]; [by simplify_eq|].
  pose proof (Split_length tag0 colon) as Hlen.
  destruct (Split tag0 colon) as [|a [|b [|c l]]] eqn:Hs; simpl in Hlen;
    simplify_eq; (split; [intros Hn; try done; lia|intros Hn; try lia]).
  apply Split_two in Hs as (-> & ? & ?). done.
Qed.

Lemma ListImages_repository_tag_witness :
  ∃ a b,
    (ListImages W_ok "prod" (Ok [nginx_image; registry_image])
       (NewDockerService (FileDoc prod_doc))).1 = Returns (Ok [a; b]) ∧
    ImageInfo.Repository a = "nginx" ∧ ImageInfo.Tag a = "1.25" ∧
    ImageInfo.Repository b = "<none>" ∧ ImageInfo.Tag b = "<none>".
Proof.
  destruct (ListImages W_ok "prod" (Ok [nginx_image; registry_image])
              (NewDockerService (FileDoc prod_doc))) as [r s'] eqn:Hl.
  assert (Hr : r = (ListImages W_ok "prod" (Ok [nginx_image; registry_image])
                      (NewDockerService (FileDoc prod_doc))).1) by (by rewrite Hl).
  vm_compute in Hr. subst r.
  eexists _, _. split; [reflexivity|].
  pose proof (ListImages_repository_tag _ _ _ _ _ _ 0 _ _ Hl eq_refl eq_refl) as [_ Ha].
  pose proof (ListImages_repository_tag _ _ _ _ _ _ 1 _ _ Hl eq_refl eq_refl) as [Hb _].
  split; [reflexivity|]. split; [reflexivity|].
  apply Hb. vm_compute. lia.
Defined.

Lemma CutPrefix_Some s prefix rest :
  CutPrefix s prefix = Some rest ↔ s = prefix +:+ rest.
Proof.
  revert s. induction prefix as [|a p IH]; intros s.
  { rewrite append_nil_l. destruct s; simpl; split; intros Heq; by simplify_eq. }
  rewrite append_cons. destruct s as [|b s]; simpl; [done|].
  case_decide as Hab.
  - subst b. rewrite IH. split; intros Heq; by simplify_eq.
  - split; intros Heq; by simplify_eq.
Qed.

Lemma TrimPrefix_cases s prefix :
  s = prefix +:+ TrimPrefix s prefix ∨
  (HasPrefix s prefix = false ∧ TrimPrefix s prefix = s).
Proof.
  unfold TrimPrefix, HasPrefix.
  destruct (CutPrefix s prefix) as [rest|] eqn:Hc; [left|right; done].
  by apply CutPrefix_Some.
Qed.

(** X17. With a client for the context and the daemon's list of
    containers: if every container has at least one name and an ID of at
    least 12 bytes, [ListContainers] returns one entry per container, in the
    daemon's order, with the first 12 bytes of the ID, the first name
    without one leading slash, as many ports as the daemon reported, and the
    image, status, state and creation time unchanged; if some container has
    no name or a shorter ID, the call panics and returns nothing. *)
Theorem ListContainers_entries_or_panic (W : World) (contextName : string)
    (containers : list types_Container.t) (s s' : Service) (cli : Client) :
  getClient W contextName s = (Ok cli, s') →
  (Forall (λ c, types_Container.Names c ≠ [] ∧
                12 ≤ String.length (types_Container.ID c)) containers →
   ∃ infos,
     ListContainers W contextName (Ok containers) s = (Returns (Ok infos), s') ∧
     length infos = length containers ∧
     ∀ k c info, containers !! k = Some c → infos !! k = Some info →
       (∃ rest, types_Container.ID c = ContainerInfo.ID info +:+ rest ∧
                String.length (ContainerInfo.ID info) = 12) ∧
       (∃ name0 names, types_Container.Names c = name0 :: names ∧
          (name0 = "/" +:+ ContainerInfo.Name info ∨
           HasPrefix name0 "/" = false ∧ ContainerInfo.Name info = name0)) ∧
       ContainerInfo.Ports info = map container_port (types_Container.Ports c) ∧
       ContainerInfo.Image info = types_Container.Image c ∧
       ContainerInfo.Status info = types_Container.Status c ∧
       ContainerInfo.State info = types_Container.State c ∧
       ContainerInfo.Created info = types_Container.Created c) ∧
  (Exists (λ c, types_Container.Names c = [] ∨
                String.length (types_Container.ID c) < 12) containers →
   ListContainers W contextName (Ok containers) s = (Panics, s')).
Proof.
  intros Hg. unfold ListContainers. rewrite (listing_ok _ _ _ _ _ _ _ Hg). split.
  - intros Hall.
    destruct (mapM container_info containers) as [infos|] eqn:Hm.
    + exists infos. split; [done|]. split; [symmetry; by eapply length_mapM|].
      intros k c info Hk Hi. apply mapM_Some in Hm.
      destruct (Forall2_lookup_l _ _ _ _ _ Hm Hk) as (y & Hy & Hb). simplify_eq.
      unfold container_info in Hb.
      destruct (types_Container.Names c) as [|name0 names] eqn:Hn; [done|].
      simpl in Hb.
      destruct (slice (types_Container.ID c) 0 12) as [id|] eqn:Hs; [|done].
      simpl in Hb. simplify_eq. simpl.
      apply slice_Some in Hs as (pre & post & Hid & Hpre & Hlen).
      destruct pre; [|done]. rewrite append_nil_l in Hid.
      split; [eauto|]. split; [|done].
      exists name0, names. split; [done|]. apply TrimPrefix_cases.
    + apply mapM_None in Hm. apply Exists_exists in Hm as (c & Hin & Hn).
      rewrite Forall_forall in Hall. destruct (Hall _ Hin) as [Hnames Hid].
      unfold container_info in Hn.
      destruct (types_Container.Names c) as [|name0 names]; [done|]. simpl in Hn.
      destruct (slice (types_Container.ID c) 0 12) as [id|] eqn:Hs; [done|].
      apply slice_None in Hs; lia.
  - intros Hex. assert (mapM container_info containers = None) as ->; [|done].
    apply mapM_None. eapply Exists_impl; [exact Hex|]. intros c Hbad. simpl in Hbad.
    unfold container_info.
    destruct (types_Container.Names c) as [|name0 names]; [done|]. simpl.
    destruct Hbad as [|Hl]; [done|].
    assert (slice (types_Container.ID c) 0 12 = None) as ->; [|done].
    apply slice_None; lia.
Qed.

(** A running container is listed; a container without a name loses the
    whole answer. *)
Lemma ListContainers_entries_or_panic_witness :
  (∃ info, (ListContainers W_ok "prod" (Ok [web_container])
              (NewDockerService (FileDoc prod_doc))).1 = Returns (Ok [info]) ∧
           ContainerInfo.ID info = "0123456789ab" ∧
           ContainerInfo.Name info = "web") ∧
  (ListContainers W_ok "prod" (Ok [web_container; nameless_container])
     (NewDockerService (FileDoc prod_doc))).1 = Panics.
Proof.
  split.
  - destruct (ListContainers_entries_or_panic W_ok "prod" [web_container]
                (NewDockerService (FileDoc prod_doc)) _ _ eq_refl) as [Hok _].
    destruct Hok as (infos & Hr & Hl & _).
    { repeat constructor; vm_compute; done. }
    rewrite Hr. assert (Hc : Returns (Ok infos)
      = (ListContainers W_ok "prod" (Ok [web_container])
           (NewDockerService (FileDoc prod_doc))).1) by (by rewrite Hr).
    vm_compute in Hc. simplify_eq. eexists. split; [reflexivity|]. by vm_compute.
  - destruct (ListContainers_entries_or_panic W_ok "prod"
                [web_container; nameless_container]
                (NewDockerService (FileDoc prod_doc)) _ _ eq_refl) as [_ Hp].
    rewrite Hp; [reflexivity|].
    apply Exists_cons_tl, Exists_cons_hd. by left.
Defined.

(** ** Creating a container *)

Lemma length_append (s t : string) :
  String.length (s +:+ t) = String.length s + String.length t.
Proof.
  induction s as [|a s IH]; [done|]. rewrite append_cons. cbn [String.length].
  by rewrite IH.
Qed.

Lemma append_cancel_r (s1 s2 t : string) : s1 +:+ t = s2 +:+ t → s1 = s2.
Proof.
  revert s2. induction s1 as [|a s1 IH]; intros [|b s2];
    rewrite ?append_cons, ?append_nil_l; intros Heq.
  - done.
  - apply (f_equal String.length) in Heq. cbn [String.length] in Heq.
    rewrite length_append in Heq. lia.
  - apply (f_equal String.length) in Heq. cbn [String.length] in Heq.
    rewrite length_append in Heq. lia.
  - injection Heq as -> Heq. f_equal. by apply IH.
Qed.

Lemma containerPort_inj p q :
  containerPort p = containerPort q →
  PortMapping.Container p = PortMapping.Container q.
Proof.
  unfold containerPort. intros Heq. apply append_cancel_r in Heq.
  by apply (inj pretty) in Heq.
Qed.

Lemma portBindings_snoc ports p :
  portBindings (ports ++ [p])
  = <[containerPort p := [hostBinding p]]> (portBindings ports).
Proof. unfold portBindings. by rewrite foldl_app. Qed.

Lemma exposedPorts_snoc ports p :
  exposedPorts (ports ++ [p]) = {[containerPort p]} ∪ exposedPorts ports.
Proof. unfold exposedPorts. by rewrite foldl_app. Qed.

Lemma exposedPorts_elem ports key :
  key ∈ exposedPorts ports ↔ ∃ p, p ∈ ports ∧ key = containerPort p.
Proof.
  induction ports as [|p ports IH] using rev_ind.
  { unfold exposedPorts. simpl. split; [set_solver|].
    intros (p & Hp & _). by apply elem_of_nil in Hp. }
  rewrite exposedPorts_snoc, elem_of_union, elem_of_singleton, IH. split.
  - intros [->|(q & Hq & ->)]; [exists p|exists q];
      (split; [apply elem_of_app|done]); [right; by apply list_elem_of_singleton|by left].
  - intros (q & Hq & ->). apply elem_of_app in Hq as [Hq|Hq]; [right; eauto|].
    apply list_elem_of_singleton in Hq as ->. by left.
Qed.

Lemma dom_portBindings ports : dom (portBindings ports) = exposedPorts ports.
Proof.
  induction ports as [|p ports IH] using rev_ind; [set_solver|].
  by rewrite portBindings_snoc, exposedPorts_snoc, dom_insert_L, IH.
Qed.

Lemma portBindings_last ports i p :
  ports !! i = Some p →
  (∀ j q, ports !! j = Some q → i < j →
          PortMapping.Container q ≠ PortMapping.Container p) →
  portBindings ports !! containerPort p = Some [hostBinding p].
Proof.
  revert i p. induction ports as [|x ports IH] using rev_ind; intros i p Hi Hlast.
  { done. }
  rewrite portBindings_snoc.
  apply lookup_app_Some in Hi as [Hi|[Hlen Hi]].
  - assert (Hx : PortMapping.Container x ≠ PortMapping.Container p).
    { apply (Hlast (length ports)).
      - by rewrite lookup_app_r, Nat.sub_diag by lia.
      - by apply lookup_lt_Some in Hi. }
    rewrite lookup_insert_ne
      by (intros Heq; apply Hx; by apply containerPort_inj).
    apply (IH i); [done|]. intros j q Hj Hij. apply (Hlast j); [|done].
    by apply lookup_app_l_Some.
  - destruct (i - length ports) as [|n] eqn:Hn; [|by destruct n].
    simpl in Hi. simplify_eq. apply lookup_insert_eq.
Qed.

(** X18. The create request [CreateContainer] sends for a client of the
    context exposes exactly the container ports of the requested mappings,
    as "<port>/tcp", and binds exactly those. Each container port is bound to
    a single host port on 0.0.0.0: the host port of the last mapping that
    names this container port, so that of two mappings of one container port
    the earlier is dropped. *)
Theorem CreateContainer_port_bindings (W : World) (contextName : string)
    (config : ContainerConfig.t) (create_answer : Result string)
    (start_answer : Result unit) (s s' : Service) (cli : Client) :
  getClient W contextName s = (Ok cli, s') →
  ∃ cfg hcfg rest,
    (CreateContainer W contextName config create_answer start_answer s).1.2
    = CallContainerCreate cli cfg hcfg (ContainerConfig.Name config) :: rest ∧
    (∀ key, key ∈ container_Config.ExposedPorts cfg ↔
            ∃ p, p ∈ ContainerConfig.Ports config ∧
                 key = pretty (PortMapping.Container p) +:+ "/tcp") ∧
    dom (container_HostConfig.PortBindings hcfg) = container_Config.ExposedPorts cfg ∧
    (∀ i p, ContainerConfig.Ports config !! i = Some p →
       (∀ j q, ContainerConfig.Ports config !! j = Some q → i < j →
               PortMapping.Container q ≠ PortMapping.Container p) →
       container_HostConfig.PortBindings hcfg
         !! (pretty (PortMapping.Container p) +:+ "/tcp")
       = Some [ {| nat_PortBinding.HostIP := "0.0.0.0";
                   nat_PortBinding.HostPort := pretty (PortMapping.Host p) |} ]).
Proof.
  intros Hg. exists (containerConfig config), (hostConfig config).
  unfold CreateContainer. rewrite Hg.
  exists (match create_answer with
          | Ok respID => [CallContainerStart cli respID]
          | Err _ => []
          end).
  split; [destruct create_answer, start_answer; reflexivity|].
  cbn [containerConfig hostConfig container_Config.ExposedPorts
       container_HostConfig.PortBindings].
  split; [apply exposedPorts_elem|]. split; [apply dom_portBindings|].
  intros i p Hi Hlast. by apply (portBindings_last _ i).
Qed.

(** Port 80 is mapped to 8080 and then to 9090: only 9090 is bound. *)
Lemma CreateContainer_port_bindings_witness :
  ∃ cli cfg hcfg rest,
    (CreateContainer W_ok "prod" web_config (Ok "c1") (Ok tt)
       (NewDockerService (FileDoc prod_doc))).1.2
    = CallContainerCreate cli cfg hcfg "web" :: rest ∧
    container_HostConfig.PortBindings hcfg !! "80/tcp"
    = Some [ {| nat_PortBinding.HostIP := "0.0.0.0";
                nat_PortBinding.HostPort := "9090" |} ].
Proof.
  destruct (getClient W_ok "prod" (NewDockerService (FileDoc prod_doc)))
    as [[cli|e] s'] eqn:Hg; [|vm_compute in Hg; discriminate].
  destruct (CreateContainer_port_bindings W_ok "prod" web_config (Ok "c1") (Ok tt)
              _ _ _ Hg) as (cfg & hcfg & rest & Hcall & _ & _ & Hlast).
  exists cli, cfg, hcfg, rest. split; [exact Hcall|].
  apply (Hlast 2 {| PortMapping.Host := 9090; PortMapping.Container := 80 |});
    [reflexivity|].
  intros j q Hj Hij. destruct j as [|[|[|j]]]; try lia. discriminate.
Defined.

(** ** The single-client service *)

Section SingleClientFacts.

Import SingleClientService.

Variable W : World.
Variable Stat_ok : string → bool.
Variable Ping_ok : Client → bool.

Lemma check_host_None host :
  check_host Stat_ok host = None →
  HasPrefix host "tcp://" = true ∨ HasPrefix host "unix://" = true.
Proof.
  unfold check_host.
  destruct (HasPrefix host "tcp://"), (HasPrefix host "unix://"); simpl; auto.
  done.
Qed.

Lemma read_config_set_config_json config s :
  read_config (set_config_json (Doc config) s) = Done config.
Proof. reflexivity. Qed.

Lemma write_config_result config s r s' :
  write_config W config s = (r, s') →
  (r = Done tt ∧ write_ok W = true ∧ s' = set_config_json (Doc config) s) ∨
  (r = Failed WriteFileError ∧ write_ok W = false ∧ s' = s).
Proof.
  unfold write_config. destruct (write_ok W); intros Heq; simplify_eq; auto.
Qed.

Lemma GetContextConfig_stored name config contexts contextConfig s :
  name ≠ "default" →
  read_config s = Done config →
  config !! "contexts" = Some (JObj contexts) →
  contexts !! name = Some (JObj contextConfig) →
  GetContextConfig name s
  = match as_obj (contextConfig !! "Endpoints") with
    | None => Failed InvalidContextConfiguration
    | Some endpoints =>
        match as_obj (endpoints !! "docker") with
        | None => Failed InvalidDockerConfiguration
        | Some docker =>
            match as_str (docker !! "Host") with
            | None => Failed HostNotFound
            | Some host => Done host
            end
        end
    end.
Proof.
  intros Hn Hr Hc Hk. unfold GetContextConfig.
  rewrite decide_False by done. rewrite Hr, Hc. simpl. rewrite Hk. reflexivity.
Qed.

Lemma endpoint_entry_host host :
  ∃ contextConfig, endpoint_entry host = JObj contextConfig ∧
    as_obj (contextConfig !! "Endpoints") = Some {[ "docker" := JObj {[ "Host" := JStr host ]} ]}.
Proof. eexists. split; [reflexivity|]. by rewrite lookup_singleton_eq. Qed.

Lemma HasPrefix_nonempty host prefix :
  prefix ≠ "" → HasPrefix host prefix = true → host ≠ "".
Proof.
  intros Hp Hh ->. destruct prefix; [done|]. done.
Qed.

Lemma check_host_nonempty host : check_host Stat_ok host = None → host ≠ "".
Proof.
  intros Hc. destruct (check_host_None _ Hc) as [Hh|Hh];
    eapply HasPrefix_nonempty; try exact Hh; done.
Qed.

Lemma NewClientFromEnv_host host s :
  host ≠ "" → host_ok W host = true →
  NewClientFromEnv W (set_DOCKER_HOST host s)
  = (Some {| cid := next_cid s; chost := host |},
     set_next_cid (S (next_cid s)) (set_DOCKER_HOST host s)).
Proof.
  intros Hne Hok. unfold NewClientFromEnv. simpl.
  rewrite decide_False by done. by rewrite Hok.
Qed.

(** X19. When the single-client [CreateContext] succeeds for a name other
    than "default", [GetContextConfig] of that name returns the host that
    was given, the host starts with "tcp://" or "unix://", and neither the
    client nor the two environment variables have changed. *)
Theorem SingleClient_CreateContext_then_GetContextConfig
    (config : ContextConfig) (s s' : State) :
  CreateContext W Stat_ok config s = (Done tt, s') →
  Name config ≠ "default" →
  GetContextConfig (Name config) s' = Done (Host config) ∧
  (HasPrefix (Host config) "tcp://" = true ∨
   HasPrefix (Host config) "unix://" = true) ∧
  client s' = client s ∧ DOCKER_HOST s' = DOCKER_HOST s ∧
  DOCKER_CONTEXT s' = DOCKER_CONTEXT s.
Proof.
  unfold CreateContext. intros Hc Hn.
  destruct (check_host Stat_ok (Host config)) eqn:Hh; [done|].
  apply check_host_None in Hh.
  assert (Hkey : ∀ dockerConfig contexts,
            write_config W (<["contexts" :=
                               JObj (<[Name config := endpoint_entry (Host config)]> contexts)]>
                              dockerConfig) s = (Done tt, s') →
            GetContextConfig (Name config) s' = Done (Host config) ∧
            client s' = client s ∧ DOCKER_HOST s' = DOCKER_HOST s ∧
            DOCKER_CONTEXT s' = DOCKER_CONTEXT s).
  { intros dockerConfig contexts Hw.
    apply write_config_result in Hw as [(_ & _ & ->)|(? & _)]; [|done].
    split; [|done].
    destruct (endpoint_entry_host (Host config)) as (cc & Hcc & Hep).
    erewrite GetContextConfig_stored; [|done|reflexivity|apply lookup_insert_eq|].
    2: { rewrite lookup_insert_eq. by rewrite Hcc. }
    rewrite Hep. simpl. by rewrite !lookup_singleton_eq. }
  destruct (config_json s) as [| | |dockerConfig]; try done.
  - rewrite lookup_empty, lookup_insert_eq in Hc. simpl in Hc.
    destruct (Hkey _ _ Hc) as (? & ? & ? & ?). auto.
  - destruct (dockerConfig !! "contexts") as [v|] eqn:Hv.
    + rewrite Hv in Hc. destruct (as_obj (Some v)); [|done].
      destruct (Hkey _ _ Hc) as (? & ? & ? & ?). auto.
    + rewrite lookup_insert_eq in Hc. simpl in Hc.
      destruct (Hkey _ _ Hc) as (? & ? & ? & ?). auto.
Qed.

(** X20. A single-client [CreateContext] that does not succeed leaves the
    file, the client and the environment as they were. With a host that
    passes the check it panics exactly when the file holds the JSON text
    null or a "contexts" entry that is not an object. *)
Theorem SingleClient_CreateContext_failure (config : ContextConfig) (s : State) :
  ((CreateContext W Stat_ok config s).1 ≠ Done tt →
   (CreateContext W Stat_ok config s).2 = s) ∧
  (check_host Stat_ok (Host config) = None →
   ((CreateContext W Stat_ok config s).1 = Panicked ↔
    config_json s = NullDoc ∨
    ∃ dockerConfig v, config_json s = Doc dockerConfig ∧
                      dockerConfig !! "contexts" = Some v ∧
                      as_obj (Some v) = None)).
Proof.
  unfold CreateContext. split.
  - destruct (check_host Stat_ok (Host config)); [done|].
    destruct (config_json s) as [| | |dockerConfig]; try done.
    + rewrite lookup_empty, lookup_insert_eq. simpl. unfold write_config.
      by destruct (write_ok W).
    + destruct (dockerConfig !! "contexts") as [v|] eqn:Hv.
      * rewrite Hv. destruct (as_obj (Some v)); [|done].
        unfold write_config. by destruct (write_ok W).
      * rewrite lookup_insert_eq. simpl. unfold write_config.
        by destruct (write_ok W).
  - intros ->.
    destruct (config_json s) as [| | |dockerConfig]; simpl.
    + rewrite lookup_empty, lookup_insert_eq. simpl. unfold write_config.
      destruct (write_ok W); simpl; split; try done;
        intros [?|(? & ? & ? & _)]; done.
    + split; [done|]. intros [?|(? & ? & ? & _)]; done.
    + split; auto.
    + destruct (dockerConfig !! "contexts") as [v|] eqn:Hv.
      * rewrite Hv. destruct (as_obj (Some v)) eqn:Ho.
        -- unfold write_config. destruct (write_ok W); simpl; split; try done;
             intros [?|(d & v' & Hd & Hv' & Ho')]; try done;
             simplify_eq; simpl in *; congruence.
        -- simpl. split; [|done]. intros _. right. eauto.
      * rewrite lookup_insert_eq. simpl. unfold write_config.
        destruct (write_ok W); simpl; split; try done;
          intros [?|(d & v' & Hd & Hv' & Ho')]; try done;
          simplify_eq; simpl in *; congruence.
Qed.

(** X21. Updating the host of the current context when the file cannot
    be written: the single-client [UpdateContextConfig] returns the write
    error, but DOCKER_HOST already names the new host and the service's
    client has already been replaced by one for the new host, while the
    file, and so what [GetContextConfig] returns for the context, is
    unchanged. *)
Theorem SingleClient_UpdateContextConfig_current_unsaved (name host : string)
    (s : State) (config contexts contextConfig : gmap string Json) :
  name ≠ "default" →
  check_host Stat_ok host = None →
  config_json s = Doc config →
  config !! "contexts" = Some (JObj contexts) →
  contexts !! name = Some (JObj contextConfig) →
  config !! "current-context" = Some (JStr name) →
  host_ok W host = true →
  write_ok W = false →
  ∃ s', UpdateContextConfig W Stat_ok name host s = (Failed WriteFileError, s') ∧
        config_json s' = config_json s ∧
        DOCKER_HOST s' = host ∧
        client s' = {| cid := next_cid s; chost := host |} ∧
        GetContextConfig name s' = GetContextConfig name s.
Proof.
  intros Hn Hh Hf Hc Hk Hcur Hok Hw. unfold UpdateContextConfig.
  rewrite Hh, decide_False by done. unfold read_config. rewrite Hf, Hc. simpl.
  rewrite Hk. simpl. rewrite Hcur. simpl. rewrite decide_True by done.
  rewrite (NewClientFromEnv_host _ _ (check_host_nonempty _ Hh) Hok).
  unfold write_config. rewrite Hw. eexists. split; [reflexivity|].
  simpl. repeat split; try done.
  unfold GetContextConfig. by rewrite !decide_False by done.
Qed.


(** X23. Deleting the current context with the single-client
    [DeleteContext]: DOCKER_CONTEXT becomes "default" and DOCKER_HOST is
    unset, whether or not the file can then be written, and the service's
    client is never replaced. If the file is written the call succeeds, the
    current context reads "default" and the deleted name is no longer
    found; if not, the write error is returned and the file is unchanged. *)
Theorem SingleClient_DeleteContext_current_env (name : string) (s : State)
    (config contexts : gmap string Json) (v : Json) :
  name ≠ "default" →
  config_json s = Doc config →
  config !! "contexts" = Some (JObj contexts) →
  contexts !! name = Some v →
  config !! "current-context" = Some (JStr name) →
  ∃ r s', DeleteContext W name s = (r, s') ∧
    DOCKER_CONTEXT s' = "default" ∧ DOCKER_HOST s' = "" ∧ client s' = client s ∧
    (write_ok W = true →
     r = Done tt ∧ GetCurrentContext s' = "default" ∧
     GetContextConfig name s' = Failed (ContextNotFound name)) ∧
    (write_ok W = false →
     r = Failed WriteFileError ∧ config_json s' = config_json s).
Proof.
  intros Hn Hf Hc Hk Hcur. unfold DeleteContext.
  rewrite decide_False by done. unfold read_config. rewrite Hf, Hc. simpl.
  rewrite Hk. rewrite lookup_insert_ne by done. rewrite Hcur. simpl.
  rewrite decide_True by done. unfold write_config.
  destruct (write_ok W); eexists _, _; (split; [reflexivity|]); simpl;
    repeat split; try done.
  unfold GetContextConfig, read_config. simpl. rewrite decide_False by done.
  rewrite lookup_insert_ne by done. rewrite lookup_insert_eq. simpl.
  by rewrite lookup_delete_eq.
Qed.


(** X25. The single-client [SwitchContext "default"] unsets DOCKER_HOST
    and DOCKER_CONTEXT and leaves the file alone; when it succeeds the
    client is one for the library's default host. The file's
    "current-context" entry is not reset, so [GetCurrentContext] afterwards
    still returns the context the file names. *)
Theorem SingleClient_SwitchContext_default (s : State) :
  ∃ r s', SwitchContext W Stat_ok Ping_ok "default" s = (r, s') ∧
    DOCKER_HOST s' = "" ∧ DOCKER_CONTEXT s' = "" ∧
    config_json s' = config_json s ∧
    (r = Done tt → chost (client s') = default_host W) ∧
    (r ≠ Done tt → client s' = client s) ∧
    (∀ config current, config_json s = Doc config →
       config !! "current-context" = Some (JStr current) →
       GetCurrentContext s' = current).
Proof.
  unfold SwitchContext. rewrite decide_True by done.
  unfold reconnect, NewClientFromEnv. simpl.
  assert (Hcur : ∀ s', DOCKER_CONTEXT s' = "" → config_json s' = config_json s →
            ∀ config current, config_json s = Doc config →
              config !! "current-context" = Some (JStr current) →
              GetCurrentContext s' = current).
  { intros s' Hd Hf config current Hdoc Hc. unfold GetCurrentContext, read_config.
    rewrite Hd, Hf, Hdoc, Hc. done. }
  destruct (host_ok W (default_host W)); [destruct (Ping_ok _)|];
    eexists _, _; (split; [reflexivity|]); simpl;
    repeat split; try done; try (by apply Hcur).
Qed.

End SingleClientFacts.

Lemma ListContexts_loop_spec (names acc : list string) :
  foldl (λ contexts name,
           if decide (name ≠ "default") then contexts ++ [name] else contexts)
        acc names
  = acc ++ filter (λ name, name ≠ "default") names.
Proof.
  revert acc. induction names as [|name names IH]; intros acc; simpl.
  { by rewrite app_nil_r. }
  rewrite IH, filter_cons. case_decide; [|done]. by rewrite <- app_assoc.
Qed.

(** X26. Whatever the order in which the keys of the map are handed out,
    each key once, the list [ListContexts] of the single-client service
    returns starts with "default", contains no name twice, and contains,
    besides "default", exactly the names stored under "contexts" in a
    readable file. *)
Theorem SingleClient_ListContexts_results
    (range_keys : gmap string Json → list string) (s : SingleClientService.State) :
  (∀ m, range_keys m ≡ₚ (map_to_list m).*1) →
  let contexts := SingleClientService.ListContexts range_keys s in
  head contexts = Some "default" ∧
  NoDup contexts ∧
  ∀ name, name ∈ contexts ↔
          name = "default" ∨
          ∃ config contextsMap,
            SingleClientService.read_config s = SingleClientService.Done config ∧
            config !! "contexts" = Some (JObj contextsMap) ∧
            is_Some (contextsMap !! name).
Proof.
  intros Hrange. unfold SingleClientService.ListContexts.
  assert (Hone : ∀ P : string → Prop, (∀ name, ¬ P name) →
            head ["default"] = Some "default" ∧ NoDup ["default"] ∧
            ∀ name, name ∈ ["default"] ↔ name = "default" ∨ P name).
  { intros P HP. split; [done|]. split; [apply NoDup_singleton|].
    intros name. rewrite list_elem_of_singleton. specialize (HP name). tauto. }
  destruct (SingleClientService.read_config s) as [config| |] eqn:Hr.
  2,3: apply Hone; intros name (? & ? & ? & _); done.
  destruct (config !! "contexts") as [v|] eqn:Hc.
  2: { simpl. apply Hone. intros name (? & ? & ? & ? & _). simplify_eq. }
  destruct v as [| | | | |contextsMap]; simpl.
  1-5: apply Hone; intros name (? & ? & ? & ? & _); simplify_eq.
  rewrite ListContexts_loop_spec.
  set (names := filter (λ name, name ≠ "default") (range_keys contextsMap)).
  assert (Hnames : ∀ name, name ∈ names ↔
            name ≠ "default" ∧ is_Some (contextsMap !! name)).
  { intros name. unfold names.
    rewrite list_elem_of_filter, Hrange, list_elem_of_fmap. split.
    - intros [Hd ([k v] & -> & Hkv)]. split; [done|].
      apply elem_of_map_to_list in Hkv. by eexists.
    - intros [Hd [v Hv]]. split; [done|]. exists (name, v). split; [done|].
      by apply elem_of_map_to_list. }
  split; [done|]. split.
  - apply NoDup_cons. split.
    + rewrite Hnames. tauto.
    + unfold names. apply NoDup_filter. rewrite Hrange.
      apply NoDup_fst_map_to_list.
  - intros name. simpl. rewrite elem_of_cons, Hnames. split.
    + intros [->|[_ Hs]]; [by left|]. right. eauto.
    + intros [->|(c & m & ? & ? & Hs)]; [by left|]. simplify_eq.
      destruct (decide (name = "default")); [by left|by right].
Qed.

(** A third context is added to the two stored ones. *)
Lemma SingleClient_CreateContext_then_GetContextConfig_witness :
  SingleClientService.GetContextConfig "staging"
    (SingleClientService.CreateContext W_ok no_sockets staging cli_state).2
  = SingleClientService.Done "tcp://10.0.0.8:2375".
Proof.
  destruct (SingleClientService.CreateContext W_ok no_sockets staging cli_state)
    as [r s'] eqn:Hc.
  assert (Hr : r = (SingleClientService.CreateContext W_ok no_sockets staging
                      cli_state).1) by (by rewrite Hc).
  vm_compute in Hr. subst r.
  apply (SingleClient_CreateContext_then_GetContextConfig W_ok no_sockets
           staging cli_state s' Hc). done.
Defined.

(** The file holds the text null. *)
Lemma SingleClient_CreateContext_failure_witness :
  (SingleClientService.CreateContext W_ok no_sockets staging cli_null_state).1
  = SingleClientService.Panicked ∧
  (SingleClientService.CreateContext W_ok no_sockets staging cli_null_state).2
  = cli_null_state.
Proof.
  destruct (SingleClient_CreateContext_failure W_ok no_sockets staging cli_null_state)
    as [Hsame Hpanic].
  assert (Hp : (SingleClientService.CreateContext W_ok no_sockets staging
                  cli_null_state).1 = SingleClientService.Panicked).
  { apply Hpanic; [reflexivity|]. left. reflexivity. }
  split; [exact Hp|]. apply Hsame. rewrite Hp. discriminate.
Defined.

(** The host of the current context "prod" is changed while the file is
    read-only. *)
Lemma SingleClient_UpdateContextConfig_current_unsaved_witness :
  ∃ s', SingleClientService.UpdateContextConfig W_readonly no_sockets "prod"
          "tcp://10.0.0.6:2375" cli_state
        = (SingleClientService.Failed SingleClientService.WriteFileError, s') ∧
        SingleClientService.DOCKER_HOST s' = "tcp://10.0.0.6:2375" ∧
        chost (SingleClientService.client s') = "tcp://10.0.0.6:2375" ∧
        SingleClientService.GetContextConfig "prod" s'
        = SingleClientService.Done "tcp://10.0.0.5:2375".
Proof.
  destruct (SingleClient_UpdateContextConfig_current_unsaved W_readonly no_sockets
              "prod" "tcp://10.0.0.6:2375" cli_state cli_doc cli_contexts prod_entry)
    as (s' & Hu & _ & Hh & Hcli & Hg); try (vm_compute; reflexivity); try done.
  exists s'. split; [exact Hu|]. split; [exact Hh|].
  split; [by rewrite Hcli|]. rewrite Hg. vm_compute. reflexivity.
Defined.


(** The current context "prod" is deleted while the file is read-only. *)
Lemma SingleClient_DeleteContext_current_env_witness :
  ∃ s', SingleClientService.DeleteContext W_readonly "prod" cli_state
        = (SingleClientService.Failed SingleClientService.WriteFileError, s') ∧
        SingleClientService.DOCKER_CONTEXT s' = "default" ∧
        SingleClientService.DOCKER_HOST s' = "" ∧
        SingleClientService.config_json s' = SingleClientService.Doc cli_doc.
Proof.
  destruct (SingleClient_DeleteContext_current_env W_readonly "prod" cli_state
              cli_doc cli_contexts (JObj prod_entry))
    as (r & s' & Hd & Hc & Hh & _ & _ & Hro); try (vm_compute; reflexivity); try done.
  destruct (Hro eq_refl) as [-> Hf].
  exists s'. split; [exact Hd|]. split; [exact Hc|]. split; [exact Hh|exact Hf].
Defined.


(** After a successful switch to "default" the file still names "prod". *)
Lemma SingleClient_SwitchContext_default_witness :
  ∃ s', SingleClientService.SwitchContext W_ok no_sockets ping_all "default" cli_state
        = (SingleClientService.Done tt, s') ∧
        chost (SingleClientService.client s') = "unix:///var/run/docker.sock" ∧
        SingleClientService.GetCurrentContext s' = "prod".
Proof.
  destruct (SingleClient_SwitchContext_default W_ok no_sockets ping_all cli_state)
    as (r & s' & Hs & _ & _ & _ & Hcli & _ & Hcur).
  assert (Hr : r = (SingleClientService.SwitchContext W_ok no_sockets ping_all
                      "default" cli_state).1) by (by rewrite Hs).
  vm_compute in Hr. subst r.
  exists s'. split; [exact Hs|]. split; [exact (Hcli eq_refl)|].
  apply (Hcur cli_doc); reflexivity.
Defined.

(** The keys handed out in the order of the map's own listing. *)
Lemma SingleClient_ListContexts_results_witness :
  let contexts :=
    SingleClientService.ListContexts (λ m, (map_to_list m).*1) cli_state in
  head contexts = Some "default" ∧ NoDup contexts ∧
  "dev" ∈ contexts ∧ "prod" ∈ contexts ∧ length contexts = 3.
Proof.
  intros contexts.
  destruct (SingleClient_ListContexts_results (λ m, (map_to_list m).*1) cli_state)
    as (Hhead & Hnd & Hin); [done|].
  split; [exact Hhead|]. split; [exact Hnd|].
  split; [|split].
  - apply Hin. right. exists cli_doc, cli_contexts.
    split; [reflexivity|]. split; [reflexivity|]. by eexists.
  - apply Hin. right. exists cli_doc, cli_contexts.
    split; [reflexivity|]. split; [reflexivity|]. by eexists.
  - vm_compute. reflexivity.
Defined.

(** ** Host URLs *)

Lemma CutPrefix_app prefix s : CutPrefix (prefix +:+ s) prefix = Some s.
Proof. by apply CutPrefix_Some. Qed.

Lemma Split_no_sep s c : occurrences c s = 0 → Split s c = [s].
Proof.
  induction s as [|a s IH]; simpl; [done|].
  destruct (decide (a = c)); [done|]. intros Ho. by rewrite IH.
Qed.

Lemma Split_app s t c :
  occurrences c s = 0 → Split (s +:+ String c t) c = s :: Split t c.
Proof.
  induction s as [|a s IH]; intros Ho.
  { rewrite append_nil_l. simpl. by rewrite decide_True. }
  rewrite append_cons. simpl in *.
  destruct (decide (a = c)); [done|]. by rewrite IH.
Qed.

Lemma digit_pretty_N_char (d : N) :
  (d < 10)%N → digit (pretty_N_char d) = Some (Z.of_N d) ∧ pretty_N_char d ≠ colon.
Proof.
  intros Hd.
  assert (d = 0 ∨ d = 1 ∨ d = 2 ∨ d = 3 ∨ d = 4 ∨ d = 5 ∨ d = 6 ∨ d = 7 ∨
          d = 8 ∨ d = 9)%N as Hcases by lia.
  repeat destruct Hcases as [->|Hcases]; try subst d; by vm_compute.
Qed.

Lemma Atoi_digits_app s t n :
  Atoi_digits (s +:+ t) n = Atoi_digits s n ≫= Atoi_digits t.
Proof.
  revert n. induction s as [|a s IH]; intros n; [done|].
  rewrite append_cons. simpl. destruct (digit a); [apply IH|done].
Qed.

Lemma occurrences_app c s t :
  occurrences c (s +:+ t) = occurrences c s + occurrences c t.
Proof.
  induction s as [|a s IH]; [done|]. rewrite append_cons. simpl.
  rewrite IH. lia.
Qed.

Lemma pretty_N_go_app x s : pretty_N_go x s = pretty_N_go x "" +:+ s.
Proof.
  revert s. induction (N.lt_wf_0 x) as [x _ IH]; intros s.
  assert (x = 0 ∨ 0 < x)%N as [->|Hx] by lia; [done|].
  assert (Hlt : (x `div` 10 < x)%N) by (apply N.div_lt; lia).
  rewrite (pretty_N_go_step x s), (pretty_N_go_step x "") by done.
  rewrite (IH _ Hlt (String (pretty_N_char (x `mod` 10)) s)).
  rewrite (IH _ Hlt (String (pretty_N_char (x `mod` 10)) "")).
  generalize (pretty_N_go (x `div` 10) ""). intros p.
  induction p as [|a p IHp]; [done|]. rewrite !append_cons. by rewrite IHp.
Qed.

(** The decimal text of [x]: its digits read back as [x], there is no
    colon in it, and it has at most [k] bytes when [x < 10 ^ k]. *)
Lemma pretty_N_go_digits x :
  (∀ n, Atoi_digits (pretty_N_go x "") n
        = Some (n * 10 ^ Z.of_nat (String.length (pretty_N_go x "")) + Z.of_N x)%Z) ∧
  occurrences colon (pretty_N_go x "") = 0 ∧
  (0 < x → 10 ^ (N.of_nat (String.length (pretty_N_go x "")) - 1) ≤ x)%N.
Proof.
  induction (N.lt_wf_0 x) as [x _ IH].
  assert (x = 0 ∨ 0 < x)%N as [->|Hx] by lia.
  { split; [|split; [done|lia]]. intros n. simpl. f_equal. lia. }
  rewrite pretty_N_go_step by done. rewrite pretty_N_go_app.
  destruct (IH (x `div` 10)%N) as (Hval & Hocc & Hlen); [apply N.div_lt; lia|].
  destruct (digit_pretty_N_char (x `mod` 10)%N) as [Hd Hc];
    [apply N.mod_lt; lia|].
  set (p := pretty_N_go (x `div` 10) "") in *.
  assert (Hl : String.length (p +:+ String (pretty_N_char (x `mod` 10)) "")
               = S (String.length p)).
  { rewrite length_append. simpl. lia. }
  rewrite Hl. split; [|split].
  - intros n. rewrite Atoi_digits_app, Hval. simpl. rewrite Hd. f_equal.
    rewrite Nat2Z.inj_succ, Z.pow_succ_r by lia.
    pose proof (N.div_mod x 10 ltac:(lia)) as Hdm.
    rewrite N2Z.inj_div, N2Z.inj_mod in *.
    assert (Z.of_N x = 10 * (Z.of_N x `div` 10) + Z.of_N x `mod` 10)%Z as Hz
      by (apply Z.div_mod; lia).
    change (Z.of_N 10) with 10%Z. lia.
  - rewrite occurrences_app, Hocc. simpl.
    by rewrite decide_False.
  - intros _. destruct (N.eq_0_gt_0_cases (x `div` 10)) as [Hz|Hpos].
    + subst p. rewrite Hz, pretty_N_go_0. cbn [String.length].
      change (10 ^ (N.of_nat 1 - 1))%N with 1%N. lia.
    + specialize (Hlen Hpos).
      replace (N.of_nat (S (String.length p)) - 1)%N
        with (N.succ (N.of_nat (String.length p) - 1))%N.
      2: { assert (String.length p ≠ 0); [|lia].
           subst p. intros Hlen0.
           rewrite pretty_N_go_step, pretty_N_go_app in Hlen0 by done.
           rewrite length_append in Hlen0. simpl in Hlen0. lia. }
      rewrite N.pow_succ_r by lia.
      pose proof (N.Div0.mul_div_le x 10). nia.
Qed.

Lemma digit_not_sign c d : digit c = Some d → c ≠ plus_sign ∧ c ≠ minus_sign.
Proof. intros Hd. split; intros ->; by vm_compute in Hd. Qed.

Lemma pretty_N_colon_free (port : N) : occurrences colon (pretty port) = 0.
Proof.
  unfold pretty, pretty_N. case_decide; [done|]. apply pretty_N_go_digits.
Qed.

Lemma Atoi_pretty (port : N) :
  (port < 10 ^ 18)%N → Atoi (pretty port) = (Z.of_N port, None).
Proof.
  intros Hlt. unfold pretty, pretty_N. case_decide as H0; [by subst|].
  destruct (pretty_N_go_digits port) as (Hval & _ & Hlen).
  specialize (Hlen ltac:(lia)). specialize (Hval 0%Z).
  set (s := pretty_N_go port "") in *.
  assert (Hk : String.length s < 19).
  { assert (N.of_nat (String.length s) - 1 < 18)%N; [|lia].
    apply (N.pow_lt_mono_r_iff 10); lia. }
  destruct s as [|c s'] eqn:Hs.
  { simpl in Hval. simplify_eq; lia. }
  unfold Atoi. rewrite decide_True by (cbn [String.length] in *; lia).
  assert (Hc : c ≠ plus_sign ∧ c ≠ minus_sign).
  { simpl in Hval. destruct (digit c) eqn:Hd; [|done]. by eapply digit_not_sign. }
  destruct Hc as [Hp Hm].
  rewrite (bool_decide_eq_false_2 (c = minus_sign ∨ c = plus_sign)) by tauto.
  rewrite (bool_decide_eq_false_2 (c = minus_sign)) by done.
  cbn [andb]. rewrite Hval. f_equal; lia.
Qed.

(** X27. [parseDockerHost] splits "tcp://host:port" at the colon when the
    rest of the URL contains exactly one: for a host without a colon and a
    port below 10^18 written in decimal, the URL of a descriptor parses back
    into that host and that port. When the part after "tcp://" contains no
    colon, or more than one (an IPv6 literal, say), it is returned whole as
    the host and the port is 2375, whatever port the URL names. A URL that
    does not start with "tcp://" gives no host, port 0 and, as socket path,
    the URL without a leading "unix://". *)
Theorem parseDockerHost_cases :
  (∀ (host : string) (port : N),
     occurrences colon host = 0 → (port < 10 ^ 18)%N →
     parseDockerHost (buildDockerHost (tcp_descriptor host port))
     = (host, Z.of_N port, "")) ∧
  (∀ rest : string,
     occurrences colon rest ≠ 1 →
     parseDockerHost ("tcp://" +:+ rest) = (rest, 2375%Z, "")) ∧
  (∀ hostURL : string,
     HasPrefix hostURL "tcp://" = false →
     parseDockerHost hostURL = ("", 0%Z, TrimPrefix hostURL "unix://") ∧
     ∀ path, hostURL = "unix://" +:+ path → TrimPrefix hostURL "unix://" = path).
Proof.
  assert (Htcp : ∀ rest, parseDockerHost ("tcp://" +:+ rest)
            = match Split rest colon with
              | [part0; part1] => (part0, (Atoi part1).1, "")
              | _ => (rest, 2375%Z, "")
              end).
  { intros rest. unfold parseDockerHost, HasPrefix, TrimPrefix.
    by rewrite (CutPrefix_app "tcp://" rest). }
  split; [|split].
  - intros host port Hh Hp. unfold buildDockerHost, tcp_descriptor. cbn [Host].
    rewrite Htcp.
    change (":" +:+ pretty port) with (String colon (pretty port)).
    rewrite Split_app by done.
    rewrite Split_no_sep by apply pretty_N_colon_free.
    by rewrite Atoi_pretty.
  - intros rest Hn. rewrite Htcp.
    pose proof (Split_length rest colon) as Hl.
    destruct (Split rest colon) as [|a [|b [|c l]]]; simpl in Hl; try done. lia.
  - intros hostURL Hp. unfold parseDockerHost. rewrite Hp. split; [done|].
    intros path ->. unfold TrimPrefix. by rewrite CutPrefix_app.
Qed.

(** A TCP endpoint, an IPv6 endpoint and a socket. *)
Lemma parseDockerHost_cases_witness :
  parseDockerHost "tcp://10.0.0.5:2376" = ("10.0.0.5", 2376%Z, "") ∧
  parseDockerHost "tcp://[::1]:2376" = ("[::1]:2376", 2375%Z, "") ∧
  parseDockerHost "unix:///var/run/docker.sock" = ("", 0%Z, "/var/run/docker.sock").
Proof.
  destruct parseDockerHost_cases as (Hone & Hmany & Hsock).
  split; [|split].
  - apply (Hone "10.0.0.5" 2376%N); [reflexivity|]. by vm_compute.
  - apply (Hmany "[::1]:2376"). by vm_compute.
  - destruct (Hsock "unix:///var/run/docker.sock" eq_refl) as [-> Hpath].
    by rewrite (Hpath "/var/run/docker.sock" eq_refl).
Defined.
